(** * Onitu: drivers, plug metadata and chunk router

    A shallow embedding of the parts of Onitu that its specification talks
    about: the [Metadata] class of the plug, the REST file-id route, the
    chunk [Router], the local-storage driver and the Dropbox driver.

    Python objects that are mutated in place (the metadata handed to a
    handler, the entry database, the status file) are threaded explicitly
    through a state-and-exception monad; an exception keeps the state
    reached when it was raised. *)

From Stdlib Require Import ZArith String Ascii List Lia Bool.
From stdpp Require Import base option list gmap strings sorting.

Local Open Scope string_scope.
Local Open Scope list_scope.
Local Open Scope Z_scope.

(** ** Python runtime: exceptions and effects *)

Module Py.

(** What the Dropbox driver looks for in an [ErrorResponse]: the status
    503 with a message asking to re-issue the request, the status 403 with
    the message of a name that already exists, anything else. *)
Inductive rest_kind : Type := Reissue503 | Exists403 | OtherResponse.

#[global] Instance rest_kind_eq_dec : EqDecision rest_kind.
Proof. solve_decision. Defined.

(** The exceptions the modelled code raises or lets through. *)
Inductive exn : Type :=
| DriverError        (* onitu.plug.DriverError *)
| ServiceError       (* onitu.plug.ServiceError *)
| ErrorResponse (k : rest_kind)   (* dropbox.rest.ErrorResponse *)
| RESTSocketError                 (* dropbox.rest.RESTSocketError *)
| OSError            (* IOError and OSError *)
| TypeError
| ValueError
| IndexError
| UnboundLocalError
| OverflowError
| MemoryError.

#[global] Instance exn_eq_dec : EqDecision exn.
Proof. solve_decision. Defined.

(** Outcome of a call: an exception or a returned value. *)
Inductive outcome (A : Type) : Type :=
| Raise (e : exn)
| Return (a : A).
Arguments Raise {A} e.
Arguments Return {A} a.

(** A computation over a mutable world [S]. *)
Definition exec (S A : Type) : Type := S -> S * outcome A.

Definition ret {S A} (a : A) : exec S A := fun s => (s, Return a).
Definition raise {S A} (e : exn) : exec S A := fun s => (s, Raise e).
Definition bind {S A B} (c : exec S A) (k : A -> exec S B) : exec S B :=
  fun s => match c s with
           | (s', Raise e) => (s', Raise e)
           | (s', Return a) => k a s'
           end.
Definition get {S} : exec S S := fun s => (s, Return s).
Definition modify {S} (f : S -> S) : exec S unit := fun s => (f s, Return tt).

(** [try: c except e: h e] for the exceptions selected by [caught]. *)
Definition try_except {S A} (c : exec S A) (caught : exn -> bool)
    (h : exn -> exec S A) : exec S A :=
  fun s => match c s with
           | (s', Raise e) => if caught e then h e s' else (s', Raise e)
           | r => r
           end.

(** [try: c except (IOError, OSError): raise ServiceError(...)]. *)
Definition is_OSError (e : exn) : bool :=
  match e with OSError => true | _ => false end.
Definition os_guard {S A} (c : exec S A) : exec S A :=
  try_except c is_OSError (fun _ => raise ServiceError).

(** A [for] loop whose body may raise. *)
Fixpoint for_each {S A} (xs : list A) (body : A -> exec S unit) : exec S unit :=
  match xs with
  | [] => ret tt
  | x :: xs' => bind (body x) (fun _ => for_each xs' body)
  end.

End Py.
Import Py.

Notation "x <~ c ;; k" := (bind c (fun x => k))
  (at level 100, c at next level, right associativity).
Notation "c ;;; k" := (bind c (fun _ => k))
  (at level 100, right associativity).

(** ** Values stored in the per-driver extras *)

(** The extras are a JSON-serialisable dict; the drivers store strings
    ([rev], [modified], [upload_id]) and numbers ([revision], an mtime). *)
Inductive value : Type :=
| VStr (s : string)
| VNum (n : Z).

#[global] Instance value_eq_dec : EqDecision value.
Proof. solve_decision. Defined.

(** Python truthiness: the empty string and zero are false. *)
Definition truthy (v : value) : bool :=
  match v with
  | VStr s => negb (String.eqb s "")
  | VNum n => negb (Z.eqb n 0)
  end.

Definition str_truthy (s : string) : bool := negb (String.eqb s "").

(** [s[n:]] and [s[:-1]]. *)
Fixpoint string_drop (n : nat) (s : string) : string :=
  match n, s with
  | O, _ => s
  | S n', String _ r => string_drop n' r
  | S _, EmptyString => ""
  end.

Fixpoint string_init (s : string) : string :=
  match s with
  | EmptyString => ""
  | String _ EmptyString => ""
  | String c r => String c (string_init r)
  end.

(** ** onitu/plug/metadata.py *)

Record Metadata : Type := mkMetadata {
  filename : string;
  size : Z;
  owners : list string;
  uptodate : list string;
  fid : option string;            (* the attribute is left unset when both
                                     [fid] and [filename] are falsy *)
  extra : gmap string value
}.

Definition set_size (m : Metadata) (n : Z) : Metadata :=
  mkMetadata (filename m) n (owners m) (uptodate m) (fid m) (extra m).
Definition set_extra (m : Metadata) (e : gmap string value) : Metadata :=
  mkMetadata (filename m) (size m) (owners m) (uptodate m) (fid m) e.

Section Fid.

(** [get_fid] is imported from [onitu.utils], which is not among the
    sources.  It is called positionally, with one argument by
    [Metadata.__init__] and with two by the REST route, so it is taken
    here as a function of the argument tuple; [None] stands for the
    [TypeError] of a call with the wrong number of arguments. *)
Variable get_fid : list string -> option string.

Definition call_get_fid (args : list string) : outcome string :=
  match get_fid args with
  | Some f => Return f
  | None => Raise TypeError
  end.

(** [Metadata.__init__(plug, filename, size, fid, owners, uptodate)];
    a missing [filename] or [fid] is the empty string (both are falsy). *)
Definition Metadata_init (filename_ : string) (size_ : Z) (fid_ : string)
    (owners_ uptodate_ : list string) : outcome Metadata :=
  let mk f := mkMetadata filename_ size_ owners_ uptodate_ f ∅ in
  if negb (str_truthy fid_) && str_truthy filename_ then
    match call_get_fid [filename_] with
    | Return f => Return (mk (Some f))
    | Raise e => Raise e
    end
  else if str_truthy fid_ then Return (mk (Some fid_))
  else Return (mk None).

(** The fid of a metadata object instantiated for a file name. *)
Definition metadata_fid (filename_ : string) : outcome (option string) :=
  match Metadata_init filename_ 0 "" [] [] with
  | Return m => Return (fid m)
  | Raise e => Raise e
  end.

(** [get_file_id(folder, name)] of the REST API, on the decoded route
    parameters: the fid it looks up (line 160). *)
Definition rest_fid (folder name : string) : outcome (option string) :=
  match call_get_fid [folder; name] with
  | Return f => Return (Some f)
  | Raise e => Raise e
  end.

(** The route's answer, given the store's lookup of [file:{fid}]. *)
Definition get_file_id (store : gmap string unit) (folder name : string)
    : outcome (option (string * string)) :=
  match call_get_fid [folder; name] with
  | Return f =>
      match store !! ("file:" +:+ f) with
      | None => Return None                   (* file_not_found_in_folder *)
      | Some _ => Return (Some (name, f))
      end
  | Raise e => Raise e
  end.

End Fid.

#[global] Instance outcome_eq_dec {A} `{EqDecision A} : EqDecision (outcome A).
Proof. solve_decision. Defined.

(** ** posixpath: the [os.path] functions the local driver calls *)

Module OsPath.

Definition is_sep (c : ascii) : bool := Ascii.eqb c "/"%char.
Definition is_dot (c : ascii) : bool := Ascii.eqb c "."%char.

(** [(p[:i], p[i:])] for [i = p.rfind('/') + 1]. *)
Fixpoint rsplit_sep (p : string) : string * string :=
  match p with
  | EmptyString => ("", "")
  | String c r =>
      match rsplit_sep r with
      | (EmptyString, t) => if is_sep c then (String c "", r) else ("", String c t)
      | (h, t) => (String c h, t)
      end
  end.

(** [s.rstrip('/')]. *)
Fixpoint rstrip_sep (s : string) : string :=
  match s with
  | EmptyString => ""
  | String c r =>
      match rstrip_sep r with
      | EmptyString => if is_sep c then "" else String c ""
      | r' => String c r'
      end
  end.

Definition dirname (p : string) : string :=
  let head := fst (rsplit_sep p) in
  (* if head and head != '/'*len(head): head = head.rstrip('/') *)
  if str_truthy head && str_truthy (rstrip_sep head) then rstrip_sep head else head.

Definition basename (p : string) : string := snd (rsplit_sep p).

Fixpoint endswith_sep (s : string) : bool :=
  match s with
  | EmptyString => false
  | String c EmptyString => is_sep c
  | String _ r => endswith_sep r
  end.

Definition startswith_sep (s : string) : bool :=
  match s with
  | String c _ => is_sep c
  | EmptyString => false
  end.

Definition join (a b : string) : string :=
  if startswith_sep b then b
  else if negb (str_truthy a) || endswith_sep a then a +:+ b
  else a +:+ "/" +:+ b.

(** Split [t] at its last dot: [(t[:j], t[j:])], if it has one. *)
Fixpoint rsplit_dot (t : string) : option (string * string) :=
  match t with
  | EmptyString => None
  | String c r =>
      match rsplit_dot r with
      | Some (stem, e) => Some (String c stem, e)
      | None => if is_dot c then Some ("", String c r) else None
      end
  end.

Fixpoint all_dots (s : string) : bool :=
  match s with
  | EmptyString => true
  | String c r => is_dot c && all_dots r
  end.

(** [genericpath._splitext]: the extension starts at the last dot of the
    last component, unless only dots precede it there. *)
Definition splitext (p : string) : string * string :=
  let '(head, tail) := rsplit_sep p in
  match rsplit_dot tail with
  | Some (stem, e) => if all_dots stem then (p, "") else (head +:+ stem, e)
  | None => (p, "")
  end.

End OsPath.

(** ** Calls into the plug runtime *)

(** The services of [onitu.plug.Plug] a driver calls to report a change.
    The plug itself is not among the sources; a call is recorded with the
    metadata object it was given. *)
Inductive plug_call : Type :=
| PlugUpdateFile (m : Metadata)
| PlugDeleteFile (m : Metadata).

Definition bytes : Type := list Byte.byte.

(** ** drivers/local_storage/onitu_local_storage/local_storage.py *)

Module LocalStorage.

Definition TMP_EXT : string := ".onitu-tmp".

Definition to_tmp (filename_ : string) : string :=
  OsPath.join (OsPath.dirname filename_)
              ("." +:+ OsPath.basename filename_ +:+ TMP_EXT).

(** A regular file: its bytes and its modification time.  Times are
    only compared and copied; the floats of [os.path.getmtime] are taken
    as integers. *)
Record file : Type := mkFile { content : bytes; mtime : Z }.

(** What the driver reads and writes.  [fs] holds the regular files by
    absolute path.  [status_file] is the JSON dict kept in
    [<tmpdir>/onitu_synced_files] ([None] when the file cannot be opened
    for reading); [status_writable] tells whether opening it for writing
    succeeds.  [now] is the clock that stamps written files.  [store] is
    the metadata store ([file:{fid}] and the driver's [entry] under it,
    written together by [Metadata.write]), addressed by file name: the fid
    is taken collision-free.  [plug_calls] is the trace of the changes
    reported to the plug.

    Directories are not stored: a path is a directory when a file lies
    below it, and the directories a file needs are there with the file. *)
Record world : Type := mkWorld {
  fs : gmap string file;
  status_file : option (gmap string string);
  status_writable : bool;
  now : Z;
  store : gmap string Metadata;
  plug_calls : list plug_call
}.

Definition with_fs (f : gmap string file -> gmap string file) (w : world) : world :=
  mkWorld (f (fs w)) (status_file w) (status_writable w) (now w) (store w) (plug_calls w).
Definition with_status (d : gmap string string) (w : world) : world :=
  mkWorld (fs w) (Some d) (status_writable w) (now w) (store w) (plug_calls w).
Definition with_store (f : gmap string Metadata -> gmap string Metadata) (w : world) : world :=
  mkWorld (fs w) (status_file w) (status_writable w) (now w) (f (store w)) (plug_calls w).
Definition with_call (c : plug_call) (w : world) : world :=
  mkWorld (fs w) (status_file w) (status_writable w) (now w) (store w) (plug_calls w ++ [c]).

(** [p] lies below a regular file: a component of its directory part
    names a regular file, and the path cannot be resolved. *)
Definition below_a_file (f : gmap string file) (p : string) : bool :=
  existsb (fun q => String.prefix (q +:+ "/") p) (map fst (map_to_list f)).

(** [p] is a directory: a file lies below it. *)
Definition is_directory (f : gmap string file) (p : string) : bool :=
  existsb (fun q => String.prefix (p +:+ "/") q) (map fst (map_to_list f)).

(** A regular file can be created at [p], or moved there. *)
Definition can_hold (f : gmap string file) (p : string) : bool :=
  negb (below_a_file f p) && negb (is_directory f p).

(** The dict [set_status] starts from: the status file's, or [dict()]. *)
Definition status_data (w : world) : gmap string string :=
  default ∅ (status_file w).

(** [set_status(abs_path, status)]; the status file, when it can be read,
    holds a JSON dict. *)
Definition set_status (abs_path : string) (status : option string) : exec world unit :=
  fun w =>
    let data := status_data w in
    let data' := match status with
                 | None => delete abs_path data        (* data.pop(abs_path, None) *)
                 | Some s => <[abs_path := s]> data
                 end in
    if status_writable w then (with_status data' w, Return tt)
    else (w, Raise ServiceError).

(** [f.seek(offset); f.read(size)] on a file opened for reading, as
    CPython 3 does it on a 64-bit machine: a size below -1 is refused
    ([ValueError]), the size -1 reads to the end of the file, a size from
    [2^63 - 33] on does not fit a bytes object ([OverflowError]), and a
    size beyond [read_limit], the largest buffer the machine can allocate,
    fails with [MemoryError]; otherwise at most [size] bytes are read. *)
Definition file_read (read_limit : Z) (c : bytes) (offset size_ : Z) : outcome bytes :=
  let rest := drop (Z.to_nat offset) c in
  if size_ <? -1 then Raise ValueError
  else if size_ =? -1
       then (if read_limit <? Z.of_nat (length rest) then Raise MemoryError
             else Return rest)
  else if 2 ^ 63 - 33 <=? size_ then Raise OverflowError
  else if read_limit <? size_ then Raise MemoryError
  else Return (take (Z.to_nat size_) rest).

(** [f.seek(offset); f.write(chunk)] on a file opened with ['r+b']: a gap
    past the end of the file is filled with zero bytes. *)
Definition file_write (c : bytes) (offset : Z) (chunk : bytes) : bytes :=
  let o := Z.to_nat offset in
  take o c ++ replicate (o - length c)%nat Byte.x00 ++ chunk
    ++ drop (o + length chunk)%nat c.

Section Driver.

(** [metadata.path]: the absolute path, in the driver's folder, of the
    file a metadata object names.  The property belongs to the plug's
    metadata objects and is not defined in [plug/metadata.py]; it does
    not change when a handler updates the object. *)
Variable path_of : string -> string.
Definition path (m : Metadata) : string := path_of (filename m).
(** [plug.name] and [onitu.utils.IS_WINDOWS]. *)
Variable plug_name : string.
Variable IS_WINDOWS : bool.
(** The largest number of bytes a read can allocate on the machine. *)
Variable read_limit : Z.

(** [Metadata.write]. *)
Definition write (m : Metadata) : exec world unit :=
  modify (with_store (fun st => <[filename m := m]> st)).

(** Modelled from the spec: [Plug.get_metadata(filename, folder)], which
    is not among the sources: fetch the record of the file, or a new
    record for a file the store does not know. *)
Definition plug_get_metadata (filename_ : string) : exec world Metadata :=
  fun w => match store w !! filename_ with
           | Some m => (w, Return m)
           | None => (w, Return (mkMetadata filename_ 0 [] [] None ∅))
           end.

(** Modelled from the spec: [Plug.update_file(metadata)], which is not
    among the sources: writes the metadata ([metadata.write()] is
    performed in [plug.update_file], as the Dropbox driver notes) and
    publishes the change to the referee. *)
Definition plug_update_file (m : Metadata) : exec world unit :=
  write m ;;; modify (with_call (PlugUpdateFile m)).

(** Modelled from the spec: [Plug.delete_file(metadata)], which is not
    among the sources: publishes the deletion to the referee. *)
Definition plug_delete_file (m : Metadata) : exec world unit :=
  modify (with_call (PlugDeleteFile m)).

(** Modelled from the spec: [Plug.list(folder).keys()], which is not
    among the sources: the names of the files recorded in the store. *)
Definition plug_list (w : world) : gset string := dom (store w).

(** [os.unlink(path)]: fails on a missing file. *)
Definition os_unlink (p : string) : exec world unit :=
  fun w => match fs w !! p with
           | Some _ => (with_fs (delete p) w, Return tt)
           | None => (w, Raise OSError)
           end.

(** [open(p, 'wb').close()]: creates the regular file [p], or empties
    it; fails when [p] lies below a regular file or is a directory. *)
Definition os_create (p : string) : exec world unit :=
  fun w => if can_hold (fs w) p
           then (with_fs (fun m => <[p := mkFile [] (now w)]> m) w, Return tt)
           else (w, Raise OSError).

(** [os.rename(src, dst)] and [os.renames(old, new)] on regular files:
    fail on a missing source, and when the destination lies below a
    regular file or is a directory; replace a regular file at the
    destination.  The directories [os.renames] creates and prunes are
    not stored. *)
Definition os_rename (src dst : string) : exec world unit :=
  fun w => match fs w !! src with
           | Some f =>
               if can_hold (fs w) dst
               then (with_fs (fun m => <[dst := f]> (delete src m)) w, Return tt)
               else (w, Raise OSError)
           | None => (w, Raise OSError)
           end.

(** [os.path.getmtime] and [os.path.getsize]. *)
Definition os_getmtime (p : string) : exec world Z :=
  fun w => match fs w !! p with
           | Some f => (w, Return (mtime f))
           | None => (w, Raise OSError)
           end.
Definition os_getsize (p : string) : exec world Z :=
  fun w => match fs w !! p with
           | Some f => (w, Return (Z.of_nat (length (content f))))
           | None => (w, Raise OSError)
           end.

(** [update(metadata, mtime=None)]. *)
Definition update (m : Metadata) (mtime_ : option Z) : exec world unit :=
  w <~ get ;;
  if bool_decide (is_Some (fs w !! to_tmp (path m))) then ret tt
  else
    m' <~ os_guard (
      sz <~ os_getsize (path m) ;;
      mt <~ (match mtime_ with
             | Some t => if Z.eqb t 0 then os_getmtime (path m) else ret t
             | None => os_getmtime (path m)
             end) ;;
      ret (set_extra (set_size m sz) (<["revision" := VNum mt]> (extra m)))) ;;
    plug_update_file m' ;;;
    set_status (path m) (Some "synced").

(** [walkfiles(root)]: the files below [root]. *)
Definition below (root : string) : string :=
  if OsPath.endswith_sep root then root else root +:+ "/".
Definition walkfiles (root : string) (w : world) : list string :=
  filter (fun p => Is_true (String.prefix (below root) p)) (map fst (map_to_list (fs w))).

(** [folder.relpath(path)] for a path below the folder. *)
Definition relpath (root p : string) : string :=
  string_drop (String.length (below root)) p.

(** The first loop of [check_changes], over the files found on disk;
    [expected] is the local [expected_files]. *)
Fixpoint scan_files (root : string) (paths : list string) (expected : gset string)
    : exec world (gset string) :=
  match paths with
  | [] => ret expected
  | p :: rest =>
      if String.eqb (snd (OsPath.splitext p)) TMP_EXT then scan_files root rest expected
      else
        let filename_ := relpath root p in
        let expected' := expected ∖ {[filename_]} in
        m <~ plug_get_metadata filename_ ;;
        revision <~ (match extra m !! "revision" with
                     | None => ret 0
                     | Some (VNum r) => ret r
                     | Some (VStr _) => raise TypeError
                     end) ;;
        mt <~ os_guard (os_getmtime p) ;;
        (if mt >? revision then update m (Some mt)
         else set_status (path m) (Some "synced")) ;;;
        scan_files root rest expected'
  end.

(** The second loop of [check_changes], over the recorded files that
    were not seen on disk. *)
Definition report_missing (filename_ : string) : exec world unit :=
  m <~ plug_get_metadata filename_ ;;
  if bool_decide (plug_name ∈ uptodate m) then plug_delete_file m else ret tt.

(** [check_changes(folder)], for the folder of path [root]. *)
Definition check_changes (root : string) : exec world unit :=
  w <~ get ;;
  expected <~ scan_files root (walkfiles root w) (plug_list w) ;;
  for_each (elements expected) report_missing.

(** [get_chunk(metadata, offset, size)]. *)
Definition get_chunk (m : Metadata) (offset size_ : Z) : exec world bytes :=
  os_guard (fun w =>
    match fs w !! path m with
    | None => (w, Raise OSError)                 (* open fails *)
    | Some f =>
        if offset <? 0 then (w, Raise OSError)   (* seek fails *)
        else (w, file_read read_limit (content f) offset size_)
    end).

(** [start_upload(metadata)]; the errors of [os.makedirs] are ignored,
    and the directories it creates are not stored. *)
Definition start_upload (m : Metadata) : exec world unit :=
  let tmp_file := to_tmp (path m) in
  os_guard (
    os_create tmp_file ;;;
    set_status (path m) (Some "pending")).

(** [upload_chunk(metadata, offset, chunk)]. *)
Definition upload_chunk (m : Metadata) (offset : Z) (chunk : bytes) : exec world unit :=
  let tmp_file := to_tmp (path m) in
  os_guard (fun w =>
    match fs w !! tmp_file with
    | None => (w, Raise OSError)
    | Some f =>
        if offset <? 0 then (w, Raise OSError)
        else (with_fs (fun fs_ =>
                <[tmp_file := mkFile (file_write (content f) offset chunk) (now w)]> fs_) w,
              Return tt)
    end).

(** [end_upload(metadata)]; returns the metadata object as it leaves
    the handler. *)
Definition end_upload (m : Metadata) : exec world Metadata :=
  let tmp_file := to_tmp (path m) in
  mt <~ os_guard (
    (if IS_WINDOWS
     then try_except (os_unlink (path m)) is_OSError (fun _ => ret tt)
     else ret tt) ;;;
    os_rename tmp_file (path m) ;;;
    os_getmtime (path m)) ;;
  let m' := set_extra m (<["revision" := VNum mt]> (extra m)) in
  write m' ;;;
  set_status (path m) (Some "synced") ;;;
  ret m'.

(** [abort_upload(metadata)]. *)
Definition abort_upload (m : Metadata) : exec world unit :=
  os_guard (os_unlink (to_tmp (path m))) ;;;
  set_status (path m) None.

(** [delete_file(metadata)]. *)
Definition delete_file (m : Metadata) : exec world unit :=
  os_guard (os_unlink (path m)) ;;;
  set_status (path m) None.

(** [move_file(old_metadata, new_metadata)]. *)
Definition move_file (old_metadata new_metadata : Metadata) : exec world unit :=
  os_guard (os_rename (path old_metadata) (path new_metadata)) ;;;
  set_status (path old_metadata) None ;;;
  set_status (path old_metadata) (Some "synced").

End Driver.

End LocalStorage.

(** ** onitu/api/router.py *)

Module Router.

Section Router.

(** The world the [read_chunk] callback works on. *)
Variable W : Type.
(** Python's [int] on a request frame; [None] is its [ValueError]. *)
Variable int : string -> option Z.
(** [self.read_chunk], the callback the router was built with. *)
Variable read_chunk : string -> Z -> Z -> exec W bytes.

(** The router thread's view: the callback's world and the multipart
    messages handed to the ROUTER socket, oldest first.  A message is the
    tuple given to [send_multipart]: the peer identity, which the socket
    consumes to route the reply, and the frame the peer receives. *)
Record router : Type := mkRouter {
  world_of : W;
  sent : list (string * bytes)
}.

Definition py_int (frame : string) : exec router Z :=
  match int frame with
  | Some z => ret z
  | None => raise ValueError
  end.

(** Run the callback on the router's world. *)
Definition call_read_chunk (filename_ : string) (offset size_ : Z) : exec router bytes :=
  fun r => match read_chunk filename_ offset size_ (world_of r) with
           | (w', out) => (mkRouter w' (sent r), out)
           end.

Definition send_multipart (msg : string * bytes) : exec router unit :=
  modify (fun r => mkRouter (world_of r) (sent r ++ [msg])).

(** [Router._respond_to(identity, filename, offset, size)]. *)
Definition _respond_to (identity filename_ offset size_ : string) : exec router unit :=
  o <~ py_int offset ;;
  n <~ py_int size_ ;;
  chunk <~ call_read_chunk filename_ o n ;;
  send_multipart (identity, chunk).

(** The frames a peer receives for a routed message. *)
Definition delivered (msg : string * bytes) : list bytes := [snd msg].

End Router.

Arguments mkRouter {W} _ _.
Arguments world_of {W} _.
Arguments sent {W} _.

End Router.

(** ** drivers/dropbox/onitu_dropbox/dropbox_driver.py *)

Module Dropbox.

(** The metadata dict Dropbox returns for a path.  [is_dir] and
    [is_deleted] are read with [get(.., False)]: an absent key is [false]. *)
Record db_metadata : Type := mkDbMetadata {
  db_bytes : Z;
  db_rev : string;
  db_modified : string;
  db_path : string;
  db_is_dir : bool;
  db_is_deleted : bool
}.

(** The [params] dict of the commit request. *)
Record commit_params : Type := mkCommitParams {
  cp_overwrite : bool;
  cp_upload_id : value;
  cp_parent_rev : option value       (* [None]: no [parent_rev] key *)
}.

(** One answer of [delta]. *)
Record delta : Type := mkDelta {
  entries : list (string * option db_metadata);
  has_more : bool;
  delta_cursor : string
}.

(** The calls made on [dropbox_client], with the arguments that reach
    Dropbox. *)
Inductive request : Type :=
| ReqGetFile (url_path : string) (range_first range_last : Z)
| ReqUploadChunk (chunk : bytes) (offset : Z) (upload_id : option value)
| ReqCommit (url_path : string) (params : commit_params)
| ReqFileMove (from_path to_path : string)
| ReqFileDelete (path : string)
| ReqMetadata (path : string)
| ReqDelta (cursor : option string) (path_prefix : string).

(** Dropbox behind [dropbox_client]: a state [B] and what it answers. *)
Class Client (B : Type) : Type := {
  api_get_file : string -> Z -> Z -> B -> B * outcome bytes;
  api_upload_chunk : bytes -> Z -> option value -> B -> B * outcome (Z * string);
  api_commit : string -> commit_params -> B -> B * outcome db_metadata;
  api_file_move : string -> string -> B -> B * outcome db_metadata;
  api_file_delete : string -> B -> B * outcome unit;
  api_metadata : string -> B -> B * outcome db_metadata;
  api_delta : option string -> string -> B -> B * outcome delta
}.

Inductive level : Type := Warning | Info.

Definition is_rest_error (e : exn) : bool :=
  match e with ErrorResponse _ | RESTSocketError => true | _ => false end.
Definition is_ErrorResponse (e : exn) : bool :=
  match e with ErrorResponse _ => true | _ => false end.

(** [str.split(':', 1)[1]]: what follows the first colon. *)
Fixpoint after_colon (s : string) : option string :=
  match s with
  | EmptyString => None
  | String c r => if Ascii.eqb c ":"%char then Some r else after_colon r
  end.

(** Python's comparison of [struct_time] values: tuples, in
    lexicographic order. *)
Fixpoint tuple_gtb (a b : list Z) : bool :=
  match a, b with
  | x :: a', y :: b' => if x =? y then tuple_gtb a' b' else y <? x
  | _ :: _, [] => true
  | [], _ => false
  end.

Section Driver.

Context {B : Type} `{Client B}.

(** [plug.options['root']], [dropbox_client.session.root],
    [dropbox.client.format_path] and [time.strptime(., TIMESTAMP_FMT)]
    ([None]: [ValueError]). *)
Variable root : string.
Variable session_root : string.
Variable format_path : string -> string.
Variable strptime : string -> option (list Z).

(** What the driver reads and writes: Dropbox and the trace of the calls
    made on it, the plug's entry database, the metadata store (addressed
    by file name, the fid taken collision-free), the warnings and
    informations logged (debug messages are left out), the changes
    reported to the plug, and [CheckChanges.cursor]. *)
Record world : Type := mkWorld {
  client : B;
  requests : list request;
  entry_db : gmap string string;
  store : gmap string Metadata;
  log : list (level * string);
  plug_calls : list plug_call;
  cursor : option string
}.

Definition with_entry_db (f : gmap string string -> gmap string string) (w : world) : world :=
  mkWorld (client w) (requests w) (f (entry_db w)) (store w) (log w) (plug_calls w) (cursor w).
Definition with_store (f : gmap string Metadata -> gmap string Metadata) (w : world) : world :=
  mkWorld (client w) (requests w) (entry_db w) (f (store w)) (log w) (plug_calls w) (cursor w).
Definition with_log (l : level) (msg : string) (w : world) : world :=
  mkWorld (client w) (requests w) (entry_db w) (store w) (log w ++ [(l, msg)]) (plug_calls w) (cursor w).
Definition with_call (c : plug_call) (w : world) : world :=
  mkWorld (client w) (requests w) (entry_db w) (store w) (log w) (plug_calls w ++ [c]) (cursor w).
Definition with_cursor (c : option string) (w : world) : world :=
  mkWorld (client w) (requests w) (entry_db w) (store w) (log w) (plug_calls w) c.

(** A call on [dropbox_client]: recorded, then answered by Dropbox. *)
Definition call {A} (rq : request) (api : B -> B * outcome A) : exec world A :=
  fun w => match api (client w) with
           | (b', out) =>
               (mkWorld b' (requests w ++ [rq]) (entry_db w) (store w) (log w)
                        (plug_calls w) (cursor w), out)
           end.

(** [try: c except (ErrorResponse, RESTSocketError): raise ServiceError]. *)
Definition rest_guard {A} (c : exec world A) : exec world A :=
  try_except c is_rest_error (fun _ => raise ServiceError).

Definition logger (l : level) (msg : string) : exec world unit :=
  modify (with_log l msg).

(** [Metadata.write], and the plug services (see the local driver). *)
Definition write (m : Metadata) : exec world unit :=
  modify (with_store (fun st => <[filename m := m]> st)).

(** Modelled from the spec: [Plug.get_metadata(filename)], which is not
    among the sources: fetch the record of the file, or a new record for
    a file the store does not know. *)
Definition plug_get_metadata (filename_ : string) : exec world Metadata :=
  fun w => match store w !! filename_ with
           | Some m => (w, Return m)
           | None => (w, Return (mkMetadata filename_ 0 [] [] None ∅))
           end.

(** Modelled from the spec: [Plug.update_file(metadata)], which is not
    among the sources: writes the metadata and publishes the change. *)
Definition plug_update_file (m : Metadata) : exec world unit :=
  write m ;;; modify (with_call (PlugUpdateFile m)).

(** Modelled from the spec: [Plug.delete_file(metadata)], which is not
    among the sources: publishes the deletion. *)
Definition plug_delete_file (m : Metadata) : exec world unit :=
  modify (with_call (PlugDeleteFile m)).

(** [plug.entry_db.range(prefix)]: the entries whose key starts with
    [prefix], in key order. *)
Definition key_le (a b : string * string) : Prop :=
  Is_true (String.leb (fst a) (fst b)).
Definition db_range (prefix : string) (db : gmap string string) : list (string * string) :=
  merge_sort key_le
    (filter (fun kv => Is_true (String.prefix prefix (fst kv))) (map_to_list db)).

Definition root_prefixed_filename (filename_ : string) : string :=
  let name := root in
  let name := if negb (OsPath.endswith_sep name) then name +:+ "/" else name in
  name +:+ filename_.

(** [remove_upload_id(metadata)]. *)
Definition remove_upload_id (m : Metadata) : Metadata :=
  match extra m !! "upload_id" with
  | Some _ => set_extra m (delete "upload_id" (extra m))
  | None => m
  end.

(** [update_metadata_info(metadata, new_metadata, write)]; returns the
    metadata object as updated. *)
Definition update_metadata_info (m : Metadata) (new_metadata : db_metadata)
    (write_ : bool) : exec world Metadata :=
  let m' := set_extra (set_size m (db_bytes new_metadata))
              (<["modified" := VStr (db_modified new_metadata)]>
                 (<["rev" := VStr (db_rev new_metadata)]> (extra m))) in
  (if write_ then write m' else ret tt) ;;;
  ret m'.

(** [remove_conflict(filename)]. *)
Definition remove_conflict (filename_ : string) : exec world unit :=
  let conflict_name := "conflict:" +:+ filename_ in
  w <~ get ;;
  match entry_db w !! conflict_name with
  | Some c => if str_truthy c then modify (with_entry_db (delete conflict_name)) else ret tt
  | None => ret tt
  end.

(** The list comprehension of [conflicting_filename]. *)
Fixpoint strip_keys (confs : list (string * string)) : outcome (list (string * string)) :=
  match confs with
  | [] => Return []
  | (o_fn, d_fn) :: rest =>
      match after_colon o_fn with
      | None => Raise IndexError
      | Some o =>
          match strip_keys rest with
          | Return l => Return ((o, d_fn) :: l)
          | Raise e => Raise e
          end
      end
  end.

(** The search loop of [conflicting_filename]: the first pair whose
    searched side is [filename_] gives the other side. *)
Fixpoint search_conflict (value_ : bool) (filename_ : string)
    (confs : list (string * string)) : option string :=
  match confs with
  | [] => None
  | (o_fn, d_fn) :: rest =>
      if String.eqb (if value_ then d_fn else o_fn) filename_
      then Some (if value_ then o_fn else d_fn)
      else search_conflict value_ filename_ rest
  end.

Definition conflict_warning (filename_ conflict_name : string) : string :=
  "Case conflict on Dropbox, mapping modifications of file " +:+ filename_
    +:+ " to file " +:+ conflict_name +:+ ", please rename it!".

(** [conflicting_filename(filename, value=False)]. *)
Definition conflicting_filename (filename_ : string) (value_ : bool)
    : exec world (option string) :=
  w <~ get ;;
  match strip_keys (db_range "conflict:" (entry_db w)) with
  | Raise e => raise e
  | Return confs =>
      match search_conflict value_ filename_ confs with
      | Some conflict_name =>
          logger Warning (conflict_warning filename_ conflict_name) ;;;
          ret (Some conflict_name)
      | None => ret None
      end
  end.

(** [get_dropbox_filename(metadata)]. *)
Definition get_dropbox_filename (m : Metadata) : exec world string :=
  let filename_ := root_prefixed_filename (filename m) in
  conflict_name <~ conflicting_filename filename_ false ;;
  match conflict_name with
  | Some c => if str_truthy c then ret c else ret filename_
  | None => ret filename_
  end.

(** [get_chunk(metadata, offset, size)]. *)
Definition get_chunk (m : Metadata) (offset size_ : Z) : exec world bytes :=
  filename_ <~ get_dropbox_filename m ;;
  (* headers['Range'] = "bytes={}-{}".format(offset, offset+(size-1)) *)
  rest_guard (call (ReqGetFile ("/files/dropbox/" +:+ filename_)
                               offset (offset + (size_ - 1)))
                   (api_get_file filename_ offset (offset + (size_ - 1)))).

(** [upload_chunk(metadata, offset, chunk)]; returns the metadata object
    as it leaves the handler. *)
Definition upload_chunk (m : Metadata) (offset : Z) (chunk : bytes) : exec world Metadata :=
  filename_ <~ get_dropbox_filename m ;;
  let up_id := extra m !! "upload_id" in
  r <~ rest_guard (call (ReqUploadChunk chunk offset up_id)
                        (api_upload_chunk chunk offset up_id)) ;;
  let up_id' := VStr (snd r) in
  if bool_decide (extra m !! "upload_id" = Some up_id') then ret m
  else
    let m' := set_extra m (<["upload_id" := up_id']> (extra m)) in
    write m' ;;; ret m'.

Definition commit_path (filename_ : string) : string :=
  "/commit_chunked_upload/" +:+ session_root +:+ "/" +:+ format_path filename_.

Definition end_upload_warning (filename_ committed : string) : string :=
  "Case conflict on Dropbox!! Onitu file " +:+ filename_
    +:+ " is now mapped to Dropbox file " +:+ committed +:+ ", please rename it!".

(** [end_upload(metadata)]; returns the metadata object as it leaves the
    handler. *)
Definition end_upload (m : Metadata) : exec world Metadata :=
  filename_ <~ get_dropbox_filename m ;;
  let path := commit_path filename_ in
  up_id <~ (match extra m !! "upload_id" with
            | Some u => ret u
            | None =>
                if size m =? 0
                then r <~ call (ReqUploadChunk [] 0 None) (api_upload_chunk [] 0 None) ;;
                     ret (VStr (snd r))
                else raise DriverError
            end) ;;
  let rev := match extra m !! "rev" with
             | Some r => if truthy r then Some r else None
             | None => None
             end in
  let params := mkCommitParams false up_id rev in
  resp <~ rest_guard (call (ReqCommit path params) (api_commit path params)) ;;
  m' <~ update_metadata_info (remove_upload_id m) resp true ;;
  (if bool_decide (db_path resp <> filename_)
   then modify (with_entry_db (fun db => <["conflict:" +:+ filename_ := db_path resp]> db)) ;;;
        logger Warning (end_upload_warning filename_ (db_path resp))
   else ret tt) ;;;
  ret m'.

(** [abort_upload(metadata)]. *)
Definition abort_upload (m : Metadata) : exec world Metadata :=
  let m' := remove_upload_id m in
  write m' ;;; ret m'.

Definition move_warning (new_filename old_filename : string) : string :=
  "Case conflict on Dropbox!! Onitu file " +:+ new_filename
    +:+ " is mapped to Dropbox file " +:+ old_filename +:+ ", please rename it!".

(** [err.status is n], for a status that equals [n]: an identity test.
    The status of a response is an int parsed from its status line, and
    CPython shares the int objects from -5 to 256 only: beyond them the
    parsed int and the literal are two objects. *)
Definition is_literal (n : Z) : bool := (-5 <=? n) && (n <=? 256).

(** The retry loop of [move_file], [for attempt in attempts], up to its
    [break]; a loop that runs out leaves [new_db_metadata] unbound. *)
Fixpoint move_attempts (attempts : list Z) (old_filename new_filename : string)
    : exec world db_metadata :=
  match attempts with
  | [] => raise UnboundLocalError
  | attempt :: attempts' =>
      try_except
        (call (ReqFileMove old_filename new_filename)
              (api_file_move old_filename new_filename))
        is_ErrorResponse
        (fun err =>
           match err with
           | ErrorResponse Reissue503 =>
               if is_literal 503
               then if negb (attempt =? 9)
                    then logger Info ("Retrying to move file " +:+ old_filename
                                        +:+ " to " +:+ new_filename) ;;;
                         move_attempts attempts' old_filename new_filename
                    else raise ServiceError
               else raise ServiceError
           | ErrorResponse Exists403 =>
               if is_literal 403
               then modify (with_entry_db
                              (fun db => <["conflict:" +:+ new_filename := old_filename]> db)) ;;;
                    logger Warning (move_warning new_filename old_filename) ;;;
                    raise ServiceError
               else raise ServiceError
           | _ => raise ServiceError
           end)
  end.

Definition range10 : list Z := [0; 1; 2; 3; 4; 5; 6; 7; 8; 9].

(** [move_file(old_metadata, new_metadata)]; returns the new metadata
    object as it leaves the handler. *)
Definition move_file (old_metadata new_metadata : Metadata) : exec world Metadata :=
  old_filename <~ get_dropbox_filename old_metadata ;;
  new_filename <~ get_dropbox_filename new_metadata ;;
  new_db_metadata <~ move_attempts range10 old_filename new_filename ;;
  remove_conflict old_filename ;;;
  update_metadata_info new_metadata new_db_metadata true.

(** [delete_file(metadata)]. *)
Definition delete_file (m : Metadata) : exec world unit :=
  filename_ <~ get_dropbox_filename m ;;
  try_except (call (ReqFileDelete filename_) (api_file_delete filename_))
             is_ErrorResponse (fun _ => raise ServiceError) ;;;
  remove_conflict filename_.

(** [CheckChanges.__init__]: the cursor saved by the last run. *)
Definition CheckChanges_init : exec world unit :=
  modify (fun w => with_cursor (entry_db w !! "dropbox_cursor") w).

Definition parse_time (s : string) : exec world (list Z) :=
  match strptime s with
  | Some t => ret t
  | None => raise ValueError
  end.

(** The body of the [for] loop of [check_dropbox], for one entry of a
    delta; [prefix] ends with a slash there. *)
Definition process_entry (prefix : string) (entry : string * option db_metadata)
    : exec world unit :=
  db_metadata_ <~ (match snd entry with
                   | None => call (ReqMetadata (fst entry)) (api_metadata (fst entry))
                   | Some d => ret d
                   end) ;;
  conflict <~ conflicting_filename (db_path db_metadata_) true ;;
  let filename_ := match conflict with
                   | Some f => if str_truthy f then f else db_path db_metadata_
                   | None => db_path db_metadata_
                   end in
  let rootless_filename := string_drop (String.length prefix) filename_ in
  if String.eqb rootless_filename "" || db_is_dir db_metadata_ then ret tt
  else
    m <~ plug_get_metadata rootless_filename ;;
    if db_is_deleted db_metadata_ then plug_delete_file m
    else
      onitu_ts <~ (match extra m !! "modified" with
                   | Some v =>
                       if truthy v
                       then match v with
                            | VStr ts => t <~ parse_time ts ;; ret (Some t)
                            | VNum _ => raise TypeError
                            end
                       else ret None
                   | None => ret None
                   end) ;;
      dropbox_ts <~ parse_time (db_modified db_metadata_) ;;
      if match onitu_ts with
         | None => true
         | Some t => tuple_gtb dropbox_ts t
         end
      then m' <~ update_metadata_info m db_metadata_ false ;;
           plug_update_file m'
      else ret tt.

(** The [while has_more] loop of [check_dropbox], run for at most [fuel]
    deltas; [None] when Dropbox still has more after that many. *)
Fixpoint poll (fuel : nat) (prefix : string) : exec world (option delta) :=
  match fuel with
  | O => ret None
  | S fuel' =>
      let prefix := if OsPath.endswith_sep prefix then string_init prefix else prefix in
      w <~ get ;;
      changes <~ call (ReqDelta (cursor w) prefix) (api_delta (cursor w) prefix) ;;
      let prefix := prefix +:+ "/" in
      for_each (entries changes) (process_entry prefix) ;;;
      if has_more changes then poll fuel' prefix else ret (Some changes)
  end.

(** [CheckChanges.check_dropbox]. *)
Definition check_dropbox (fuel : nat) : exec world (option unit) :=
  let prefix := root in
  let prefix := if negb (OsPath.startswith_sep prefix) then "/" +:+ prefix else prefix in
  r <~ poll fuel prefix ;;
  match r with
  | None => ret None
  | Some changes =>
      w <~ get ;;
      (if bool_decide (Some (delta_cursor changes) <> cursor w)
       then modify (with_entry_db
                      (fun db => <["dropbox_cursor" := delta_cursor changes]> db)) ;;;
            modify (with_cursor (Some (delta_cursor changes)))
       else ret tt) ;;;
      ret (Some tt)
  end.

End Driver.

End Dropbox.

(** ** onitu/api/router.py: the serving loop *)

Module RouterThread.

Section Run.

Variable W : Type.
Variable int : string -> option Z.
Variable read_chunk : string -> Z -> Z -> exec W bytes.

(** The [while True] loop of [Router.run], over the messages
    [recv_multipart] hands it, oldest first: the four frames of a
    request.  The loop has no handler: an exception ends it, and the
    thread with it.  (Binding the socket and publishing the port are left
    out.) *)
Definition run (msgs : list (string * string * string * string))
    : exec (Router.router W) unit :=
  for_each msgs
    (fun '(identity, filename_, offset, size_) =>
       Router._respond_to W int read_chunk identity filename_ offset size_).

End Run.

End RouterThread.

(** ** onitu/plug/metadata.py: reading and writing the database *)

Module MetadataDb.

(** The dict [Metadata.write] stores for a file: the [PROPERTIES]. *)
Record properties : Type := mkProperties {
  p_filename : string;
  p_size : Z;
  p_owners : list string;
  p_uptodate : list string
}.

(** Modelled from the spec: [plug.escalator], whose client is not among
    the sources, as far as [Metadata] uses it: [get(key, default)] and a
    write batch of [put]s.  The database holds the properties of a file
    under [file:{fid}] and the extras of an entry under
    [file:{fid}:entry:{name}]; the two kinds of value are kept in two
    maps, each addressed by the full key. *)
Record escalator : Type := mkEscalator {
  values_of : gmap string properties;
  extras_of : gmap string (gmap string value)
}.

Section Metadata.

Variable get_fid : list string -> option string.
(** [plug.name]. *)
Variable plug_name : string.

Definition file_key (fid_ : string) : string := "file:" +:+ fid_.
Definition entry_key (fid_ : string) : string :=
  "file:" +:+ fid_ +:+ ":entry:" +:+ plug_name.

(** [Metadata.get_by_id(plug, fid)]. *)
Definition get_by_id (fid_ : string) (db : escalator) : outcome (option Metadata) :=
  match values_of db !! file_key fid_ with
  | None => Return None
  | Some v =>
      match Metadata_init get_fid (p_filename v) (p_size v) fid_ (p_owners v) (p_uptodate v) with
      | Raise e => Raise e
      | Return m => Return (Some (set_extra m (default ∅ (extras_of db !! entry_key fid_))))
      end
  end.

(** [Metadata.get_by_filename(plug, filename)]. *)
Definition get_by_filename (filename_ : string) (db : escalator)
    : outcome (option Metadata) :=
  match call_get_fid get_fid [filename_] with
  | Raise e => Raise e
  | Return f => get_by_id f db
  end.

(** [Metadata.write()]; [None] is the [AttributeError] of an object
    whose [fid] was never set. *)
Definition write (m : Metadata) (db : escalator) : option escalator :=
  match fid m with
  | None => None
  | Some f =>
      Some (mkEscalator
              (<[file_key f := mkProperties (filename m) (size m) (owners m) (uptodate m)]>
                 (values_of db))
              (<[entry_key f := extra m]> (extras_of db)))
  end.

End Metadata.

End MetadataDb.

(** ** Vocabulary of the properties *)

(** The record [plug.get_metadata] answers for a file name. *)
Definition record_of (st : gmap string Metadata) (f : string) : Metadata :=
  match st !! f with
  | Some m => m
  | None => mkMetadata f 0 [] [] None ∅
  end.

(** Every record is stored under its own file name. *)
Definition store_wf (st : gmap string Metadata) : Prop :=
  forall k m, st !! k = Some m -> filename m = k.

Definition is_update (c : plug_call) : Prop :=
  match c with
  | PlugUpdateFile _ => True
  | PlugDeleteFile _ => False
  end.

(** A conflict entry without the [conflict:] of its key. *)
Definition strip_key (kv : string * string) : string * string :=
  (string_drop 9 kv.1, kv.2).

Section LocalVocabulary.

Variable plug_name : string.

(** The deletion the second loop reports for a file name, if any. *)
Definition deletion_of (st : gmap string Metadata) (f : string) : option plug_call :=
  if bool_decide (plug_name ∈ uptodate (record_of st f))
  then Some (PlugDeleteFile (record_of st f))
  else None.

(** A step of the first loop touches the record of its own file at most,
    and reports updates only. *)
Definition scan_step w w' (f : string) : Prop :=
  LocalStorage.fs w' = LocalStorage.fs w
  /\ (store_wf (LocalStorage.store w) -> store_wf (LocalStorage.store w'))
  /\ (forall g, g <> f -> LocalStorage.store w' !! g = LocalStorage.store w !! g)
  /\ exists us, LocalStorage.plug_calls w' = LocalStorage.plug_calls w ++ us
              /\ Forall is_update us.

End LocalVocabulary.

Section DropboxVocabulary.

Context {B : Type} `{Dropbox.Client B}.
Variables (root session_root : string) (format_path : string -> string).
Variable strptime : string -> option (list Z).

Implicit Types (db : gmap string string) (w : Dropbox.world (B:=B)).
Implicit Types (m : Metadata) (d : Dropbox.db_metadata).

Abbreviation commit_path := (Dropbox.commit_path session_root format_path).

(** The name [get_dropbox_filename] answers for a metadata object, read
    off the entry database. *)
Definition backend_name db (m : Metadata) : string :=
  let f := Dropbox.root_prefixed_filename root (filename m) in
  match db !! ("conflict:" +:+ f) with
  | Some d => if str_truthy d then d else f
  | None => f
  end.

(** The world after [get_dropbox_filename]: a found conflict is logged. *)
Definition resolved w (m : Metadata) : Dropbox.world (B:=B) :=
  let f := Dropbox.root_prefixed_filename root (filename m) in
  match Dropbox.entry_db w !! ("conflict:" +:+ f) with
  | Some d => Dropbox.with_log Dropbox.Warning (Dropbox.conflict_warning f d) w
  | None => w
  end.

(** The [parent_rev] the commit carries: the stored [rev], if it is truthy. *)
Definition parent_rev_of m : option value :=
  match extra m !! "rev" with
  | Some r => if truthy r then Some r else None
  | None => None
  end.

(** The metadata object [end_upload] leaves after a commit answered with
    [resp]. *)
Definition after_commit m (resp : Dropbox.db_metadata) : Metadata :=
  set_extra (set_size (Dropbox.remove_upload_id m) (Dropbox.db_bytes resp))
    (<["modified" := VStr (Dropbox.db_modified resp)]>
       (<["rev" := VStr (Dropbox.db_rev resp)]>
          (extra (Dropbox.remove_upload_id m)))).

(** The tail of [end_upload], once the upload id is known and the commit
    has been answered with [resp] in world [w]. *)
Definition committed (filename_ : string) m (resp : Dropbox.db_metadata)
    : exec (Dropbox.world (B:=B)) Metadata :=
  m' <~ Dropbox.update_metadata_info (Dropbox.remove_upload_id m) resp true ;;
  (if bool_decide (Dropbox.db_path resp <> filename_)
   then modify (Dropbox.with_entry_db
                  (fun db => <["conflict:" +:+ filename_ := Dropbox.db_path resp]> db)) ;;;
        Dropbox.logger Dropbox.Warning
          (Dropbox.end_upload_warning filename_ (Dropbox.db_path resp))
   else ret tt) ;;;
  ret m'.

(** The commit step of [end_upload] for the upload id [u]. *)
Definition commit_with (filename_ : string) m (u : value)
    : exec (Dropbox.world (B:=B)) Metadata :=
  let params := Dropbox.mkCommitParams false u (parent_rev_of m) in
  resp <~ Dropbox.rest_guard
            (Dropbox.call (Dropbox.ReqCommit (commit_path filename_) params)
                          (Dropbox.api_commit (commit_path filename_) params)) ;;
  committed filename_ m resp.

(** A request that names a file names [n]; [upload_chunk] names none. *)
Definition uses_name (n : string) (rq : Dropbox.request) : Prop :=
  match rq with
  | Dropbox.ReqGetFile url _ _ => url = "/files/dropbox/" +:+ n
  | Dropbox.ReqCommit url _ => url = commit_path n
  | Dropbox.ReqFileDelete p => p = n
  | Dropbox.ReqUploadChunk _ _ _ => True
  | _ => False
  end.

(** The Onitu name recorded for a Dropbox path: the reverse search of the
    conflict map. *)
Definition reverse_conflict (db : gmap string string) (path : string) : option string :=
  Dropbox.search_conflict true path (map strip_key (Dropbox.db_range "conflict:" db)).

(** The file name, below the root, under which an entry is looked up. *)
Definition rootless (prefix : string) (db : gmap string string) d : string :=
  string_drop (String.length prefix)
  (match reverse_conflict db (Dropbox.db_path d) with
   | Some f => if str_truthy f then f else Dropbox.db_path d
   | None => Dropbox.db_path d
   end).

(** The [modified] timestamp stored for a file name. *)
Definition stored_modified (st : gmap string Metadata) (name : string) : option value :=
  extra (record_of st name) !! "modified".

(** The stored timestamp is missing: absent or falsy (empty). *)
Definition no_timestamp (stored : option value) : Prop :=
  match stored with
  | Some v => truthy v = false
  | None => True
  end.

(** The timestamp of the entry is strictly newer than the stored one. *)
Definition strictly_newer d (stored : option value) : Prop :=
  exists (ts : string) (t_old t_new : list Z),
  stored = Some (VStr ts)
  /\ strptime ts = Some t_old
  /\ strptime (Dropbox.db_modified d) = Some t_new
  /\ Dropbox.tuple_gtb t_new t_old = true.

(** The world once the conflict map has been searched for an entry. *)
Definition searched w d : Dropbox.world (B:=B) :=
  match reverse_conflict (Dropbox.entry_db w) (Dropbox.db_path d) with
  | Some c => Dropbox.with_log Dropbox.Warning
              (Dropbox.conflict_warning (Dropbox.db_path d) c) w
  | None => w
  end.

(** The metadata reported for an entry, and the world after the report. *)
Definition refreshed (m : Metadata) d : Metadata :=
  set_extra (set_size m (Dropbox.db_bytes d))
  (<["modified" := VStr (Dropbox.db_modified d)]>
     (<["rev" := VStr (Dropbox.db_rev d)]> (extra m))).

Definition reported w (m : Metadata) : Dropbox.world (B:=B) :=
  Dropbox.with_call (PlugUpdateFile m)
  (Dropbox.with_store (fun st => <[filename m := m]> st) w).

End DropboxVocabulary.

(** ** Concrete instances, for the examples below *)

Module Examples.

(** A stand-in for Dropbox that accepts or refuses every call, and
    answers a commit, a move or a metadata request with [answer]. *)
Record fake_dropbox : Type := mkFake {
  accepts : bool;
  answer : Dropbox.db_metadata
}.

Definition reply {A} (a : A) (b : fake_dropbox) : fake_dropbox * outcome A :=
  (b, if accepts b then Return a else Raise (ErrorResponse OtherResponse)).

#[global] Instance fake_client : Dropbox.Client fake_dropbox := {|
  Dropbox.api_get_file := fun _ _ _ => reply [];
  Dropbox.api_upload_chunk := fun chunk offset _ =>
    reply (offset + Z.of_nat (length chunk), "upload-1");
  Dropbox.api_commit := fun _ _ b => reply (answer b) b;
  Dropbox.api_file_move := fun _ _ b => reply (answer b) b;
  Dropbox.api_file_delete := fun _ => reply tt;
  Dropbox.api_metadata := fun _ b => reply (answer b) b;
  Dropbox.api_delta := fun _ _ b => reply (Dropbox.mkDelta [] false "cursor-1") b
|}.

Definition stamp : string := "Sat, 21 Aug 2010 22:31:20 +0000".
Definition later_stamp : string := "Sun, 22 Aug 2010 08:00:00 +0000".

(** A parser for the two timestamps above, as [time.strptime] reads them. *)
Definition two_stamps (s : string) : option (list Z) :=
  if String.eqb s stamp then Some [2010; 8; 21; 22; 31; 20; 5; 233; -1]
  else if String.eqb s later_stamp then Some [2010; 8; 22; 8; 0; 0; 6; 234; -1]
  else None.

(** [int] on the decimal strings with one digit. *)
Definition one_digit (s : string) : option Z :=
  match s with
  | String c EmptyString =>
      let n := Z.of_nat (nat_of_ascii c) - 48 in
      if (0 <=? n) && (n <=? 9) then Some n else None
  | _ => None
  end.

(** [metadata.path] for a folder at [/r]. *)
Definition under_r (name : string) : string := "/r/" +:+ name.

Definition file_a (e : gmap string value) : Metadata :=
  mkMetadata "a" 0 ["rep1"; "rep2"] ["rep1"] None e.

Definition answer_a : Dropbox.db_metadata :=
  Dropbox.mkDbMetadata 0 "rev-2" later_stamp "/r/a" false false.

Definition dropbox_world (ok : bool) (db : gmap string string)
    : Dropbox.world (B:=fake_dropbox) :=
  Dropbox.mkWorld (mkFake ok answer_a) [] db ∅ [] [] None.

Definition local_world (files : gmap string LocalStorage.file)
    (status : option (gmap string string)) (st : gmap string Metadata)
    : LocalStorage.world :=
  LocalStorage.mkWorld files status true 100 st [].

End Examples.

(** ** Vocabulary of the further properties *)

(** A string without a path separator. *)
Fixpoint no_sep (s : string) : bool :=
  match s with
  | EmptyString => true
  | String c r => negb (OsPath.is_sep c) && no_sep r
  end.

(** The chunks of a transfer, each at the offset where the previous one
    ended. *)
Fixpoint chunks_from (o : Z) (cs : list bytes) : list (Z * bytes) :=
  match cs with
  | [] => []
  | c :: rest => (o, c) :: chunks_from (o + Z.of_nat (length c)) rest
  end.

(** The revision the startup scan reads for a file name: [0.] when the
    extras have none; [None] when it is not a number. *)
Definition stored_revision (st : gmap string Metadata) (f : string) : option Z :=
  match extra (record_of st f) !! "revision" with
  | None => Some 0
  | Some (VNum r) => Some r
  | Some (VStr _) => None
  end.

Definition is_deletion (c : plug_call) : Prop :=
  match c with
  | PlugUpdateFile _ => False
  | PlugDeleteFile _ => True
  end.

(** A string without a colon. *)
Fixpoint no_colon (s : string) : bool :=
  match s with
  | EmptyString => true
  | String c r => negb (Ascii.eqb c ":"%char) && no_colon r
  end.

(** The request a delta entry without metadata costs. *)
Definition metadata_request (entry : string * option Dropbox.db_metadata)
    : list Dropbox.request :=
  match snd entry with
  | None => [Dropbox.ReqMetadata (fst entry)]
  | Some _ => []
  end.

Definition is_delta (rq : Dropbox.request) : Prop :=
  match rq with
  | Dropbox.ReqDelta _ _ => True
  | _ => False
  end.

(** ** Further instances, for the examples *)

Module Scripted.

(** A stand-in for Dropbox that answers each kind of call as scripted;
    the deltas are handed out one per call. *)
Record dropbox : Type := mkDropbox {
  on_get : outcome bytes;
  on_upload : outcome (Z * string);
  on_commit : outcome Dropbox.db_metadata;
  on_move : outcome Dropbox.db_metadata;
  on_delete : outcome unit;
  on_metadata : outcome Dropbox.db_metadata;
  on_delta : list Dropbox.delta
}.

#[global] Instance client : Dropbox.Client dropbox := {|
  Dropbox.api_get_file := fun _ _ _ b => (b, on_get b);
  Dropbox.api_upload_chunk := fun _ _ _ b => (b, on_upload b);
  Dropbox.api_commit := fun _ _ b => (b, on_commit b);
  Dropbox.api_file_move := fun _ _ b => (b, on_move b);
  Dropbox.api_file_delete := fun _ b => (b, on_delete b);
  Dropbox.api_metadata := fun _ b => (b, on_metadata b);
  Dropbox.api_delta := fun _ _ b =>
    match on_delta b with
    | [] => (b, Raise RESTSocketError)
    | d :: rest =>
        (mkDropbox (on_get b) (on_upload b) (on_commit b) (on_move b) (on_delete b)
                   (on_metadata b) rest, Return d)
    end
|}.

(** A Dropbox whose every call fails with [e]. *)
Definition failing (e : exn) : dropbox :=
  mkDropbox (Raise e) (Raise e) (Raise e) (Raise e) (Raise e) (Raise e) [].

(** A Dropbox that accepts every call, answering [d] where metadata is
    due. *)
Definition accepting (d : Dropbox.db_metadata) (deltas : list Dropbox.delta) : dropbox :=
  mkDropbox (Return []) (Return (0, "upload-1")) (Return d) (Return d) (Return tt)
            (Return d) deltas.

(** A Dropbox that is busy: it answers every call with 503, "please
    re-issue request". *)
Inductive busy : Type := Busy.

#[global] Instance busy_client : Dropbox.Client busy := {|
  Dropbox.api_get_file := fun _ _ _ b => (b, Raise (ErrorResponse Reissue503));
  Dropbox.api_upload_chunk := fun _ _ _ b => (b, Raise (ErrorResponse Reissue503));
  Dropbox.api_commit := fun _ _ b => (b, Raise (ErrorResponse Reissue503));
  Dropbox.api_file_move := fun _ _ b => (b, Raise (ErrorResponse Reissue503));
  Dropbox.api_file_delete := fun _ b => (b, Raise (ErrorResponse Reissue503));
  Dropbox.api_metadata := fun _ b => (b, Raise (ErrorResponse Reissue503));
  Dropbox.api_delta := fun _ _ b => (b, Raise (ErrorResponse Reissue503))
|}.

Definition world (b : dropbox) (db : gmap string string) (st : gmap string Metadata)
    : Dropbox.world (B:=dropbox) :=
  Dropbox.mkWorld b [] db st [] [] (db !! "dropbox_cursor").

End Scripted.

(** * Properties *)

(** ** File identifiers *)

(** C1. Whatever [get_fid] computes, the fid of a freshly instantiated
    [Metadata] cannot both agree with the REST layer's fid on every
    (folder, filename) and change with the folder: [Metadata.__init__] calls
    [get_fid(filename)] and never sees the folder.  Either the two layers
    disagree for some pair, or the REST fid is the same for two different
    folders. *)
Theorem fid_layers_disagree_or_folder_ignored (get_fid : list string -> option string) :
  (exists folder name,
      name <> "" /\ metadata_fid get_fid name <> rest_fid get_fid folder name)
  \/ (exists folder folder' name,
      folder <> folder' /\ rest_fid get_fid folder name = rest_fid get_fid folder' name).
Proof.
  destruct (decide (metadata_fid get_fid "f" = rest_fid get_fid "a" "f")) as [Ha|Ha];
    [|left; exists "a", "f"; split; [discriminate|exact Ha]].
  destruct (decide (metadata_fid get_fid "f" = rest_fid get_fid "b" "f")) as [Hb|Hb];
    [|left; exists "b", "f"; split; [discriminate|exact Hb]].
  right. exists "a", "b", "f". split; [discriminate|congruence].
Qed.

(** ** Chunk reads (local storage and the chunk router) *)

Lemma file_read_length (read_limit : Z) (c : bytes) (o n : Z) :
  0 <= o <= Z.of_nat (length c) -> 0 <= n <= read_limit -> read_limit < 2 ^ 63 - 33 ->
  exists chunk : bytes,
    LocalStorage.file_read read_limit c o n = Return chunk
    /\ chunk = take (Z.to_nat n) (drop (Z.to_nat o) c)
    /\ Z.of_nat (length chunk) = Z.min n (Z.of_nat (length c) - o).
Proof.
  intros Ho Hn Hlim. unfold LocalStorage.file_read.
  destruct (Z.ltb_spec n (-1)) as [Hlt|_]; [lia|].
  destruct (Z.eqb_spec n (-1)) as [Heq|_]; [lia|].
  destruct (Z.leb_spec (2 ^ 63 - 33) n) as [Hbig|_]; [lia|].
  destruct (Z.ltb_spec read_limit n) as [Hmem|_]; [lia|].
  eexists. split; [reflexivity|]. split; [reflexivity|].
  rewrite length_take, length_drop. lia.
Qed.

(** The sizes the handler does not check: the size -1 reads to the end of
    the file, whatever its length; a smaller size and a size that fits no
    bytes object raise errors that [get_chunk] does not catch. *)
Lemma file_read_unchecked_sizes (read_limit : Z) (c : bytes) (o n : Z) :
  (n = -1 -> Z.of_nat (length c) <= read_limit ->
     LocalStorage.file_read read_limit c o n = Return (drop (Z.to_nat o) c))
  /\ (n < -1 -> LocalStorage.file_read read_limit c o n = Raise ValueError)
  /\ (2 ^ 63 - 33 <= n -> LocalStorage.file_read read_limit c o n = Raise OverflowError).
Proof.
  unfold LocalStorage.file_read. repeat split.
  - intros -> Hlen. cbn.
    destruct (Z.ltb_spec read_limit (Z.of_nat (length (drop (Z.to_nat o) c)))) as [Hmem|_];
      [|reflexivity].
    rewrite length_drop in Hmem. lia.
  - intros Hn. destruct (Z.ltb_spec n (-1)); [reflexivity|lia].
  - intros Hn. destruct (Z.ltb_spec n (-1)); [lia|].
    destruct (Z.eqb_spec n (-1)); [lia|].
    destruct (Z.leb_spec (2 ^ 63 - 33) n); [reflexivity|lia].
Qed.

(** C2 (as amended). For a file of [file_size] bytes and a request
    [(offset, size)] with [0 <= offset <= file_size] and a size that is a
    byte count a read can allocate ([0 <= size <= read_limit], below the
    [2^63 - 33] bytes a bytes object can hold), the local [get_chunk]
    handler returns the [min(size, file_size - offset)] bytes found at
    [offset], and the router, serving the request through that handler,
    sends one message to the requesting peer whose single payload frame is
    exactly those bytes. *)
Theorem get_chunk_min_length_single_frame
    (path_of : string -> string) (read_limit : Z) (int : string -> option Z)
    (meta_of : string -> Metadata)
    (w : LocalStorage.world) (f : LocalStorage.file) (sent0 : list (string * bytes))
    (identity name offset size_ : string) (o n : Z) :
  LocalStorage.fs w !! LocalStorage.path path_of (meta_of name) = Some f ->
  int offset = Some o ->
  int size_ = Some n ->
  0 <= o <= Z.of_nat (length (LocalStorage.content f)) ->
  0 <= n <= read_limit ->
  read_limit < 2 ^ 63 - 33 ->
  exists chunk : bytes,
    LocalStorage.get_chunk path_of read_limit (meta_of name) o n w = (w, Return chunk)
    /\ chunk = take (Z.to_nat n) (drop (Z.to_nat o) (LocalStorage.content f))
    /\ Z.of_nat (length chunk) = Z.min n (Z.of_nat (length (LocalStorage.content f)) - o)
    /\ Router._respond_to _ int
         (fun fn a b => LocalStorage.get_chunk path_of read_limit (meta_of fn) a b)
         identity name offset size_ (Router.mkRouter w sent0)
       = (Router.mkRouter w (sent0 ++ [(identity, chunk)]), Return tt)
    /\ Router.delivered (identity, chunk) = [chunk].
Proof.
  intros Hf Ho Hn Hrange Hsize Hlim.
  destruct (file_read_length read_limit (LocalStorage.content f) o n Hrange Hsize Hlim)
    as (chunk & Hread & Hchunk & Hlen).
  assert (Hget : LocalStorage.get_chunk path_of read_limit (meta_of name) o n w
                 = (w, Return chunk)).
  { unfold LocalStorage.get_chunk, os_guard, try_except. rewrite Hf.
    destruct (Z.ltb_spec o 0); [lia|]. rewrite Hread. reflexivity. }
  exists chunk. split; [exact Hget|]. split; [exact Hchunk|].
  split; [exact Hlen|]. split; [|reflexivity].
  unfold Router._respond_to, Router.py_int, Router.call_read_chunk,
    Router.send_multipart, bind, ret, modify.
  rewrite Ho, Hn. cbn. rewrite Hget. reflexivity.
Qed.

Lemma get_chunk_min_length_single_frame_witness :
  let f := LocalStorage.mkFile [Byte.x01; Byte.x02; Byte.x03; Byte.x04; Byte.x05] 7 in
  let w := Examples.local_world {["/r/a" := f]} None ∅ in
  let meta_of := fun fn : string => mkMetadata fn 0 [] [] None ∅ in
  exists chunk : bytes,
    LocalStorage.get_chunk Examples.under_r 1024 (meta_of "a") 3 4 w = (w, Return chunk)
    /\ chunk = [Byte.x04; Byte.x05]
    /\ Router._respond_to _ Examples.one_digit
         (fun fn a b => LocalStorage.get_chunk Examples.under_r 1024 (meta_of fn) a b)
         "peer" "a" "3" "4" (Router.mkRouter w [])
       = (Router.mkRouter w [("peer", chunk)], Return tt).
Proof.
  intros f w meta_of.
  destruct (get_chunk_min_length_single_frame Examples.under_r 1024 Examples.one_digit
              meta_of w f [] "peer" "a" "3" "4" 3 4)
    as (chunk & Hget & Hchunk & _ & Hsent & _);
    [reflexivity|reflexivity|reflexivity|cbn; lia|lia|reflexivity|].
  exists chunk. split; [exact Hget|]. split; [exact Hchunk|exact Hsent].
Defined.

(** The claim without a bound on the size does not hold: the router hands
    [int(size)] to the handler unchecked, and for the size -1 [get_chunk]
    returns the [file_size - offset] bytes up to the end of the file, five
    bytes here, where [min(size, file_size - offset)] is -1. *)
Lemma get_chunk_size_is_not_checked :
  ~ (forall (path_of : string -> string) (read_limit : Z) (m : Metadata)
            (w : LocalStorage.world) (f : LocalStorage.file) (o n : Z),
        LocalStorage.fs w !! LocalStorage.path path_of m = Some f ->
        0 <= o <= Z.of_nat (length (LocalStorage.content f)) ->
        exists chunk : bytes,
          LocalStorage.get_chunk path_of read_limit m o n w = (w, Return chunk)
          /\ Z.of_nat (length chunk)
             = Z.min n (Z.of_nat (length (LocalStorage.content f)) - o)).
Proof.
  intros H.
  pose (f := LocalStorage.mkFile [Byte.x01; Byte.x02; Byte.x03; Byte.x04; Byte.x05] 7).
  destruct (H Examples.under_r 1024 (mkMetadata "a" 0 [] [] None ∅)
              (Examples.local_world {["/r/a" := f]} None ∅) f 0 (-1))
    as (chunk & Hget & Hlen); [reflexivity|cbn; lia|].
  vm_compute in Hget. injection Hget as <-. vm_compute in Hlen. discriminate Hlen.
Qed.

(** ** Strings *)

Lemma append_cons (a : ascii) (p r : string) : String a p +:+ r = String a (p +:+ r).
Proof. reflexivity. Qed.

Lemma append_nil (r : string) : "" +:+ r = r.
Proof. reflexivity. Qed.

Lemma prefix_split (p k : string) :
  String.prefix p k = true -> k = p +:+ string_drop (String.length p) k.
Proof.
  revert k. induction p as [|a p IH]; intros k Hk; [reflexivity|].
  destruct k as [|b k]; [discriminate|]. cbn in Hk.
  destruct (ascii_dec a b) as [->|]; [|discriminate].
  rewrite append_cons. cbn. f_equal. apply IH, Hk.
Qed.

Lemma prefix_append (p r : string) : String.prefix p (p +:+ r) = true.
Proof.
  induction p as [|a p IH]; [destruct r; reflexivity|].
  rewrite append_cons. cbn. destruct (ascii_dec a a); [exact IH|congruence].
Qed.

Lemma string_drop_append (p r : string) : string_drop (String.length p) (p +:+ r) = r.
Proof.
  induction p as [|a p IH]; [reflexivity|]. rewrite append_cons. cbn. exact IH.
Qed.

(** ** The local-storage handlers *)

(** Case analysis on the next test a computation unfolded in [H] makes. *)
Ltac destruct_test H :=
  match type of H with
  | context [match ?x with _ => _ end] =>
      lazymatch x with
      | context [match _ with _ => _ end] => fail
      | _ => destruct x eqn:?
      end
  | context [if ?x then _ else _] =>
      lazymatch x with
      | context [match _ with _ => _ end] => fail
      | context [if _ then _ else _] => fail
      | _ => destruct x eqn:?
      end
  end.

Ltac unfold_local H :=
  unfold LocalStorage.end_upload, LocalStorage.delete_file, LocalStorage.move_file,
    LocalStorage.set_status, LocalStorage.write, LocalStorage.os_unlink,
    LocalStorage.os_rename, LocalStorage.os_getmtime, os_guard, try_except,
    bind, ret, raise, modify, get in H.

Section LocalHandlers.

Variable path_of : string -> string.

Implicit Types (w : LocalStorage.world) (m : Metadata).

Abbreviation lpath := (LocalStorage.path path_of).

Lemma set_status_spec (p : string) (s : option string) w :
  LocalStorage.set_status p s w
  = if LocalStorage.status_writable w
    then (LocalStorage.with_status
            (match s with
             | None => delete p (LocalStorage.status_data w)
             | Some v => <[p := v]> (LocalStorage.status_data w)
             end) w, Return tt)
    else (w, Raise ServiceError).
Proof. reflexivity. Qed.

(** The local [end_upload], when it returns, has moved the temporary file
    to the target path; it records the mtime of that file under [revision]
    and leaves every other key of the extras alone. *)
Lemma local_end_upload_extras (win : bool) m w w' m' :
  LocalStorage.end_upload path_of win m w = (w', Return m') ->
  exists f : LocalStorage.file,
    LocalStorage.fs w !! LocalStorage.to_tmp (lpath m) = Some f
    /\ LocalStorage.fs w' !! lpath m = Some f
    /\ m' = set_extra m (<["revision" := VNum (LocalStorage.mtime f)]> (extra m))
    /\ LocalStorage.store w' = <[filename m := m']> (LocalStorage.store w)
    /\ LocalStorage.status_data w' = <[lpath m := "synced"]> (LocalStorage.status_data w).
Proof.
  intros Hrun. unfold_local Hrun.
  repeat (destruct_test Hrun; cbn in Hrun; try discriminate).
  all: injection Hrun as <- <-; cbn.
  all: repeat match goal with
         | E : <[?k := _]> _ !! ?k = Some _ |- _ =>
             rewrite lookup_insert_eq in E; injection E as <-
         | E : delete _ _ !! _ = Some _ |- _ =>
             apply lookup_delete_Some in E as [_ E]
         end.
  all: eexists; split; [first [eassumption|reflexivity]|];
    split; [apply lookup_insert_eq|]; repeat split.
Qed.

Lemma local_delete_file_spec m w w1 :
  LocalStorage.delete_file path_of m w = (w1, Return tt) ->
  is_Some (LocalStorage.fs w !! lpath m)
  /\ LocalStorage.fs w1 = delete (lpath m) (LocalStorage.fs w)
  /\ LocalStorage.status_file w1 = Some (delete (lpath m) (LocalStorage.status_data w))
  /\ LocalStorage.store w1 = LocalStorage.store w.
Proof.
  intros Hrun. unfold_local Hrun.
  repeat (destruct_test Hrun; cbn in Hrun; try discriminate).
  injection Hrun as <-. cbn. repeat split. eauto.
Qed.

Lemma local_delete_file_missing m w :
  LocalStorage.fs w !! lpath m = None ->
  LocalStorage.delete_file path_of m w = (w, Raise ServiceError).
Proof.
  intros Hnone. unfold LocalStorage.delete_file, LocalStorage.os_unlink, os_guard,
    try_except, bind. rewrite Hnone. reflexivity.
Qed.

Lemma local_move_file_spec old new w w' :
  LocalStorage.move_file path_of old new w = (w', Return tt) ->
  exists f,
    LocalStorage.fs w !! lpath old = Some f
    /\ LocalStorage.fs w' = <[lpath new := f]> (delete (lpath old) (LocalStorage.fs w))
    /\ LocalStorage.status_data w' = <[lpath old := "synced"]> (LocalStorage.status_data w).
Proof.
  intros Hrun. unfold_local Hrun.
  repeat (destruct_test Hrun; cbn in Hrun; try discriminate).
  injection Hrun as <-. eexists. split; [reflexivity|]. split; [reflexivity|].
  cbn. apply insert_delete_eq.
Qed.


(** *** The startup scan *)

Variable plug_name : string.

Lemma plug_get_metadata_spec (f : string) w :
  LocalStorage.plug_get_metadata f w = (w, Return (record_of (LocalStorage.store w) f)).
Proof.
  unfold LocalStorage.plug_get_metadata, record_of.
  destruct (LocalStorage.store w !! f); reflexivity.
Qed.

Lemma record_of_filename (st : gmap string Metadata) (f : string) :
  store_wf st -> filename (record_of st f) = f.
Proof.
  intros Hwf. unfold record_of. destruct (st !! f) as [m|] eqn:E; [|reflexivity].
  exact (Hwf _ _ E).
Qed.

Lemma store_wf_insert (st : gmap string Metadata) m :
  store_wf st -> store_wf (<[filename m := m]> st).
Proof.
  intros Hwf k m0 Hk. destruct (decide (filename m = k)) as [<-|Hne].
  - rewrite lookup_insert_eq in Hk. congruence.
  - rewrite lookup_insert_ne in Hk by exact Hne. exact (Hwf _ _ Hk).
Qed.

Lemma scan_step_refl w (f : string) : scan_step w w f.
Proof.
  repeat split; auto. exists []. rewrite app_nil_r. split; [reflexivity|constructor].
Qed.

Lemma local_set_status_step (p : string) (st : option string) (f : string) w w' :
  LocalStorage.set_status p st w = (w', Return tt) -> scan_step w w' f.
Proof.
  rewrite set_status_spec. destruct (LocalStorage.status_writable w); [|discriminate].
  intros H. injection H as <-. repeat split; auto.
  exists []. cbn. rewrite app_nil_r. split; [reflexivity|constructor].
Qed.

Lemma update_step m (mt : option Z) w w' :
  LocalStorage.update path_of m mt w = (w', Return tt) -> scan_step w w' (filename m).
Proof.
  intros Hrun. unfold LocalStorage.update in Hrun. unfold bind at 1 in Hrun.
  unfold get in Hrun. case_bool_decide; [injection Hrun as <-; apply scan_step_refl|].
  unfold bind at 1 in Hrun.
  destruct (os_guard _ w) as [w1 [e|m']] eqn:Hguard; [discriminate|].
  assert (w1 = w /\ filename m' = filename m) as [-> Hfn].
  { unfold os_guard, try_except, bind, ret, raise, LocalStorage.os_getsize,
      LocalStorage.os_getmtime in Hguard.
    repeat (destruct_test Hguard; cbn in Hguard; try discriminate);
      injection Hguard as <- <-; split; reflexivity. }
  unfold LocalStorage.plug_update_file, LocalStorage.write, bind, modify in Hrun.
  cbn in Hrun. rewrite set_status_spec in Hrun. cbn in Hrun.
  destruct (LocalStorage.status_writable w); [|discriminate].
  injection Hrun as <-. cbn. rewrite <- Hfn. repeat split.
  - apply store_wf_insert.
  - intros g Hg. apply lookup_insert_ne. intros E. exact (Hg (eq_sym E)).
  - exists [PlugUpdateFile m']. split; [reflexivity|repeat constructor].
Qed.

Lemma scan_files_spec (root : string) (paths : list string) (expected expected' : gset string)
    w w' :
  store_wf (LocalStorage.store w) ->
  LocalStorage.scan_files path_of root paths expected w = (w', Return expected') ->
  store_wf (LocalStorage.store w')
  /\ LocalStorage.fs w' = LocalStorage.fs w
  /\ (forall f, f ∉ LocalStorage.relpath root <$> paths ->
        LocalStorage.store w' !! f = LocalStorage.store w !! f
        /\ (f ∈ expected -> f ∈ expected'))
  /\ exists us, LocalStorage.plug_calls w' = LocalStorage.plug_calls w ++ us
                /\ Forall is_update us.
Proof.
  revert expected w. induction paths as [|p paths IH]; intros expected w Hwf Hrun.
  - injection Hrun as <- <-. repeat split; auto.
    exists []. rewrite app_nil_r. split; [reflexivity|constructor].
  - cbn [LocalStorage.scan_files] in Hrun.
    assert (Hskip : forall f, f ∉ LocalStorage.relpath root <$> p :: paths ->
              f <> LocalStorage.relpath root p /\ f ∉ LocalStorage.relpath root <$> paths).
    { intros f Hf. rewrite fmap_cons, not_elem_of_cons in Hf. exact Hf. }
    destruct (String.eqb _ LocalStorage.TMP_EXT).
    { destruct (IH _ _ Hwf Hrun) as (Hwf' & Hfs & Hkeep & Hcalls).
      repeat split; auto; apply Hkeep, Hskip; assumption. }
    unfold bind at 1 in Hrun. rewrite plug_get_metadata_spec in Hrun.
    set (f0 := LocalStorage.relpath root p) in *.
    set (m := record_of (LocalStorage.store w) f0) in *.
    unfold bind at 1 in Hrun.
    destruct (match extra m !! "revision" with
              | Some (VStr _) => raise TypeError
              | Some (VNum r) => ret r
              | None => ret 0
              end w) as [w0 [e|revision]] eqn:Hrev; [discriminate|].
    assert (w0 = w) as ->.
    { unfold raise, ret in Hrev.
      destruct (extra m !! "revision") as [[?|?]|]; congruence. }
    unfold bind at 1 in Hrun.
    destruct (os_guard (LocalStorage.os_getmtime p) w) as [w0 [e|mt]] eqn:Hmt; [discriminate|].
    assert (w0 = w) as ->.
    { unfold os_guard, try_except, LocalStorage.os_getmtime, raise in Hmt.
      destruct (LocalStorage.fs w !! p); cbn in Hmt; congruence. }
    unfold bind at 1 in Hrun.
    destruct ((if mt >? revision
               then LocalStorage.update path_of m (Some mt)
               else LocalStorage.set_status (LocalStorage.path path_of m) (Some "synced")) w)
      as [w1 [e|[]]] eqn:Hstep; [discriminate|].
    assert (Hone : scan_step w w1 f0).
    { replace f0 with (filename m) by (apply record_of_filename, Hwf).
      destruct (mt >? revision);
        [exact (update_step _ _ _ _ Hstep)|exact (local_set_status_step _ _ _ _ _ Hstep)]. }
    destruct Hone as (Hfs1 & Hwf1 & Hother & us1 & Hcalls1 & Hus1).
    destruct (IH _ _ (Hwf1 Hwf) Hrun) as (Hwf' & Hfs & Hkeep & us & Hcalls & Hus).
    split; [exact Hwf'|]. split; [congruence|]. split.
    + intros f Hf. destruct (Hskip f Hf) as [Hne Hrest].
      destruct (Hkeep f Hrest) as [Hst Hin]. split.
      * rewrite Hst. apply Hother, Hne.
      * intros Hexp. apply Hin. apply elem_of_difference. split; [exact Hexp|].
        rewrite elem_of_singleton. exact Hne.
    + exists (us1 ++ us). rewrite Hcalls, Hcalls1, app_assoc.
      split; [reflexivity|apply Forall_app; auto].
Qed.

(** The second loop reports, in order, the deletions of the names it is
    given, and changes nothing else. *)
Lemma report_missing_loop (l : list string) w :
  for_each l (LocalStorage.report_missing plug_name) w
  = (LocalStorage.mkWorld (LocalStorage.fs w) (LocalStorage.status_file w)
       (LocalStorage.status_writable w) (LocalStorage.now w) (LocalStorage.store w)
       (LocalStorage.plug_calls w ++ omap (deletion_of plug_name (LocalStorage.store w)) l),
     Return tt).
Proof.
  revert w. induction l as [|f l IH]; intros w.
  - cbn. rewrite app_nil_r. destruct w; reflexivity.
  - cbn [for_each omap list_omap]. unfold bind at 1.
    unfold LocalStorage.report_missing at 1.
    unfold bind at 1. rewrite plug_get_metadata_spec. unfold deletion_of at 1.
    case_bool_decide; cbn; rewrite IH; cbn; [rewrite <- app_assoc|]; reflexivity.
Qed.

Lemma walked_paths_are_below (root : string) w (p : string) :
  p ∈ LocalStorage.walkfiles root w ->
  p = LocalStorage.below root +:+ LocalStorage.relpath root p
  /\ is_Some (LocalStorage.fs w !! p).
Proof.
  unfold LocalStorage.walkfiles. rewrite list_elem_of_filter, Is_true_true.
  intros [Hprefix Hin]. split; [exact (prefix_split _ _ Hprefix)|].
  apply list_elem_of_In, in_map_iff in Hin as ([k v] & <- & Hkv).
  apply list_elem_of_In, elem_of_map_to_list in Hkv. cbn. eauto.
Qed.

(** C9. In the startup scan of the local driver, for a file [f] that the
    metadata store records (as [m]) and that is not on disk below the
    folder, [plug.delete_file] is invoked for [f] if and only if the driver's
    own name is in the record's [uptodate] list, and it is invoked with that
    record; the record itself is left as it was. *)
Theorem check_changes_reports_uptodate_missing (root : string) w w' (f : string) m :
  store_wf (LocalStorage.store w) ->
  LocalStorage.check_changes path_of plug_name root w = (w', Return tt) ->
  LocalStorage.store w !! f = Some m ->
  LocalStorage.fs w !! (LocalStorage.below root +:+ f) = None ->
  exists new,
    LocalStorage.plug_calls w' = LocalStorage.plug_calls w ++ new
    /\ ((exists m', PlugDeleteFile m' ∈ new /\ filename m' = f) <-> plug_name ∈ uptodate m)
    /\ (forall m', PlugDeleteFile m' ∈ new -> filename m' = f -> m' = m)
    /\ LocalStorage.store w' !! f = Some m.
Proof.
  intros Hwf Hrun Hrec Habsent.
  unfold LocalStorage.check_changes in Hrun. unfold bind at 1 in Hrun. unfold get in Hrun.
  unfold bind at 1 in Hrun.
  destruct (LocalStorage.scan_files _ _ _ _ w) as [w1 [e|expected]] eqn:Hscan;
    [discriminate|].
  rewrite report_missing_loop in Hrun. injection Hrun as <-. cbn.
  destruct (scan_files_spec _ _ _ _ _ _ Hwf Hscan) as (Hwf1 & _ & Hkeep & us & Hcalls & Hus).
  assert (Hunseen : f ∉ LocalStorage.relpath root <$> LocalStorage.walkfiles root w).
  { intros Hin. apply list_elem_of_fmap in Hin as (p & -> & Hp).
    destruct (walked_paths_are_below _ _ _ Hp) as [Heq [x Hx]].
    rewrite <- Heq in Habsent. congruence. }
  destruct (Hkeep f Hunseen) as [Hsame Hexp].
  assert (Hf : f ∈ elements expected).
  { apply elem_of_elements, Hexp. unfold LocalStorage.plug_list.
    apply elem_of_dom. eauto. }
  assert (Hm : record_of (LocalStorage.store w1) f = m).
  { unfold record_of. rewrite Hsame, Hrec. reflexivity. }
  assert (Hdel : forall m', PlugDeleteFile m' ∈ us ++ omap (deletion_of plug_name (LocalStorage.store w1))
                                             (elements expected) ->
            exists g, g ∈ elements expected
                      /\ m' = record_of (LocalStorage.store w1) g
                      /\ plug_name ∈ uptodate m').
  { intros m' Hin. apply elem_of_app in Hin as [Hin|Hin].
    - rewrite Forall_forall in Hus. destruct (Hus _ Hin).
    - apply list_elem_of_omap in Hin as (g & Hg & Hsome). unfold deletion_of in Hsome.
      case_bool_decide; [|discriminate]. injection Hsome as <-. eauto. }
  exists (us ++ omap (deletion_of plug_name (LocalStorage.store w1)) (elements expected)).
  split; [rewrite Hcalls, app_assoc; reflexivity|].
  assert (Hunique : forall m', PlugDeleteFile m' ∈ us ++ omap (deletion_of plug_name (LocalStorage.store w1))
                                             (elements expected) ->
            filename m' = f -> m' = m).
  { intros m' Hin Hfn. destruct (Hdel m' Hin) as (g & _ & -> & _).
    rewrite record_of_filename in Hfn by exact Hwf1. subst g. exact Hm. }
  split; [split|split; [exact Hunique|congruence]].
  - intros (m' & Hin & Hfn). rewrite <- (Hunique m' Hin Hfn).
    destruct (Hdel m' Hin) as (_ & _ & _ & Hup). exact Hup.
  - intros Hup. exists m. split; [|exact (Hwf _ _ Hrec)].
    apply elem_of_app. right. apply list_elem_of_omap. exists f. split; [exact Hf|].
    unfold deletion_of. rewrite Hm. rewrite bool_decide_eq_true_2 by exact Hup. reflexivity.
Qed.

End LocalHandlers.


(** The handler never touches the status of the new path: when the status
    map already has an entry for it (a file moved over a synced one), the
    entry is still there after the move. *)
Lemma move_file_keeps_entry_of_new_path :
  ~ (forall (old new : Metadata) (w w' : LocalStorage.world),
       LocalStorage.move_file Examples.under_r old new w = (w', Return tt) ->
       LocalStorage.status_data w' !! Examples.under_r (filename old) = Some "synced"
       /\ LocalStorage.status_data w' !! Examples.under_r (filename new) = None).
Proof.
  intros Hclaim.
  pose (old := Examples.file_a ∅).
  pose (new := mkMetadata "b" 0 [] [] None ∅).
  pose (w := Examples.local_world
               {["/r/a" := LocalStorage.mkFile [] 7; "/r/b" := LocalStorage.mkFile [] 3]}
               (Some {["/r/b" := "synced"]}) ∅).
  destruct (LocalStorage.move_file Examples.under_r old new w) as [w' [e|[]]] eqn:Hrun.
  - vm_compute in Hrun. discriminate Hrun.
  - destruct (Hclaim old new w w' Hrun) as [_ Hnew].
    vm_compute in Hrun. injection Hrun as <-. vm_compute in Hnew. discriminate Hnew.
Qed.

(** ** The conflict map of the Dropbox driver *)

Lemma after_colon_conflict (k : string) :
  String.prefix "conflict:" k = true ->
  Dropbox.after_colon k = Some (string_drop 9 k).
Proof.
  intros Hk. rewrite (prefix_split _ _ Hk) at 1. reflexivity.
Qed.

Lemma search_conflict_cons (value_ : bool) (f o d : string) (l : list (string * string)) :
  Dropbox.search_conflict value_ f ((o, d) :: l)
  = if String.eqb (if value_ then d else o) f then Some (if value_ then o else d)
    else Dropbox.search_conflict value_ f l.
Proof. reflexivity. Qed.

Section ConflictMap.

Context {B : Type} `{Dropbox.Client B}.
Variable root : string.

Implicit Types (db : gmap string string) (w : Dropbox.world (B:=B)).

Lemma elem_of_db_range (p : string) db (k v : string) :
  (k, v) ∈ Dropbox.db_range p db <-> db !! k = Some v /\ String.prefix p k = true.
Proof.
  unfold Dropbox.db_range. rewrite merge_sort_Permutation, list_elem_of_filter.
  rewrite elem_of_map_to_list. cbn. rewrite Is_true_true. tauto.
Qed.

(** The keys of a range all carry the prefix, so the split of the list
    comprehension never fails. *)
Lemma strip_keys_range (l : list (string * string)) :
  Forall (fun kv => String.prefix "conflict:" kv.1 = true) l ->
  Dropbox.strip_keys l = Return (map strip_key l).
Proof.
  induction 1 as [|[k v] l Hk _ IH]; [reflexivity|].
  cbn [Dropbox.strip_keys map]. cbn [fst] in Hk.
  rewrite (after_colon_conflict _ Hk), IH. reflexivity.
Qed.

Lemma db_range_prefixed (p : string) db :
  Forall (fun kv => String.prefix p kv.1 = true) (Dropbox.db_range p db).
Proof.
  apply Forall_forall. intros [k v] Hin. apply elem_of_db_range in Hin. tauto.
Qed.

Lemma search_conflict_found (f d : string) (l : list (string * string)) :
  Forall (fun kv => String.prefix "conflict:" kv.1 = true) l ->
  Dropbox.search_conflict false f (map strip_key l) = Some d ->
  ("conflict:" +:+ f, d) ∈ l.
Proof.
  induction 1 as [|[k v] l Hk _ IH]; [discriminate|].
  cbn [map]. unfold strip_key at 1. cbn [fst snd] in *.
  rewrite search_conflict_cons.
  destruct (String.eqb_spec (string_drop 9 k) f) as [<-|Hne].
  - intros Hd. injection Hd as <-.
    pose proof (prefix_split "conflict:" k Hk) as E.
    change (String.length "conflict:") with 9%nat in E. rewrite <- E. left.
  - intros Hs. right. apply IH, Hs.
Qed.

Lemma search_conflict_missing (f : string) (l : list (string * string)) :
  Dropbox.search_conflict false f (map strip_key l) = None ->
  forall d, ("conflict:" +:+ f, d) ∉ l.
Proof.
  induction l as [|[k v] l IH]; intros Hs d Hin; [inversion Hin|].
  cbn [map] in Hs. unfold strip_key at 1 in Hs. cbn [fst snd] in Hs.
  rewrite search_conflict_cons in Hs.
  destruct (String.eqb_spec (string_drop 9 k) f) as [|Hne]; [discriminate|].
  apply elem_of_cons in Hin as [Heq|Hin]; [|exact (IH Hs d Hin)].
  injection Heq as <- <-.
  apply Hne. apply (string_drop_append "conflict:" f).
Qed.

(** The forward search of the conflict map is a lookup of the key
    [conflict:{filename}]. *)
Lemma search_conflict_lookup (f : string) db :
  Dropbox.search_conflict false f
    (map strip_key (Dropbox.db_range "conflict:" db))
  = db !! ("conflict:" +:+ f).
Proof.
  destruct (Dropbox.search_conflict _ _ _) as [d|] eqn:Hs.
  - apply search_conflict_found in Hs; [|apply db_range_prefixed].
    apply elem_of_db_range in Hs as [Hs _]. symmetry. exact Hs.
  - destruct (db !! ("conflict:" +:+ f)) as [d|] eqn:Hd; [|reflexivity].
    exfalso. apply (search_conflict_missing _ _ Hs d).
    apply elem_of_db_range. split; [exact Hd|]. apply prefix_append.
Qed.

Lemma conflicting_filename_forward (f : string) w :
  Dropbox.conflicting_filename f false w
  = match Dropbox.entry_db w !! ("conflict:" +:+ f) with
    | Some d => (Dropbox.with_log Dropbox.Warning (Dropbox.conflict_warning f d) w,
                 Return (Some d))
    | None => (w, Return None)
    end.
Proof.
  unfold Dropbox.conflicting_filename, bind, get. cbn.
  rewrite strip_keys_range by apply db_range_prefixed.
  rewrite search_conflict_lookup.
  destruct (Dropbox.entry_db w !! _); reflexivity.
Qed.

Lemma get_dropbox_filename_spec (m : Metadata) w :
  Dropbox.get_dropbox_filename root m w
  = (resolved root w m, Return (backend_name root (Dropbox.entry_db w) m)).
Proof.
  unfold Dropbox.get_dropbox_filename, bind, resolved, backend_name.
  rewrite conflicting_filename_forward.
  destruct (Dropbox.entry_db w !! _) as [d|]; [|reflexivity].
  destruct (str_truthy d); reflexivity.
Qed.

Lemma resolved_fields w (m : Metadata) :
  Dropbox.client (resolved root w m) = Dropbox.client w
  /\ Dropbox.requests (resolved root w m) = Dropbox.requests w
  /\ Dropbox.entry_db (resolved root w m) = Dropbox.entry_db w
  /\ Dropbox.store (resolved root w m) = Dropbox.store w
  /\ Dropbox.plug_calls (resolved root w m) = Dropbox.plug_calls w
  /\ Dropbox.cursor (resolved root w m) = Dropbox.cursor w.
Proof. unfold resolved. destruct (Dropbox.entry_db w !! _); cbn; repeat split. Qed.

End ConflictMap.

(** ** The Dropbox handlers *)

Section DropboxHandlers.

Context {B : Type} `{Dropbox.Client B}.
Variables (root session_root : string) (format_path : string -> string).

Implicit Types (w : Dropbox.world (B:=B)) (m : Metadata).

Abbreviation end_upload := (Dropbox.end_upload root session_root format_path).
Abbreviation commit_path := (Dropbox.commit_path session_root format_path).

Lemma end_upload_unfold m w :
  end_upload m w
  = (let filename_ := backend_name root (Dropbox.entry_db w) m in
     match extra m !! "upload_id" with
     | Some u => commit_with session_root format_path filename_ m u (resolved root w m)
     | None =>
         if size m =? 0
         then (r <~ Dropbox.call (Dropbox.ReqUploadChunk [] 0 None)
                      (Dropbox.api_upload_chunk [] 0 None) ;;
               commit_with session_root format_path filename_ m (VStr (snd r))) (resolved root w m)
         else (resolved root w m, Raise DriverError)
     end).
Proof.
  unfold Dropbox.end_upload. unfold bind at 1.
  rewrite get_dropbox_filename_spec. cbv zeta.
  destruct (extra m !! "upload_id") as [u|]; [reflexivity|].
  destruct (size m =? 0); [|reflexivity].
  unfold bind, ret.
  destruct (Dropbox.call _ _ _) as [w1 [e|r]]; reflexivity.
Qed.

(** What [committed] leaves behind. *)
Lemma committed_spec (filename_ : string) m (resp : Dropbox.db_metadata) w :
  let m' := set_extra (set_size (Dropbox.remove_upload_id m) (Dropbox.db_bytes resp))
              (<["modified" := VStr (Dropbox.db_modified resp)]>
                 (<["rev" := VStr (Dropbox.db_rev resp)]>
                    (extra (Dropbox.remove_upload_id m)))) in
  exists w',
    committed filename_ m resp w = (w', Return m')
    /\ Dropbox.client w' = Dropbox.client w
    /\ Dropbox.requests w' = Dropbox.requests w
    /\ Dropbox.store w' = <[filename m := m']> (Dropbox.store w)
    /\ (Dropbox.db_path resp <> filename_ ->
        Dropbox.entry_db w'
          = <["conflict:" +:+ filename_ := Dropbox.db_path resp]> (Dropbox.entry_db w)
        /\ Dropbox.log w'
          = Dropbox.log w ++ [(Dropbox.Warning,
               Dropbox.end_upload_warning filename_ (Dropbox.db_path resp))])
    /\ (Dropbox.db_path resp = filename_ ->
        Dropbox.entry_db w' = Dropbox.entry_db w /\ Dropbox.log w' = Dropbox.log w).
Proof.
  intros m'. unfold committed, Dropbox.update_metadata_info, Dropbox.write,
    Dropbox.logger, bind, modify, ret. cbn.
  assert (Hfn : filename (Dropbox.remove_upload_id m) = filename m).
  { unfold Dropbox.remove_upload_id. destruct (extra m !! "upload_id"); reflexivity. }
  case_bool_decide as Hp; cbn; eexists; (split; [reflexivity|]); cbn;
    rewrite ?Hfn; repeat split; intros; solve [reflexivity | contradiction | congruence].
Qed.

Lemma remove_upload_id_lookup m : extra (Dropbox.remove_upload_id m) !! "upload_id" = None.
Proof.
  unfold Dropbox.remove_upload_id. destruct (extra m !! "upload_id") eqn:E; cbn.
  - apply lookup_delete_eq.
  - exact E.
Qed.

(** The commit step sends one request, whatever Dropbox answers. *)
Lemma commit_with_spec (filename_ : string) m (u : value) w :
  let params := Dropbox.mkCommitParams false u (parent_rev_of m) in
  let rq := Dropbox.ReqCommit (commit_path filename_) params in
  exists w' out,
    commit_with session_root format_path filename_ m u w = (w', out)
    /\ Dropbox.requests w' = Dropbox.requests w ++ [rq]
    /\ Dropbox.client w' = (Dropbox.api_commit (commit_path filename_) params (Dropbox.client w)).1
    /\ match (Dropbox.api_commit (commit_path filename_) params (Dropbox.client w)).2 with
       | Raise e => out = Raise (if Dropbox.is_rest_error e then ServiceError else e)
                    /\ Dropbox.entry_db w' = Dropbox.entry_db w
                    /\ Dropbox.store w' = Dropbox.store w
                    /\ Dropbox.log w' = Dropbox.log w
       | Return resp =>
           exists w1, Dropbox.requests w1 = Dropbox.requests w ++ [rq]
                      /\ Dropbox.entry_db w1 = Dropbox.entry_db w
                      /\ Dropbox.store w1 = Dropbox.store w
                      /\ Dropbox.log w1 = Dropbox.log w
                      /\ committed filename_ m resp w1 = (w', out)
       end.
Proof.
  intros params rq. unfold commit_with. fold params. fold rq.
  unfold bind at 1. unfold Dropbox.rest_guard, try_except, Dropbox.call.
  destruct (Dropbox.api_commit (commit_path filename_) params (Dropbox.client w))
    as [b' [e|resp]] eqn:Hapi; cbn [fst snd].
  - destruct (Dropbox.is_rest_error e); eexists _, _; (split; [reflexivity|]);
      cbn; repeat split; reflexivity.
  - set (w1 := Dropbox.mkWorld b' (Dropbox.requests w ++ [rq]) (Dropbox.entry_db w)
                   (Dropbox.store w) (Dropbox.log w) (Dropbox.plug_calls w)
                   (Dropbox.cursor w)).
    destruct (committed_spec filename_ m resp w1) as (w' & Hc & Hcl & Hrq & _).
    eexists _, _. split; [exact Hc|]. split; [exact Hrq|]. split; [exact Hcl|].
    exists w1. repeat split. exact Hc.
Qed.

Lemma commit_with_success (filename_ : string) m (u : value) w w' m' :
  commit_with session_root format_path filename_ m u w = (w', Return m') ->
  exists resp,
    Dropbox.api_commit (commit_path filename_)
      (Dropbox.mkCommitParams false u (parent_rev_of m)) (Dropbox.client w)
    = (Dropbox.client w', Return resp)
    /\ m' = after_commit m resp
    /\ Dropbox.store w' = <[filename m := m']> (Dropbox.store w)
    /\ (Dropbox.db_path resp <> filename_ ->
        Dropbox.entry_db w'
          = <["conflict:" +:+ filename_ := Dropbox.db_path resp]> (Dropbox.entry_db w)
        /\ Dropbox.log w'
          = Dropbox.log w ++ [(Dropbox.Warning,
               Dropbox.end_upload_warning filename_ (Dropbox.db_path resp))])
    /\ (Dropbox.db_path resp = filename_ ->
        Dropbox.entry_db w' = Dropbox.entry_db w /\ Dropbox.log w' = Dropbox.log w).
Proof.
  intros Hrun.
  destruct (commit_with_spec filename_ m u w) as (w1 & out1 & Hc & _ & Hcl & Hout).
  rewrite Hrun in Hc. injection Hc as <- <-.
  destruct (Dropbox.api_commit _ _ (Dropbox.client w)) as [b' [e|resp]] eqn:Hapi;
    cbn [fst snd] in *; [destruct Hout as [Hout _]; discriminate Hout|].
  destruct Hout as (w1 & _ & Hdb & Hst & Hlog & Hcom).
  destruct (committed_spec filename_ m resp w1) as (w2 & Hc2 & Hcl2 & _ & Hst2 & Hne & Heq).
  rewrite Hcom in Hc2. injection Hc2 as <- ->.
  exists resp. rewrite Hcl. split; [reflexivity|]. split; [reflexivity|].
  rewrite <- Hdb, <- Hst, <- Hlog. auto.
Qed.

(** A successful [end_upload], read back: a commit was accepted with some
    answer [resp], which fixes the metadata, the store and the conflict
    map it leaves. *)
Lemma end_upload_success m w w' m' :
  end_upload m w = (w', Return m') ->
  let filename_ := backend_name root (Dropbox.entry_db w) m in
  exists (u : value) (b : B) (resp : Dropbox.db_metadata),
    Dropbox.api_commit (commit_path filename_)
      (Dropbox.mkCommitParams false u (parent_rev_of m)) b
    = (Dropbox.client w', Return resp)
    /\ m' = after_commit m resp
    /\ Dropbox.store w' = <[filename m := m']> (Dropbox.store w)
    /\ (Dropbox.db_path resp <> filename_ ->
        Dropbox.entry_db w'
          = <["conflict:" +:+ filename_ := Dropbox.db_path resp]> (Dropbox.entry_db w)
        /\ Dropbox.log w'
          = Dropbox.log (resolved root w m) ++ [(Dropbox.Warning,
               Dropbox.end_upload_warning filename_ (Dropbox.db_path resp))])
    /\ (Dropbox.db_path resp = filename_ -> Dropbox.entry_db w' = Dropbox.entry_db w).
Proof.
  intros Hrun filename_. rewrite end_upload_unfold in Hrun. cbv zeta in Hrun.
  fold filename_ in Hrun.
  destruct (resolved_fields root w m) as (Rcl & Rrq & Rdb & Rst & _).
  assert (Hfrom : forall u w1, Dropbox.entry_db w1 = Dropbox.entry_db w ->
            Dropbox.store w1 = Dropbox.store w ->
            Dropbox.log w1 = Dropbox.log (resolved root w m) ->
            commit_with session_root format_path filename_ m u w1 = (w', Return m') ->
            exists (u : value) (b : B) (resp : Dropbox.db_metadata),
              Dropbox.api_commit (commit_path filename_)
                (Dropbox.mkCommitParams false u (parent_rev_of m)) b
              = (Dropbox.client w', Return resp)
              /\ m' = after_commit m resp
              /\ Dropbox.store w' = <[filename m := m']> (Dropbox.store w)
              /\ (Dropbox.db_path resp <> filename_ ->
                  Dropbox.entry_db w'
                  = <["conflict:" +:+ filename_ := Dropbox.db_path resp]> (Dropbox.entry_db w)
                  /\ Dropbox.log w'
                  = Dropbox.log (resolved root w m) ++ [(Dropbox.Warning,
                       Dropbox.end_upload_warning filename_ (Dropbox.db_path resp))])
              /\ (Dropbox.db_path resp = filename_ ->
                  Dropbox.entry_db w' = Dropbox.entry_db w)).
  { intros u w1 Hdb Hst Hlog Hc.
    destruct (commit_with_success _ _ _ _ _ _ Hc) as (resp & Hapi & Hm & Hs & Hne & Heq).
    exists u, (Dropbox.client w1), resp. rewrite <- Hdb, <- Hst, <- Hlog.
    repeat split; try assumption; [apply Hne|apply Hne|apply Heq]; assumption. }
  destruct (extra m !! "upload_id") as [u|].
  - apply (Hfrom u (resolved root w m)); auto.
  - destruct (size m =? 0); [|discriminate Hrun].
    unfold bind at 1 in Hrun. unfold Dropbox.call in Hrun.
    destruct (Dropbox.api_upload_chunk [] 0 None (Dropbox.client (resolved root w m)))
      as [b1 [e|r]]; [discriminate Hrun|].
    eapply Hfrom; [| | |exact Hrun]; cbn; auto.
Qed.

(** C4 (as amended). With an upload in progress, [end_upload] sends one
    commit request and nothing else, whatever Dropbox answers; the request
    carries [parent_rev = extra.rev] when the stored [rev] is present and
    truthy (non-empty) and no [parent_rev] otherwise; and when Dropbox
    rejects the commit, [end_upload] raises [ServiceError] having spoken to
    Dropbox that once. *)
Theorem end_upload_commits_once m w (u : value) w' out :
  extra m !! "upload_id" = Some u ->
  end_upload m w = (w', out) ->
  let path := commit_path (backend_name root (Dropbox.entry_db w) m) in
  let params :=
    Dropbox.mkCommitParams false u
      (match extra m !! "rev" with
       | Some r => if truthy r then Some r else None
       | None => None
       end) in
  Dropbox.requests w' = Dropbox.requests w ++ [Dropbox.ReqCommit path params]
  /\ (forall b' e,
        Dropbox.api_commit path params (Dropbox.client w) = (b', Raise e) ->
        Dropbox.is_rest_error e = true ->
        out = Raise ServiceError /\ Dropbox.client w' = b').
Proof.
  intros Hu Hrun path params.
  rewrite end_upload_unfold, Hu in Hrun. cbv zeta in Hrun.
  destruct (commit_with_spec (backend_name root (Dropbox.entry_db w) m) m u
              (resolved root w m)) as (w1 & out1 & Hc & Hrq & Hcl & Hout).
  rewrite Hc in Hrun. injection Hrun as <- <-.
  destruct (resolved_fields root w m) as (Rcl & Rrq & _).
  rewrite Rrq in Hrq. rewrite Rcl in Hcl, Hout.
  split; [exact Hrq|].
  intros b' e Hapi He. unfold path, params in Hapi. fold (parent_rev_of m) in Hapi.
  rewrite Hapi in Hcl, Hout. cbn in Hcl, Hout.
  rewrite He in Hout. destruct Hout as (-> & _). split; [reflexivity|exact Hcl].
Qed.

(** C3 (as amended). When the Dropbox [end_upload] returns, the extras hold
    no [upload_id] and their [rev] is the revision Dropbox answered to the
    commit of this upload: the commit sent for the resolved name, with the
    upload id of the record (or, for an empty file without one, the id
    Dropbox gave to an empty chunk) and the record's [rev] as parent; the
    metadata written to the store is the one returned.  When the
    local-storage [end_upload] returns, the uploaded temporary file is at
    the target path, the extras hold its mtime under [revision], and [rev]
    and [upload_id] are as they were before the call: the local driver
    keeps no [rev]. *)
Theorem end_upload_extras_after_success :
  (forall m w w' m',
      end_upload m w = (w', Return m') ->
      extra m' !! "upload_id" = None
      /\ Dropbox.store w' !! filename m = Some m'
      /\ exists (resp : Dropbox.db_metadata) (u : value) (b : B),
           ((extra m !! "upload_id" = Some u /\ b = Dropbox.client w)
            \/ (extra m !! "upload_id" = None /\ size m = 0
                /\ exists (n : Z) (id : string),
                     Dropbox.api_upload_chunk [] 0 None (Dropbox.client w)
                     = (b, Return (n, id))
                     /\ u = VStr id))
           /\ Dropbox.api_commit (commit_path (backend_name root (Dropbox.entry_db w) m))
                (Dropbox.mkCommitParams false u (parent_rev_of m)) b
              = (Dropbox.client w', Return resp)
           /\ extra m' !! "rev" = Some (VStr (Dropbox.db_rev resp)))
  /\ (forall (path_of : string -> string) (win : bool) m
             (w w' : LocalStorage.world) m',
      LocalStorage.end_upload path_of win m w = (w', Return m') ->
      extra m' !! "rev" = extra m !! "rev"
      /\ extra m' !! "upload_id" = extra m !! "upload_id"
      /\ LocalStorage.store w' !! filename m = Some m'
      /\ exists f : LocalStorage.file,
           LocalStorage.fs w !! LocalStorage.to_tmp (LocalStorage.path path_of m) = Some f
           /\ LocalStorage.fs w' !! LocalStorage.path path_of m = Some f
           /\ extra m' !! "revision" = Some (VNum (LocalStorage.mtime f))).
Proof.
  split.
  - intros m w w' m' Hrun.
    destruct (end_upload_success _ _ _ _ Hrun) as (_ & _ & resp0 & _ & -> & Hst & _).
    split; [|split].
    + unfold after_commit. cbn.
      rewrite !lookup_insert_ne by discriminate. apply remove_upload_id_lookup.
    + rewrite Hst. apply lookup_insert_eq.
    + rewrite end_upload_unfold in Hrun. cbv zeta in Hrun.
      destruct (resolved_fields root w m) as (Rcl & _).
      assert (Hrev : forall resp, after_commit m resp0 = after_commit m resp ->
                extra (after_commit m resp0) !! "rev" = Some (VStr (Dropbox.db_rev resp))).
      { intros resp ->. unfold after_commit. cbn.
        rewrite lookup_insert_ne by discriminate. apply lookup_insert_eq. }
      destruct (extra m !! "upload_id") as [u|] eqn:Hu.
      * destruct (commit_with_success _ _ _ _ _ _ Hrun) as (resp & Hapi & Hm & _).
        rewrite Rcl in Hapi. exists resp, u, (Dropbox.client w).
        split; [left; split; reflexivity|]. split; [exact Hapi|exact (Hrev _ Hm)].
      * destruct (Z.eqb_spec (size m) 0) as [Hsize|_]; [|discriminate Hrun].
        unfold bind at 1 in Hrun. unfold Dropbox.call in Hrun. rewrite Rcl in Hrun.
        destruct (Dropbox.api_upload_chunk [] 0 None (Dropbox.client w))
          as [b1 [e|[n id]]] eqn:Hchunk; [discriminate Hrun|].
        destruct (commit_with_success _ _ _ _ _ _ Hrun) as (resp & Hapi & Hm & _).
        cbn in Hapi. exists resp, (VStr id), b1.
        split; [right; split; [reflexivity|]; split; [exact Hsize|]; eauto|].
        split; [exact Hapi|exact (Hrev _ Hm)].
  - intros path_of win m w w' m' Hrun.
    destruct (local_end_upload_extras _ _ _ _ _ _ Hrun) as (f & Hf & Hnew & -> & Hst & _).
    cbn. rewrite !lookup_insert_ne by discriminate.
    split; [reflexivity|]. split; [reflexivity|]. split.
    + rewrite Hst. apply lookup_insert_eq.
    + exists f. split; [exact Hf|]. split; [exact Hnew|]. apply lookup_insert_eq.
Qed.

(** C8. With no [upload_id] in the extras: for an empty file, [end_upload]
    uploads one zero-length chunk and commits with the upload id Dropbox
    gave for it, returning normally once Dropbox has accepted both (two
    requests in all); for a file of any other size it raises
    [DriverError] without calling Dropbox. *)
Theorem end_upload_without_upload_id m w :
  extra m !! "upload_id" = None ->
  let filename_ := backend_name root (Dropbox.entry_db w) m in
  (size m = 0 ->
   forall (b1 b2 : B) (offset : Z) (uid : string) (resp : Dropbox.db_metadata),
     Dropbox.api_upload_chunk [] 0 None (Dropbox.client w) = (b1, Return (offset, uid)) ->
     Dropbox.api_commit (commit_path filename_)
       (Dropbox.mkCommitParams false (VStr uid) (parent_rev_of m)) b1
     = (b2, Return resp) ->
     exists w',
       end_upload m w = (w', Return (after_commit m resp))
       /\ Dropbox.requests w'
          = Dropbox.requests w
            ++ [Dropbox.ReqUploadChunk [] 0 None;
                Dropbox.ReqCommit (commit_path filename_)
                  (Dropbox.mkCommitParams false (VStr uid) (parent_rev_of m))]
       /\ Dropbox.client w' = b2)
  /\ (size m <> 0 ->
      exists w',
        end_upload m w = (w', Raise DriverError)
        /\ Dropbox.requests w' = Dropbox.requests w
        /\ Dropbox.client w' = Dropbox.client w).
Proof.
  intros Hu filename_.
  destruct (resolved_fields root w m) as (Rcl & Rrq & _).
  split.
  - intros Hsize b1 b2 offset uid resp Hchunk Hcommit.
    rewrite end_upload_unfold, Hu. cbv zeta. fold filename_.
    rewrite Hsize. cbn [Z.eqb].
    unfold bind at 1. unfold Dropbox.call. rewrite Rcl, Hchunk. cbn [snd].
    set (w1 := Dropbox.mkWorld b1 _ _ _ _ _ _).
    destruct (commit_with_spec filename_ m (VStr uid) w1)
      as (w' & out & Hc & Hrq & Hcl & Hout).
    change (Dropbox.client w1) with b1 in Hcl, Hout.
    rewrite Hcommit in Hcl, Hout. cbn [fst snd] in Hcl, Hout.
    destruct Hout as (w2 & _ & _ & _ & _ & Hcom).
    destruct (committed_spec filename_ m resp w2) as (w3 & Hc3 & _).
    rewrite Hcom in Hc3. injection Hc3 as <- ->.
    exists w'. split; [exact Hc|]. split; [|exact Hcl].
    rewrite Hrq. subst w1. cbn. rewrite Rrq, <- app_assoc. reflexivity.
  - intros Hsize. rewrite end_upload_unfold, Hu. cbv zeta.
    destruct (Z.eqb_spec (size m) 0) as [E|_]; [contradiction|].
    exists (resolved root w m). auto.
Qed.

Lemma get_chunk_requests m (o n : Z) w w' out :
  Dropbox.get_chunk root m o n w = (w', out) ->
  Dropbox.requests w'
  = Dropbox.requests w
    ++ [Dropbox.ReqGetFile ("/files/dropbox/" +:+ backend_name root (Dropbox.entry_db w) m)
          o (o + (n - 1))].
Proof.
  intros Hrun. destruct (resolved_fields root w m) as (_ & Rrq & _).
  unfold Dropbox.get_chunk in Hrun. unfold bind at 1 in Hrun.
  rewrite get_dropbox_filename_spec in Hrun.
  unfold Dropbox.rest_guard, try_except, Dropbox.call, raise in Hrun.
  repeat (destruct_test Hrun; cbn in Hrun);
    injection Hrun as <- <-; cbn; rewrite Rrq; reflexivity.
Qed.

Lemma upload_chunk_requests m (o : Z) (chunk : bytes) w w' out :
  Dropbox.upload_chunk root m o chunk w = (w', out) ->
  Dropbox.requests w'
  = Dropbox.requests w ++ [Dropbox.ReqUploadChunk chunk o (extra m !! "upload_id")].
Proof.
  intros Hrun. destruct (resolved_fields root w m) as (_ & Rrq & _).
  unfold Dropbox.upload_chunk in Hrun. unfold bind at 1 in Hrun.
  rewrite get_dropbox_filename_spec in Hrun.
  unfold Dropbox.rest_guard, try_except, Dropbox.call, Dropbox.write, bind, ret,
    raise, modify in Hrun.
  repeat (destruct_test Hrun; cbn in Hrun);
    injection Hrun as <- <-; cbn; rewrite Rrq; reflexivity.
Qed.

Lemma remove_conflict_fields (n : string) w :
  exists w', Dropbox.remove_conflict n w = (w', Return tt)
             /\ Dropbox.requests w' = Dropbox.requests w
             /\ Dropbox.client w' = Dropbox.client w
             /\ Dropbox.store w' = Dropbox.store w
             /\ Dropbox.log w' = Dropbox.log w.
Proof.
  unfold Dropbox.remove_conflict, bind, get, modify, ret.
  destruct (Dropbox.entry_db w !! _) as [c|]; [destruct (str_truthy c)|];
    eexists; repeat split.
Qed.

(** What [delete_file] does, by Dropbox's answer to the deletion. *)
Lemma delete_file_spec m w :
  let n := backend_name root (Dropbox.entry_db w) m in
  exists w' out,
    Dropbox.delete_file root m w = (w', out)
    /\ Dropbox.requests w' = Dropbox.requests w ++ [Dropbox.ReqFileDelete n]
    /\ Dropbox.client w' = (Dropbox.api_file_delete n (Dropbox.client w)).1
    /\ Dropbox.store w' = Dropbox.store w
    /\ match (Dropbox.api_file_delete n (Dropbox.client w)).2 with
       | Raise e => out = Raise (if Dropbox.is_ErrorResponse e then ServiceError else e)
                    /\ Dropbox.entry_db w' = Dropbox.entry_db w
       | Return _ => out = Return tt
       end.
Proof.
  intros n. destruct (resolved_fields root w m) as (Rcl & Rrq & Rdb & Rst & _).
  unfold Dropbox.delete_file. unfold bind at 1. rewrite get_dropbox_filename_spec.
  fold n. unfold bind, try_except, Dropbox.call. rewrite Rcl.
  destruct (Dropbox.api_file_delete n (Dropbox.client w)) as [b' [e|[]]]; cbn [fst snd].
  - destruct (Dropbox.is_ErrorResponse e); eexists _, _; (split; [reflexivity|]);
      cbn; rewrite ?Rrq, ?Rdb, ?Rst; repeat split.
  - match goal with |- context [Dropbox.remove_conflict n ?w1] =>
      destruct (remove_conflict_fields n w1) as (w2 & -> & Hrq & Hcl & Hst & _) end.
    eexists _, _. split; [reflexivity|]. rewrite Hrq, Hcl, Hst. cbn.
    rewrite Rrq, Rst. repeat split.
Qed.

Lemma move_attempts_requests (attempts : list Z) (o n : string) w w' out :
  Dropbox.move_attempts attempts o n w = (w', out) ->
  exists k : nat,
    (k <= length attempts)%nat
    /\ (attempts <> [] -> (1 <= k)%nat)
    /\ Dropbox.requests w' = Dropbox.requests w ++ replicate k (Dropbox.ReqFileMove o n).
Proof.
  revert w. induction attempts as [|attempt attempts IH]; intros w Hrun.
  - injection Hrun as <- _. exists 0%nat. cbn. rewrite app_nil_r.
    split; [lia|]. split; [congruence|reflexivity].
  - cbn [Dropbox.move_attempts] in Hrun.
    unfold try_except, Dropbox.call in Hrun.
    destruct (Dropbox.api_file_move o n (Dropbox.client w)) as [b' [e|r]].
    + destruct e as [| |[| |]| | | | | | | |]; cbn in Hrun;
        injection Hrun as <- _; exists 1%nat; cbn; repeat split; lia.
    + injection Hrun as <- _. exists 1%nat. cbn. repeat split; lia.
Qed.

Lemma move_file_requests old new w w' out :
  Dropbox.move_file root old new w = (w', out) ->
  exists k : nat,
    (1 <= k <= 10)%nat
    /\ Dropbox.requests w'
       = Dropbox.requests w
         ++ replicate k (Dropbox.ReqFileMove (backend_name root (Dropbox.entry_db w) old)
                                             (backend_name root (Dropbox.entry_db w) new)).
Proof.
  intros Hrun. unfold Dropbox.move_file in Hrun.
  unfold bind at 1 in Hrun. rewrite get_dropbox_filename_spec in Hrun.
  unfold bind at 1 in Hrun. rewrite get_dropbox_filename_spec in Hrun.
  destruct (resolved_fields root w old) as (_ & Rrq & Rdb & _).
  destruct (resolved_fields root (resolved root w old) new) as (_ & Rrq' & _).
  rewrite Rdb in Hrun. unfold bind at 1 in Hrun.
  destruct (Dropbox.move_attempts _ _ _ _) as [w1 out1] eqn:Hmove.
  apply move_attempts_requests in Hmove as (k & Hk & Hk1 & Hrq).
  rewrite Rrq', Rrq in Hrq.
  exists k. split; [cbn in Hk; split; [apply Hk1; discriminate|exact Hk]|].
  destruct out1 as [e|md]; [injection Hrun as <- _; exact Hrq|].
  unfold bind at 1 in Hrun.
  destruct (remove_conflict_fields (backend_name root (Dropbox.entry_db w) old) w1)
    as (w2 & Hrc & Hrq2 & _).
  rewrite Hrc in Hrun.
  unfold Dropbox.update_metadata_info, Dropbox.write, bind, modify, ret in Hrun.
  cbn in Hrun. injection Hrun as <- _. cbn. rewrite Hrq2. exact Hrq.
Qed.

Lemma end_upload_requests m w w' out :
  end_upload m w = (w', out) ->
  let n := backend_name root (Dropbox.entry_db w) m in
  exists new,
    Dropbox.requests w' = Dropbox.requests w ++ new
    /\ Forall (uses_name session_root format_path n) new
    /\ (forall m', out = Return m' ->
          exists params, last new = Some (Dropbox.ReqCommit (commit_path n) params)).
Proof.
  intros Hrun n. rewrite end_upload_unfold in Hrun. cbv zeta in Hrun. fold n in Hrun.
  destruct (resolved_fields root w m) as (_ & Rrq & _).
  assert (Hfrom : forall u w1 pre,
            Dropbox.requests w1 = Dropbox.requests w ++ pre ->
            Forall (uses_name session_root format_path n) pre ->
            commit_with session_root format_path n m u w1 = (w', out) ->
            exists new,
              Dropbox.requests w' = Dropbox.requests w ++ new
              /\ Forall (uses_name session_root format_path n) new
              /\ (forall m', out = Return m' ->
                    exists params, last new = Some (Dropbox.ReqCommit (commit_path n) params))).
  { intros u w1 pre Hpre Hall Hc.
    destruct (commit_with_spec n m u w1) as (w2 & out2 & Hc2 & Hrq & _).
    rewrite Hc in Hc2. injection Hc2 as <- <-.
    eexists (pre ++ [_]). rewrite app_assoc, <- Hpre. split; [exact Hrq|].
    split; [apply Forall_app; split; [exact Hall|repeat constructor]|].
    intros _ _. eexists. apply last_snoc. }
  destruct (extra m !! "upload_id") as [u|].
  - apply (Hfrom u (resolved root w m) []); [rewrite app_nil_r; exact Rrq|constructor|exact Hrun].
  - destruct (size m =? 0).
    + unfold bind at 1 in Hrun. unfold Dropbox.call in Hrun.
      destruct (Dropbox.api_upload_chunk [] 0 None _) as [b1 [e|r]].
      * injection Hrun as <- <-. exists [Dropbox.ReqUploadChunk [] 0 None]. cbn.
        rewrite Rrq. split; [reflexivity|]. split; [repeat constructor|discriminate].
      * eapply (Hfrom _ _ [Dropbox.ReqUploadChunk [] 0 None]); [|repeat constructor|exact Hrun].
        cbn. rewrite Rrq. reflexivity.
    + injection Hrun as <- <-. exists []. rewrite app_nil_r.
      split; [exact Rrq|]. split; [constructor|discriminate].
Qed.

Lemma str_truthy_true (d : string) : d <> "" -> str_truthy d = true.
Proof.
  intros Hd. unfold str_truthy. destruct (String.eqb_spec d ""); [contradiction|reflexivity].
Qed.

(** C5 (as amended). Every handler that names a file to Dropbox first
    resolves the Onitu name through the conflict map, and each request it
    then sends names the resolved name [n]: the backend name of the
    conflict entry when there is one with a non-empty backend name, the
    root-prefixed Onitu name otherwise (an entry with an empty backend name
    is ignored).  [get_chunk] and [delete_file] send exactly one such
    request, [move_file] between one and ten for the resolved old and new
    names, [end_upload] at most a chunk upload and a commit; the request of
    [upload_chunk] carries no file name.  And when [end_upload] succeeds
    with a committed path other than [n], the entry [conflict:n] is set to
    the committed path and a warning naming both is logged. *)
Theorem remote_operations_use_resolved_name m w :
  let onitu_name := Dropbox.root_prefixed_filename root (filename m) in
  let key := "conflict:" +:+ onitu_name in
  let n := backend_name root (Dropbox.entry_db w) m in
  (forall d, Dropbox.entry_db w !! key = Some d -> d <> "" -> n = d)
  /\ (Dropbox.entry_db w !! key = None \/ Dropbox.entry_db w !! key = Some "" ->
      n = onitu_name)
  /\ (forall o sz w' out,
        Dropbox.get_chunk root m o sz w = (w', out) ->
        Dropbox.requests w'
        = Dropbox.requests w ++ [Dropbox.ReqGetFile ("/files/dropbox/" +:+ n) o (o + (sz - 1))])
  /\ (forall o chunk w' out,
        Dropbox.upload_chunk root m o chunk w = (w', out) ->
        Dropbox.requests w'
        = Dropbox.requests w ++ [Dropbox.ReqUploadChunk chunk o (extra m !! "upload_id")])
  /\ (forall w' out,
        end_upload m w = (w', out) ->
        exists new,
          Dropbox.requests w' = Dropbox.requests w ++ new
          /\ Forall (uses_name session_root format_path n) new
          /\ (forall m', out = Return m' ->
                exists params, last new = Some (Dropbox.ReqCommit (commit_path n) params)))
  /\ (forall new_metadata w' out,
        Dropbox.move_file root m new_metadata w = (w', out) ->
        exists k : nat,
          (1 <= k <= 10)%nat
          /\ Dropbox.requests w'
             = Dropbox.requests w
               ++ replicate k
                    (Dropbox.ReqFileMove n
                       (backend_name root (Dropbox.entry_db w) new_metadata)))
  /\ (forall w' out,
        Dropbox.delete_file root m w = (w', out) ->
        Dropbox.requests w' = Dropbox.requests w ++ [Dropbox.ReqFileDelete n])
  /\ (forall w' m',
        end_upload m w = (w', Return m') ->
        exists (u : value) (b : B) (resp : Dropbox.db_metadata),
          Dropbox.api_commit (commit_path n)
            (Dropbox.mkCommitParams false u (parent_rev_of m)) b
          = (Dropbox.client w', Return resp)
          /\ (Dropbox.db_path resp <> n ->
              Dropbox.entry_db w'
              = <["conflict:" +:+ n := Dropbox.db_path resp]> (Dropbox.entry_db w)
              /\ (Dropbox.Warning, Dropbox.end_upload_warning n (Dropbox.db_path resp))
                 ∈ Dropbox.log w')
          /\ (Dropbox.db_path resp = n -> Dropbox.entry_db w' = Dropbox.entry_db w)).
Proof.
  intros onitu_name key n.
  split; [|split; [|split; [|split; [|split; [|split; [|split]]]]]].
  - intros d Hd Hne. unfold n, backend_name. fold onitu_name. fold key.
    rewrite Hd, (str_truthy_true d Hne). reflexivity.
  - intros [Hd|Hd]; unfold n, backend_name; fold onitu_name; fold key; rewrite Hd;
      reflexivity.
  - intros o sz w' out. apply get_chunk_requests.
  - intros o chunk w' out. apply upload_chunk_requests.
  - intros w' out Hrun. exact (end_upload_requests _ _ _ _ Hrun).
  - intros new_metadata w' out. apply move_file_requests.
  - intros w' out Hrun.
    destruct (delete_file_spec m w) as (w2 & out2 & Hd & Hrq & _).
    rewrite Hrun in Hd. injection Hd as <- _. exact Hrq.
  - intros w' m' Hrun.
    destruct (end_upload_success _ _ _ _ Hrun) as (u & b & resp & Hapi & _ & _ & Hne & Heq).
    exists u, b, resp. split; [exact Hapi|]. split; [|exact Heq].
    intros Hp. destruct (Hne Hp) as [Hdb Hlog]. split; [exact Hdb|].
    rewrite Hlog. apply elem_of_app. right. left.
Qed.

(** C7 (as amended). Deleting twice is not deleting once.  On the local
    driver, once [delete_file] has succeeded (the file and its status entry
    are gone), a second [delete_file] raises [ServiceError] and changes
    nothing.  On the Dropbox driver, [delete_file] raises [ServiceError]
    whenever Dropbox refuses the deletion with an [ErrorResponse], as it
    does for a path already deleted, and leaves the conflict map and the
    metadata store as they were. *)
Theorem delete_file_twice_raises :
  (forall (path_of : string -> string) m (w w1 : LocalStorage.world),
      LocalStorage.delete_file path_of m w = (w1, Return tt) ->
      LocalStorage.fs w1 = delete (LocalStorage.path path_of m) (LocalStorage.fs w)
      /\ LocalStorage.status_data w1
         = delete (LocalStorage.path path_of m) (LocalStorage.status_data w)
      /\ LocalStorage.delete_file path_of m w1 = (w1, Raise ServiceError))
  /\ (forall m w (b' : B) (k : rest_kind),
      Dropbox.api_file_delete (backend_name root (Dropbox.entry_db w) m) (Dropbox.client w)
      = (b', Raise (ErrorResponse k)) ->
      exists w',
        Dropbox.delete_file root m w = (w', Raise ServiceError)
        /\ Dropbox.client w' = b'
        /\ Dropbox.entry_db w' = Dropbox.entry_db w
        /\ Dropbox.store w' = Dropbox.store w).
Proof.
  split.
  - intros path_of m w w1 Hrun.
    destruct (local_delete_file_spec _ _ _ _ Hrun) as (_ & Hfs & Hstatus & _).
    split; [exact Hfs|]. split.
    + unfold LocalStorage.status_data at 1. rewrite Hstatus. reflexivity.
    + apply local_delete_file_missing. rewrite Hfs. apply lookup_delete_eq.
  - intros m w b' k Hapi.
    destruct (delete_file_spec m w) as (w' & out & Hd & _ & Hcl & Hst & Hout).
    rewrite Hapi in Hcl, Hout. cbn in Hcl, Hout. destruct Hout as [-> Hdb].
    exists w'. auto.
Qed.

End DropboxHandlers.

Lemma end_upload_commits_once_witness :
  let m := Examples.file_a {["upload_id" := VStr "u1"; "rev" := VStr "rev-1"]} in
  let w := Examples.dropbox_world false ∅ in
  let r := Dropbox.end_upload "/r" "dropbox" (fun p => p) m w in
  Dropbox.requests r.1
  = [Dropbox.ReqCommit "/commit_chunked_upload/dropbox//r/a"
       (Dropbox.mkCommitParams false (VStr "u1") (Some (VStr "rev-1")))]
  /\ r.2 = Raise ServiceError.
Proof.
  intros m w r.
  destruct (end_upload_commits_once "/r" "dropbox" (fun p => p) m w (VStr "u1") r.1 r.2)
    as [Hrq Hrej].
  - reflexivity.
  - apply surjective_pairing.
  - split; [exact Hrq|].
    apply (Hrej (Examples.mkFake false Examples.answer_a) (ErrorResponse OtherResponse));
      reflexivity.
Defined.

(** The claim of C4 as it is written fails for a stored [rev] that is
    present but empty: the commit then carries no [parent_rev]. *)
Lemma empty_rev_sends_no_parent_rev :
  ~ (forall (m : Metadata) (w w' : Dropbox.world (B:=Examples.fake_dropbox))
       (out : outcome Metadata) (u r : value),
       extra m !! "upload_id" = Some u ->
       extra m !! "rev" = Some r ->
       Dropbox.end_upload "/r" "dropbox" (fun p => p) m w = (w', out) ->
       exists path params,
         Dropbox.requests w' = Dropbox.requests w ++ [Dropbox.ReqCommit path params]
         /\ Dropbox.cp_parent_rev params = Some r).
Proof.
  intros Hclaim.
  pose (m := Examples.file_a {["upload_id" := VStr "u1"; "rev" := VStr ""]}).
  pose (w := Examples.dropbox_world true ∅).
  destruct (Hclaim m w _ _ (VStr "u1") (VStr "") eq_refl eq_refl
              (surjective_pairing _)) as (path & params & Hrq & Hrev).
  vm_compute in Hrq. injection Hrq as _ <-. discriminate Hrev.
Qed.

Lemma end_upload_extras_after_success_witness :
  let m := Examples.file_a {["upload_id" := VStr "u1"]} in
  let w := Examples.dropbox_world true ∅ in
  match (Dropbox.end_upload "/r" "dropbox" (fun p => p) m w).2 with
  | Return m' => extra m' !! "upload_id" = None
                 /\ extra m' !! "rev" = Some (VStr "rev-2")
  | Raise _ => False
  end.
Proof.
  intros m w.
  destruct (Dropbox.end_upload "/r" "dropbox" (fun p => p) m w) as [w' [e|m']] eqn:Hrun;
    cbn [snd].
  - vm_compute in Hrun. discriminate Hrun.
  - destruct (proj1 (end_upload_extras_after_success "/r" "dropbox" (fun p => p))
                m w w' m' Hrun) as (Hid & _ & _).
    split; [exact Hid|].
    vm_compute in Hrun. injection Hrun as _ <-. reflexivity.
Defined.

(** The claim of C3 as it is written fails on both drivers.  The
    local-storage [end_upload] succeeds and leaves extras without any
    [rev].  The Dropbox [end_upload] stores the revision Dropbox answers as
    it comes: when the answer carries an empty [rev], the handler returns
    and the [rev] of the extras is empty. *)
Lemma end_upload_leaves_no_rev_or_an_empty_one :
  ~ (forall (m : Metadata) (w w' : LocalStorage.world) (m' : Metadata),
       LocalStorage.end_upload Examples.under_r false m w = (w', Return m') ->
       (exists r, extra m' !! "rev" = Some r /\ truthy r = true)
       /\ extra m' !! "upload_id" = None)
  /\ ~ (forall (m : Metadata) (w w' : Dropbox.world (B:=Examples.fake_dropbox))
               (m' : Metadata),
          Dropbox.end_upload "/r" "dropbox" (fun p => p) m w = (w', Return m') ->
          (exists r, extra m' !! "rev" = Some r /\ truthy r = true)
          /\ extra m' !! "upload_id" = None).
Proof.
  split; intros Hclaim.
  - pose (m := Examples.file_a ∅).
    pose (w := Examples.local_world
                 {["/r/.a.onitu-tmp" := LocalStorage.mkFile [] 7]} None ∅).
    destruct (LocalStorage.end_upload Examples.under_r false m w) as [w' [e|m']] eqn:Hrun.
    + vm_compute in Hrun. discriminate Hrun.
    + destruct (Hclaim m w w' m' Hrun) as [(r & Hr & _) _].
      vm_compute in Hrun. injection Hrun as _ <-. vm_compute in Hr. discriminate Hr.
  - pose (m := Examples.file_a {["upload_id" := VStr "u1"]}).
    pose (w := Dropbox.mkWorld
                 (Examples.mkFake true
                    (Dropbox.mkDbMetadata 0 "" Examples.later_stamp "/r/a" false false))
                 [] ∅ ∅ [] [] None).
    destruct (Dropbox.end_upload "/r" "dropbox" (fun p => p) m w) as [w' [e|m']] eqn:Hrun.
    + vm_compute in Hrun. discriminate Hrun.
    + destruct (Hclaim m w w' m' Hrun) as [(r & Hr & Ht) _].
      vm_compute in Hrun. injection Hrun as _ <-. vm_compute in Hr.
      injection Hr as <-. discriminate Ht.
Qed.

Lemma end_upload_without_upload_id_witness :
  (exists w',
      Dropbox.end_upload "/r" "dropbox" (fun p => p) (Examples.file_a ∅)
        (Examples.dropbox_world true ∅)
      = (w', Return (after_commit (Examples.file_a ∅) Examples.answer_a))
      /\ Dropbox.requests w'
         = [Dropbox.ReqUploadChunk [] 0 None;
            Dropbox.ReqCommit "/commit_chunked_upload/dropbox//r/a"
              (Dropbox.mkCommitParams false (VStr "upload-1") None)])
  /\ (exists w',
      Dropbox.end_upload "/r" "dropbox" (fun p => p)
        (set_size (Examples.file_a ∅) 5) (Examples.dropbox_world true ∅)
      = (w', Raise DriverError)
      /\ Dropbox.requests w' = []).
Proof.
  split.
  - destruct (end_upload_without_upload_id "/r" "dropbox" (fun p => p)
                (Examples.file_a ∅) (Examples.dropbox_world true ∅)) as [Hempty _];
      [reflexivity|].
    destruct (Hempty eq_refl (Examples.mkFake true Examples.answer_a)
                (Examples.mkFake true Examples.answer_a) 0 "upload-1" Examples.answer_a)
      as (w' & Hrun & Hrq & _); [reflexivity|reflexivity|].
    exists w'. split; [exact Hrun|exact Hrq].
  - destruct (end_upload_without_upload_id "/r" "dropbox" (fun p => p)
                (set_size (Examples.file_a ∅) 5) (Examples.dropbox_world true ∅))
      as [_ Hother]; [reflexivity|].
    destruct Hother as (w' & Hrun & Hrq & _); [discriminate|].
    exists w'. split; [exact Hrun|exact Hrq].
Defined.

Lemma remote_operations_use_resolved_name_witness :
  let m := Examples.file_a ∅ in
  let w := Examples.dropbox_world true {["conflict:/r/a" := "/r/A"]} in
  Dropbox.requests (Dropbox.delete_file "/r" m w).1 = [Dropbox.ReqFileDelete "/r/A"].
Proof.
  intros m w.
  destruct (remote_operations_use_resolved_name "/r" "dropbox" (fun p => p) m w)
    as (Hname & _ & _ & _ & _ & _ & Hdelete & _).
  rewrite (Hdelete _ _ (surjective_pairing _)).
  rewrite (Hname "/r/A"); [reflexivity|reflexivity|discriminate].
Defined.

(** The claim of C5 as it is written fails for a conflict entry whose
    backend name is empty: the entry exists, yet the request names the
    root-prefixed Onitu name. *)
Lemma empty_conflict_entry_is_ignored :
  ~ (forall (m : Metadata) (w w' : Dropbox.world (B:=Examples.fake_dropbox))
       (out : outcome unit) (d : string),
       Dropbox.entry_db w
         !! ("conflict:" +:+ Dropbox.root_prefixed_filename "/r" (filename m)) = Some d ->
       Dropbox.delete_file "/r" m w = (w', out) ->
       Dropbox.requests w' = Dropbox.requests w ++ [Dropbox.ReqFileDelete d]).
Proof.
  intros Hclaim.
  pose (m := Examples.file_a ∅).
  pose (w := Examples.dropbox_world true {["conflict:/r/a" := ""]}).
  pose proof (Hclaim m w _ _ "" eq_refl (surjective_pairing _)) as Hrq.
  vm_compute in Hrq. discriminate Hrq.
Qed.

Lemma delete_file_twice_raises_witness :
  let m := Examples.file_a ∅ in
  let w := Examples.local_world {["/r/a" := LocalStorage.mkFile [] 7]} None ∅ in
  let w1 := (LocalStorage.delete_file Examples.under_r m w).1 in
  LocalStorage.fs w1 = delete "/r/a" (LocalStorage.fs w)
  /\ LocalStorage.delete_file Examples.under_r m w1 = (w1, Raise ServiceError).
Proof.
  intros m w w1.
  destruct (proj1 (delete_file_twice_raises (B:=Examples.fake_dropbox) "/r")
              Examples.under_r m w w1) as (Hfs & _ & Hsecond).
  - reflexivity.
  - split; [exact Hfs|exact Hsecond].
Defined.

(** The claim of C7 as it is written fails: after a successful
    [delete_file], the second invocation does not succeed. *)
Lemma second_delete_file_does_not_succeed :
  ~ (forall (m : Metadata) (w w1 : LocalStorage.world),
       LocalStorage.delete_file Examples.under_r m w = (w1, Return tt) ->
       LocalStorage.delete_file Examples.under_r m w1 = (w1, Return tt)).
Proof.
  intros Hclaim.
  pose (m := Examples.file_a ∅).
  pose (w := Examples.local_world {["/r/a" := LocalStorage.mkFile [] 7]} None ∅).
  destruct (LocalStorage.delete_file Examples.under_r m w) as [w1 [e|[]]] eqn:Hrun.
  - vm_compute in Hrun. discriminate Hrun.
  - pose proof (Hclaim m w w1 Hrun) as Hsecond.
    vm_compute in Hrun. injection Hrun as <-. vm_compute in Hsecond. discriminate Hsecond.
Qed.

Lemma check_changes_reports_uptodate_missing_witness :
  let gone := mkMetadata "gone" 3 ["rep1"; "rep2"] ["rep1"] None ∅ in
  let never := mkMetadata "never" 3 ["rep1"; "rep2"] ["rep2"] None ∅ in
  let w := Examples.local_world {["/r/a" := LocalStorage.mkFile [] 7]} None
             {["gone" := gone; "never" := never]} in
  let w' := (LocalStorage.check_changes Examples.under_r "rep1" "/r" w).1 in
  (exists m', PlugDeleteFile m' ∈ LocalStorage.plug_calls w' /\ filename m' = "gone")
  /\ ~ (exists m', PlugDeleteFile m' ∈ LocalStorage.plug_calls w' /\ filename m' = "never").
Proof.
  intros gone never w w'.
  assert (Hwf : store_wf (LocalStorage.store w)).
  { intros k m Hk. unfold w, Examples.local_world in Hk. cbn [LocalStorage.store] in Hk.
    apply lookup_insert_Some in Hk as [[<- <-]|[_ Hk]]; [reflexivity|].
    apply lookup_singleton_Some in Hk as [<- <-]. reflexivity. }
  assert (Hrun : LocalStorage.check_changes Examples.under_r "rep1" "/r" w = (w', Return tt))
    by (vm_compute; reflexivity).
  destruct (check_changes_reports_uptodate_missing Examples.under_r "rep1" "/r" w w'
              "gone" gone Hwf Hrun) as (new1 & Hc1 & Hiff1 & _); [reflexivity|reflexivity|].
  destruct (check_changes_reports_uptodate_missing Examples.under_r "rep1" "/r" w w'
              "never" never Hwf Hrun) as (new2 & Hc2 & Hiff2 & _); [reflexivity|reflexivity|].
  cbn in Hc1, Hc2. rewrite Hc1. split.
  - apply Hiff1. cbn. left.
  - rewrite Hc1 in Hc2. subst new2. intros Hex. apply Hiff2 in Hex. cbn in Hex.
    apply list_elem_of_In in Hex. destruct Hex as [E|[]]. discriminate E.
Defined.

(** ** The change intake of the Dropbox driver *)

Lemma for_each_app_inv {S A : Type} (body : A -> exec S unit) (l1 l2 : list A) (x : A)
    (s s' : S) :
  for_each (l1 ++ x :: l2) body s = (s', Return tt) ->
  exists s1 s2,
    for_each l1 body s = (s1, Return tt)
    /\ body x s1 = (s2, Return tt)
    /\ for_each l2 body s2 = (s', Return tt).
Proof.
  revert s. induction l1 as [|y l1 IH]; intros s Hrun; cbn [app for_each] in Hrun.
  - unfold bind in Hrun. destruct (body x s) as [s2 [e|[]]] eqn:Hx; [discriminate|].
    exists s, s2. auto.
  - unfold bind in Hrun. destruct (body y s) as [s0 [e|[]]] eqn:Hy; [discriminate|].
    destruct (IH _ Hrun) as (s1 & s2 & H1 & H2 & H3).
    exists s1, s2. split; [|auto]. cbn [for_each]. unfold bind. rewrite Hy. exact H1.
Qed.

Section DropboxPolling.

Context {B : Type} `{Dropbox.Client B}.
Variable strptime : string -> option (list Z).

Implicit Types (w : Dropbox.world (B:=B)) (d : Dropbox.db_metadata).

Lemma conflicting_filename_reverse (path : string) w :
  Dropbox.conflicting_filename path true w
  = match reverse_conflict (Dropbox.entry_db w) path with
    | Some c => (Dropbox.with_log Dropbox.Warning (Dropbox.conflict_warning path c) w,
                 Return (Some c))
    | None => (w, Return None)
    end.
Proof.
  unfold Dropbox.conflicting_filename, bind, get. cbn.
  rewrite strip_keys_range by apply db_range_prefixed.
  unfold reverse_conflict. destruct (Dropbox.search_conflict _ _ _); reflexivity.
Qed.

Lemma searched_fields w d :
  Dropbox.store (searched w d) = Dropbox.store w
  /\ Dropbox.plug_calls (searched w d) = Dropbox.plug_calls w.
Proof. unfold searched. destruct (reverse_conflict _ _); split; reflexivity. Qed.

(** An entry skipped by the loop: the root itself or a directory. *)
Lemma process_entry_skipped (prefix db_filename : string) d w :
  rootless prefix (Dropbox.entry_db w) d = "" \/ Dropbox.db_is_dir d = true ->
  Dropbox.process_entry strptime prefix (db_filename, Some d) w = (searched w d, Return tt).
Proof.
  intros Hskip. unfold Dropbox.process_entry. cbn [fst snd].
  unfold bind at 1. unfold ret at 1. unfold bind at 1.
  rewrite conflicting_filename_reverse. unfold searched, rootless in *.
  destruct (reverse_conflict _ _) as [c|];
    (destruct Hskip as [->| ->]; [reflexivity|rewrite orb_true_r; reflexivity]).
Qed.

(** A file entry that is not a deletion: what the loop body does with it. *)
Lemma process_entry_file (prefix db_filename : string) d w :
  rootless prefix (Dropbox.entry_db w) d <> "" ->
  Dropbox.db_is_dir d = false ->
  Dropbox.db_is_deleted d = false ->
  let m := record_of (Dropbox.store w) (rootless prefix (Dropbox.entry_db w) d) in
  let w0 := searched w d in
  let compare (t_old : option (list Z)) :=
    match strptime (Dropbox.db_modified d) with
    | None => (w0, Raise ValueError)
    | Some t_new =>
        if match t_old with
           | None => true
           | Some t => Dropbox.tuple_gtb t_new t
           end
        then (reported w0 (refreshed m d), Return tt)
        else (w0, Return tt)
    end in
  Dropbox.process_entry strptime prefix (db_filename, Some d) w
  = match extra m !! "modified" with
    | None => compare None
    | Some v =>
        if truthy v
        then match v with
             | VNum _ => (w0, Raise TypeError)
             | VStr ts =>
                 match strptime ts with
                 | None => (w0, Raise ValueError)
                 | Some t => compare (Some t)
                 end
             end
        else compare None
    end.
Proof.
  intros Hname Hdir Hdel m w0 compare.
  unfold Dropbox.process_entry. cbn [fst snd].
  unfold bind at 1. unfold ret at 1. unfold bind at 1.
  rewrite conflicting_filename_reverse.
  assert (Hstore : Dropbox.store w0 = Dropbox.store w) by apply searched_fields.
  assert (Hnot : String.eqb (rootless prefix (Dropbox.entry_db w) d) "" = false)
    by (apply String.eqb_neq, Hname).
  assert (Hbody : forall w1 : Dropbox.world (B:=B), w1 = w0 ->
            (m0 <~ Dropbox.plug_get_metadata (rootless prefix (Dropbox.entry_db w) d) ;;
             if Dropbox.db_is_deleted d then Dropbox.plug_delete_file m0
             else
               onitu_ts <~ (match extra m0 !! "modified" with
                            | Some v =>
                                if truthy v
                                then match v with
                                     | VStr ts => t <~ Dropbox.parse_time strptime ts ;;
                                                  ret (Some t)
                                     | VNum _ => raise TypeError
                                     end
                                else ret None
                            | None => ret None
                            end) ;;
               dropbox_ts <~ Dropbox.parse_time strptime (Dropbox.db_modified d) ;;
               if match onitu_ts with
                  | None => true
                  | Some t => Dropbox.tuple_gtb dropbox_ts t
                  end
               then m' <~ Dropbox.update_metadata_info m0 d false ;;
                    Dropbox.plug_update_file m'
               else ret tt) w1
            = match extra m !! "modified" with
              | None => compare None
              | Some v =>
                  if truthy v
                  then match v with
                       | VNum _ => (w0, Raise TypeError)
                       | VStr ts =>
                           match strptime ts with
                           | None => (w0, Raise ValueError)
                           | Some t => compare (Some t)
                           end
                       end
                  else compare None
              end).
  { intros w1 ->. unfold bind at 1. unfold Dropbox.plug_get_metadata.
    fold (record_of (Dropbox.store w0) (rootless prefix (Dropbox.entry_db w) d)).
    assert (Hm : match Dropbox.store w0 !! rootless prefix (Dropbox.entry_db w) d with
                 | Some m0 => (w0, Return m0)
                 | None => (w0, Return (mkMetadata (rootless prefix (Dropbox.entry_db w) d)
                                          0 [] [] None ∅))
                 end = (w0, Return m)).
    { unfold m, record_of. rewrite Hstore.
      destruct (Dropbox.store w !! _); reflexivity. }
    rewrite Hm, Hdel. unfold compare, Dropbox.parse_time, Dropbox.update_metadata_info,
      Dropbox.plug_update_file, Dropbox.write, reported, refreshed, bind, ret, raise, modify.
    destruct (extra m !! "modified") as [v|];
      [destruct (truthy v); [destruct v as [ts|n]; [destruct (strptime ts) as [t|]|]|]|];
      try reflexivity;
      destruct (strptime (Dropbox.db_modified d)) as [t_new|]; try reflexivity;
      try destruct (Dropbox.tuple_gtb t_new t); reflexivity. }
  unfold rootless in Hnot, Hbody |- *. unfold searched in Hbody, w0.
  destruct (reverse_conflict (Dropbox.entry_db w) (Dropbox.db_path d)) as [c|];
    cbv beta iota; rewrite Hnot, Hdir; cbn [orb]; apply Hbody; reflexivity.
Qed.

(** C6 (as amended). For every entry of a delta that is not a deletion,
    processed in the world [w1] left by the entries before it:
    [plug.update_file] is invoked if and only if the entry is a file below
    the root (its root-less name is not empty and it is not a directory) and
    the stored [extra['modified']] is absent or empty, or the timestamp
    Dropbox reports is strictly newer than the stored one.  When it is
    invoked, it is invoked once, with the stored record refreshed from the
    entry; [plug.delete_file] is not invoked. *)
Theorem poll_entry_updates_iff_newer (prefix db_filename : string)
    (before after : list (string * option Dropbox.db_metadata)) d w w' :
  Dropbox.db_is_deleted d = false ->
  for_each (before ++ (db_filename, Some d) :: after)
    (Dropbox.process_entry strptime prefix) w = (w', Return tt) ->
  exists w1 w2 new,
    for_each before (Dropbox.process_entry strptime prefix) w = (w1, Return tt)
    /\ Dropbox.process_entry strptime prefix (db_filename, Some d) w1 = (w2, Return tt)
    /\ for_each after (Dropbox.process_entry strptime prefix) w2 = (w', Return tt)
    /\ Dropbox.plug_calls w2 = Dropbox.plug_calls w1 ++ new
    /\ let name := rootless prefix (Dropbox.entry_db w1) d in
       let stored := stored_modified (Dropbox.store w1) name in
       ((exists m', PlugUpdateFile m' ∈ new)
        <-> name <> "" /\ Dropbox.db_is_dir d = false
            /\ (no_timestamp stored \/ strictly_newer strptime d stored))
       /\ (forall m', PlugUpdateFile m' ∈ new ->
             new = [PlugUpdateFile m']
             /\ m' = refreshed (record_of (Dropbox.store w1) name) d)
       /\ (forall m', PlugDeleteFile m' ∉ new).
Proof.
  intros Hdel Hrun.
  destruct (for_each_app_inv _ _ _ _ _ _ Hrun) as (w1 & w2 & H1 & H2 & H3).
  exists w1, w2. cbv zeta.
  set (name := rootless prefix (Dropbox.entry_db w1) d).
  remember (stored_modified (Dropbox.store w1) name) as stored eqn:Estored.
  destruct (searched_fields w1 d) as [_ Hcalls].
  assert (Hnone : forall new, new = [] ->
            (name = "" \/ Dropbox.db_is_dir d = true
             \/ (~ no_timestamp stored /\ ~ strictly_newer strptime d stored)) ->
            ((exists m', PlugUpdateFile m' ∈ new)
             <-> name <> "" /\ Dropbox.db_is_dir d = false
                 /\ (no_timestamp stored \/ strictly_newer strptime d stored))
            /\ (forall m', PlugUpdateFile m' ∈ new ->
                  new = [PlugUpdateFile m']
                  /\ m' = refreshed (record_of (Dropbox.store w1) name) d)
            /\ (forall m', PlugDeleteFile m' ∉ new)).
  { intros new -> Hwhy. split; [split|split].
    - intros (m' & Hin). inversion Hin.
    - intros (Hname & Hdir & Hts). destruct Hwhy as [E|[E|[E1 E2]]];
        [contradiction|congruence|destruct Hts; contradiction].
    - intros m' Hin. inversion Hin.
    - intros m' Hin. inversion Hin. }
  assert (Hone : forall new, new = [PlugUpdateFile (refreshed (record_of (Dropbox.store w1) name) d)] ->
            name <> "" -> Dropbox.db_is_dir d = false ->
            no_timestamp stored \/ strictly_newer strptime d stored ->
            ((exists m', PlugUpdateFile m' ∈ new)
             <-> name <> "" /\ Dropbox.db_is_dir d = false
                 /\ (no_timestamp stored \/ strictly_newer strptime d stored))
            /\ (forall m', PlugUpdateFile m' ∈ new ->
                  new = [PlugUpdateFile m']
                  /\ m' = refreshed (record_of (Dropbox.store w1) name) d)
            /\ (forall m', PlugDeleteFile m' ∉ new)).
  { intros new -> Hname Hdir Hts. split; [split|split].
    - auto.
    - intros _. eexists. left.
    - intros m' Hin. apply list_elem_of_In in Hin. destruct Hin as [E|[]].
      injection E as <-. auto.
    - intros m' Hin. apply list_elem_of_In in Hin. destruct Hin as [E|[]]. discriminate E. }
  pose proof H2 as Hentry.
  destruct (decide (name = "")) as [Hempty|Hname].
  { rewrite process_entry_skipped in H2 by (left; exact Hempty). injection H2 as <-.
    exists []. rewrite app_nil_r.
    split; [exact H1|]. split; [exact Hentry|]. split; [exact H3|]. split; [exact Hcalls|].
    apply Hnone; auto. }
  destruct (Dropbox.db_is_dir d) eqn:Hdir.
  { rewrite process_entry_skipped in H2 by (right; exact Hdir). injection H2 as <-.
    exists []. rewrite app_nil_r.
    split; [exact H1|]. split; [exact Hentry|]. split; [exact H3|]. split; [exact Hcalls|].
    apply Hnone; auto. }
  rewrite (process_entry_file prefix db_filename d w1 Hname Hdir Hdel) in H2.
  cbv zeta in H2. fold name in H2.
  change (extra (record_of (Dropbox.store w1) name) !! "modified")
    with (stored_modified (Dropbox.store w1) name) in H2.
  rewrite <- Estored in H2.
  assert (Hupdated : forall w2,
            (reported (searched w1 d) (refreshed (record_of (Dropbox.store w1) name) d),
             Return tt) = (w2, Return tt) ->
            Dropbox.plug_calls w2
            = Dropbox.plug_calls w1
              ++ [PlugUpdateFile (refreshed (record_of (Dropbox.store w1) name) d)]).
  { intros w0 E. injection E as <-. cbn. rewrite Hcalls. reflexivity. }
  assert (Hsame : forall w2, (searched w1 d, Return tt) = (w2, Return tt) ->
            Dropbox.plug_calls w2 = Dropbox.plug_calls w1 ++ []).
  { intros w0 E. injection E as <-. rewrite app_nil_r. exact Hcalls. }
  destruct stored as [v|].
  - destruct (truthy v) eqn:Htruthy.
    + destruct v as [ts|n]; [|discriminate H2].
      destruct (strptime ts) as [t_old|] eqn:Hold; [|discriminate H2].
      destruct (strptime (Dropbox.db_modified d)) as [t_new|] eqn:Hnew; [|discriminate H2].
      destruct (Dropbox.tuple_gtb t_new t_old) eqn:Hgt.
      * eexists. split; [exact H1|]. split; [exact Hentry|]. split; [exact H3|].
        split; [exact (Hupdated _ H2)|]. apply Hone; auto.
        right. exists ts, t_old, t_new. auto.
      * exists []. split; [exact H1|]. split; [exact Hentry|]. split; [exact H3|].
        split; [exact (Hsame _ H2)|]. apply Hnone; auto. right. right. split.
        -- unfold no_timestamp. congruence.
        -- intros (ts' & t_old' & t_new' & E & Ho & Hn & Hg).
           injection E as <-. congruence.
    + destruct (strptime (Dropbox.db_modified d)) as [t_new|] eqn:Hnew; [|discriminate H2].
      eexists. split; [exact H1|]. split; [exact Hentry|]. split; [exact H3|].
      split; [exact (Hupdated _ H2)|]. apply Hone; auto.
  - destruct (strptime (Dropbox.db_modified d)) as [t_new|] eqn:Hnew; [|discriminate H2].
    eexists. split; [exact H1|]. split; [exact Hentry|]. split; [exact H3|].
    split; [exact (Hupdated _ H2)|]. apply Hone; auto. left. exact I.
Qed.

End DropboxPolling.

Lemma poll_entry_updates_iff_newer_witness :
  let stored := Examples.file_a {["modified" := VStr Examples.stamp]} in
  let w := Dropbox.mkWorld (Examples.mkFake true Examples.answer_a) [] ∅
             {["a" := stored]} [] [] None in
  let run := for_each [("/r/a", Some Examples.answer_a)]
               (Dropbox.process_entry Examples.two_stamps "/r/") w in
  exists m', PlugUpdateFile m' ∈ Dropbox.plug_calls run.1.
Proof.
  intros stored w run.
  assert (Hrun : for_each ([] ++ ("/r/a", Some Examples.answer_a) :: [])
                   (Dropbox.process_entry Examples.two_stamps "/r/") w
                 = (run.1, Return tt)) by (vm_compute; reflexivity).
  destruct (poll_entry_updates_iff_newer Examples.two_stamps "/r/" "/r/a" [] []
              Examples.answer_a w run.1 eq_refl Hrun)
    as (w1 & w2 & new & H1 & _ & H3 & Hcalls & Hiff & _).
  injection H1 as <-. injection H3 as <-.
  destruct (proj2 Hiff) as [m' Hm'].
  - split; [vm_compute; discriminate|]. split; [reflexivity|].
    right. exists Examples.stamp, [2010; 8; 21; 22; 31; 20; 5; 233; -1],
             [2010; 8; 22; 8; 0; 0; 6; 234; -1].
    repeat split; reflexivity.
  - exists m'. rewrite Hcalls. apply elem_of_app. right. exact Hm'.
Defined.

(** The claim of C6 as it is written fails for an entry that is a directory:
    it is not a deletion and nothing is stored for it, yet
    [plug.update_file] is not invoked. *)
Lemma directory_entry_is_not_updated :
  ~ (forall (prefix db_filename : string) (d : Dropbox.db_metadata)
       (w w' : Dropbox.world (B:=Examples.fake_dropbox)),
       Dropbox.db_is_deleted d = false ->
       Dropbox.process_entry Examples.two_stamps prefix (db_filename, Some d) w
       = (w', Return tt) ->
       let stored := stored_modified (Dropbox.store w)
                       (rootless prefix (Dropbox.entry_db w) d) in
       (exists m', PlugUpdateFile m' ∈ Dropbox.plug_calls w')
       <-> stored = None \/ strictly_newer Examples.two_stamps d stored).
Proof.
  intros Hclaim.
  pose (d := Dropbox.mkDbMetadata 0 "rev-9" Examples.stamp "/r/docs" true false).
  pose (w := Examples.dropbox_world true ∅).
  destruct (Dropbox.process_entry Examples.two_stamps "/r/" ("/r/docs", Some d) w)
    as [w' [e|[]]] eqn:Hrun.
  - vm_compute in Hrun. discriminate Hrun.
  - destruct (proj2 (Hclaim "/r/" "/r/docs" d w w' eq_refl Hrun)) as [m' Hm'].
    + left. reflexivity.
    + vm_compute in Hrun. injection Hrun as <-. cbn in Hm'. inversion Hm'.
Qed.

(** * Further properties of the local-storage driver *)

(** ** Reading and writing at an offset *)

Lemma file_write_length (c k : bytes) (o : Z) :
  length (LocalStorage.file_write c o k)
  = Nat.max (length c) (Z.to_nat o + length k).
Proof.
  unfold LocalStorage.file_write.
  rewrite !length_app, length_take, length_replicate, length_drop. lia.
Qed.

Lemma file_write_at_end (c k : bytes) :
  LocalStorage.file_write c (Z.of_nat (length c)) k = c ++ k.
Proof.
  unfold LocalStorage.file_write. rewrite Nat2Z.id.
  rewrite take_ge by lia. rewrite drop_ge by lia.
  rewrite Nat.sub_diag. cbn. rewrite app_nil_r. reflexivity.
Qed.

Lemma file_write_twice (c k : bytes) (o : Z) :
  LocalStorage.file_write (LocalStorage.file_write c o k) o k
  = LocalStorage.file_write c o k.
Proof.
  assert (Hlen := file_write_length c k o).
  remember (LocalStorage.file_write c o k) as c' eqn:Ec'.
  unfold LocalStorage.file_write in *.
  set (n := Z.to_nat o) in *.
  set (hd := take n c ++ replicate (n - length c) Byte.x00).
  assert (Hhead : length hd = n)
    by (unfold hd; rewrite length_app, length_take, length_replicate; lia).
  assert (Hshape : c' = hd ++ k ++ drop (n + length k) c)
    by (rewrite Ec'; unfold hd; rewrite <- app_assoc; reflexivity).
  replace (n - length c')%nat with 0%nat by lia.
  cbn [replicate app].
  rewrite Hshape.
  rewrite take_app_length' by (symmetry; exact Hhead).
  rewrite drop_app_add' by (symmetry; exact Hhead).
  rewrite drop_app_length. reflexivity.
Qed.

Lemma file_read_written (read_limit : Z) (c k : bytes) (o : Z) :
  Z.of_nat (length k) <= read_limit -> read_limit < 2 ^ 63 - 33 ->
  LocalStorage.file_read read_limit (LocalStorage.file_write c o k) o (Z.of_nat (length k))
  = Return k.
Proof.
  intros Hlen Hlim. unfold LocalStorage.file_read.
  destruct (Z.ltb_spec (Z.of_nat (length k)) (-1)) as [Hneg|_]; [lia|].
  destruct (Z.eqb_spec (Z.of_nat (length k)) (-1)) as [Hneg|_]; [lia|].
  destruct (Z.leb_spec (2 ^ 63 - 33) (Z.of_nat (length k))) as [Hbig|_]; [lia|].
  destruct (Z.ltb_spec read_limit (Z.of_nat (length k))) as [Hmem|_]; [lia|].
  f_equal. unfold LocalStorage.file_write. set (n := Z.to_nat o). rewrite Nat2Z.id.
  rewrite app_assoc.
  rewrite drop_app_length'
    by (rewrite length_app, length_take, length_replicate; lia).
  rewrite take_app_length. reflexivity.
Qed.


(** ** Paths of temporary files *)

Lemma string_append_assoc (a b c : string) : (a +:+ b) +:+ c = a +:+ (b +:+ c).
Proof.
  induction a as [|x a IH]; [reflexivity|]. rewrite !append_cons, IH. reflexivity.
Qed.

Lemma string_length_append (a b : string) :
  String.length (a +:+ b) = (String.length a + String.length b)%nat.
Proof.
  induction a as [|x a IH]; [reflexivity|]. rewrite append_cons. cbn. rewrite IH. reflexivity.
Qed.

Lemma string_append_inj_r (a b c : string) : a +:+ c = b +:+ c -> a = b.
Proof.
  revert b. induction a as [|x a IH]; intros [|y b] Hab.
  - reflexivity.
  - exfalso. apply (f_equal String.length) in Hab.
    rewrite append_nil, string_length_append in Hab. cbn in Hab. lia.
  - exfalso. apply (f_equal String.length) in Hab.
    rewrite append_nil, string_length_append in Hab. cbn in Hab. lia.
  - rewrite !append_cons in Hab. injection Hab as -> Hab. f_equal. apply IH, Hab.
Qed.

Lemma no_sep_append (a b : string) :
  no_sep a = true -> no_sep b = true -> no_sep (a +:+ b) = true.
Proof.
  induction a as [|x a IH]; intros Ha Hb; [exact Hb|].
  rewrite append_cons. cbn in *. apply andb_true_iff in Ha as [Hx Ha].
  rewrite Hx. cbn. exact (IH Ha Hb).
Qed.

Lemma rsplit_sep_no_sep (t : string) :
  no_sep t = true -> OsPath.rsplit_sep t = ("", t).
Proof.
  induction t as [|c t IH]; intros Ht; [reflexivity|].
  cbn in Ht. apply andb_true_iff in Ht as [Hc Ht].
  cbn. rewrite (IH Ht). destruct (OsPath.is_sep c); [discriminate|reflexivity].
Qed.

(** [rsplit_sep] cuts a path in two, and the tail has no separator. *)
Lemma rsplit_sep_spec (p : string) :
  p = (OsPath.rsplit_sep p).1 +:+ (OsPath.rsplit_sep p).2
  /\ no_sep (OsPath.rsplit_sep p).2 = true.
Proof.
  induction p as [|c p [IHp IHt]]; [split; reflexivity|].
  cbn. destruct (OsPath.rsplit_sep p) as [h t]. cbn in IHp, IHt.
  destruct h as [|x h].
  - rewrite append_nil in IHp. subst t.
    destruct (OsPath.is_sep c) eqn:Hc; cbn.
    + split; [reflexivity|exact IHt].
    + rewrite Hc. split; [reflexivity|exact IHt].
  - cbn. split; [rewrite append_cons, <- IHp; reflexivity|exact IHt].
Qed.

Lemma endswith_sep_append_sep (d : string) : OsPath.endswith_sep (d +:+ "/") = true.
Proof.
  induction d as [|c d IH]; [reflexivity|].
  rewrite append_cons. destruct d as [|x d]; [reflexivity|].
  rewrite append_cons in *. exact IH.
Qed.

Lemma rsplit_sep_append (h t : string) :
  no_sep t = true -> h = "" \/ OsPath.endswith_sep h = true ->
  OsPath.rsplit_sep (h +:+ t) = (h, t).
Proof.
  intros Ht. induction h as [|c h IH]; intros Hh.
  - apply rsplit_sep_no_sep, Ht.
  - rewrite append_cons. cbn [OsPath.rsplit_sep]. destruct h as [|x h].
    + rewrite append_nil, (rsplit_sep_no_sep _ Ht).
      destruct Hh as [Hh|Hh]; [discriminate|]. cbn in Hh. rewrite Hh. reflexivity.
    + rewrite IH; [reflexivity|]. right. destruct Hh as [Hh|Hh]; [discriminate|exact Hh].
Qed.

(** The last path component of [to_tmp p] and what precedes it. *)
Lemma to_tmp_split (p : string) :
  exists head,
    OsPath.rsplit_sep (LocalStorage.to_tmp p)
    = (head, "." +:+ OsPath.basename p +:+ LocalStorage.TMP_EXT).
Proof.
  unfold LocalStorage.to_tmp, OsPath.join.
  set (b := "." +:+ OsPath.basename p +:+ LocalStorage.TMP_EXT).
  assert (Hb : no_sep b = true).
  { unfold b. apply (no_sep_append "."); [reflexivity|].
    apply no_sep_append; [apply rsplit_sep_spec|reflexivity]. }
  change (OsPath.startswith_sep b) with false. cbv iota.
  destruct (negb (str_truthy (OsPath.dirname p)) || OsPath.endswith_sep (OsPath.dirname p))
    eqn:Hd.
  - eexists. apply rsplit_sep_append; [exact Hb|].
    apply orb_true_iff in Hd as [Hd|Hd]; [left|right; exact Hd].
    unfold str_truthy in Hd. rewrite negb_involutive in Hd.
    apply String.eqb_eq, Hd.
  - exists (OsPath.dirname p +:+ "/"). rewrite <- string_append_assoc.
    apply rsplit_sep_append; [exact Hb|]. right. apply endswith_sep_append_sep.
Qed.

Lemma to_tmp_basename (p : string) :
  OsPath.basename (LocalStorage.to_tmp p)
  = "." +:+ OsPath.basename p +:+ LocalStorage.TMP_EXT.
Proof.
  destruct (to_tmp_split p) as [head Hsplit].
  unfold OsPath.basename at 1. rewrite Hsplit. reflexivity.
Qed.

Lemma to_tmp_neq (p : string) : LocalStorage.to_tmp p <> p.
Proof.
  intros Heq. pose proof (to_tmp_basename p) as Hbase.
  rewrite Heq in Hbase. apply (f_equal String.length) in Hbase.
  rewrite append_cons, append_nil in Hbase. cbn [String.length] in Hbase.
  rewrite string_length_append in Hbase. lia.
Qed.

(** X1. The temporary file of an upload is a sibling of its target, named
    after it with a leading dot and the [.onitu-tmp] extension; it is never
    the target itself, and two targets with the same temporary file have the
    same last component. *)
Theorem to_tmp_names_a_hidden_sibling (p q : string) :
  OsPath.basename (LocalStorage.to_tmp p)
  = "." +:+ OsPath.basename p +:+ LocalStorage.TMP_EXT
  /\ LocalStorage.to_tmp p <> p
  /\ (LocalStorage.to_tmp p = LocalStorage.to_tmp q -> OsPath.basename p = OsPath.basename q).
Proof.
  split; [apply to_tmp_basename|]. split; [apply to_tmp_neq|].
  intros Heq. pose proof (to_tmp_basename p) as Hp. rewrite Heq, to_tmp_basename in Hp.
  rewrite !append_cons, !append_nil in Hp. injection Hp as Hp.
  first [exact (string_append_inj_r _ _ _ Hp)
        |exact (eq_sym (string_append_inj_r _ _ _ Hp))].
Qed.

Lemma rsplit_dot_tmp_ext (x : string) :
  OsPath.rsplit_dot (x +:+ LocalStorage.TMP_EXT) = Some (x, LocalStorage.TMP_EXT).
Proof.
  induction x as [|c x IH]; [reflexivity|].
  rewrite append_cons. cbn [OsPath.rsplit_dot]. rewrite IH. reflexivity.
Qed.

(** X2. [os.path.splitext] gives the temporary file of [p] the extension
    [.onitu-tmp], the one the scan and the watcher skip, exactly when the
    last component of [p] is not made of dots only (nor empty). *)
Theorem to_tmp_extension (p : string) :
  snd (OsPath.splitext (LocalStorage.to_tmp p))
  = if OsPath.all_dots (OsPath.basename p) then "" else LocalStorage.TMP_EXT.
Proof.
  destruct (to_tmp_split p) as [head Hsplit].
  unfold OsPath.splitext. rewrite Hsplit.
  rewrite <- string_append_assoc, rsplit_dot_tmp_ext.
  change (OsPath.all_dots ("." +:+ OsPath.basename p))
    with (OsPath.all_dots (OsPath.basename p)).
  destruct (OsPath.all_dots (OsPath.basename p)); reflexivity.
Qed.

(** ** Where a file can be put *)

Lemma prefix_longer (p : string) : String.prefix (p +:+ "/") p = false.
Proof.
  destruct (String.prefix (p +:+ "/") p) eqn:E; [|reflexivity].
  apply prefix_split in E. apply (f_equal String.length) in E.
  rewrite !string_length_append in E. cbn in E. lia.
Qed.

Lemma existsb_paths (f : gmap string LocalStorage.file) (P : string -> bool) :
  existsb P (map fst (map_to_list f)) = true
  <-> exists q, is_Some (f !! q) /\ P q = true.
Proof.
  rewrite existsb_exists. split.
  - intros (q & Hin & HP). apply in_map_iff in Hin as ([k v] & <- & Hkv).
    apply list_elem_of_In, elem_of_map_to_list in Hkv. exists k. cbn. eauto.
  - intros (q & [v Hv] & HP). exists q. split; [|exact HP].
    apply in_map_iff. exists (q, v). split; [reflexivity|].
    apply list_elem_of_In, elem_of_map_to_list, Hv.
Qed.

(** Removing the file at [p] does not change what stands in the way of a
    file at [p]. *)
Lemma can_hold_delete_self (f : gmap string LocalStorage.file) (p : string) :
  LocalStorage.can_hold (delete p f) p = LocalStorage.can_hold f p.
Proof.
  unfold LocalStorage.can_hold, LocalStorage.below_a_file, LocalStorage.is_directory.
  f_equal; f_equal; apply Bool.eq_iff_eq_true; rewrite !existsb_paths;
    split; intros (q & Hq & HP); exists q; (split; [|exact HP]).
  - apply lookup_delete_is_Some in Hq as [_ Hq]. exact Hq.
  - apply lookup_delete_is_Some. split; [|exact Hq].
    intros <-. rewrite prefix_longer in HP. discriminate HP.
  - apply lookup_delete_is_Some in Hq as [_ Hq]. exact Hq.
  - apply lookup_delete_is_Some. split; [|exact Hq].
    intros <-. rewrite prefix_longer in HP. discriminate HP.
Qed.

(** ** Uploads to the local storage *)

Section LocalUploads.

Variable path_of : string -> string.

Implicit Types (w : LocalStorage.world) (m : Metadata).

Abbreviation upath := (LocalStorage.path path_of).
Abbreviation tmp_of m := (LocalStorage.to_tmp (LocalStorage.path path_of m)).

(** [start_upload] returns only when the temporary file could be created
    and the status file written. *)
Lemma start_upload_returns m w w1 :
  LocalStorage.start_upload path_of m w = (w1, Return tt) ->
  LocalStorage.can_hold (LocalStorage.fs w) (tmp_of m) = true
  /\ LocalStorage.status_writable w = true
  /\ w1 = LocalStorage.with_status (<[upath m := "pending"]> (LocalStorage.status_data w))
            (LocalStorage.with_fs
               (fun f => <[tmp_of m := LocalStorage.mkFile [] (LocalStorage.now w)]> f) w).
Proof.
  unfold LocalStorage.start_upload, LocalStorage.os_create, os_guard, try_except, bind.
  destruct (LocalStorage.can_hold (LocalStorage.fs w) (tmp_of m)); [|discriminate].
  rewrite set_status_spec. cbn.
  destruct (LocalStorage.status_writable w); [|discriminate].
  intros Hrun. injection Hrun as <-. repeat split.
Qed.

Lemma start_upload_spec m w :
  LocalStorage.can_hold (LocalStorage.fs w) (tmp_of m) = true ->
  LocalStorage.status_writable w = true ->
  LocalStorage.start_upload path_of m w
  = (LocalStorage.with_status (<[upath m := "pending"]> (LocalStorage.status_data w))
       (LocalStorage.with_fs
          (fun f => <[tmp_of m := LocalStorage.mkFile [] (LocalStorage.now w)]> f) w),
     Return tt).
Proof.
  intros Hc Hw.
  unfold LocalStorage.start_upload, LocalStorage.os_create, os_guard, try_except, bind.
  rewrite Hc. rewrite set_status_spec. cbn. rewrite Hw. reflexivity.
Qed.

(** When the temporary file cannot be created, because its path lies below
    a regular file or is a directory, [start_upload] raises [ServiceError]:
    nothing is created and nothing is recorded. *)
Lemma start_upload_blocked m w :
  LocalStorage.can_hold (LocalStorage.fs w) (tmp_of m) = false ->
  LocalStorage.start_upload path_of m w = (w, Raise ServiceError).
Proof.
  intros Hc.
  unfold LocalStorage.start_upload, LocalStorage.os_create, os_guard, try_except, bind.
  rewrite Hc. reflexivity.
Qed.

Lemma upload_chunk_spec m (o : Z) (k : bytes) w (f : LocalStorage.file) :
  LocalStorage.fs w !! tmp_of m = Some f -> 0 <= o ->
  LocalStorage.upload_chunk path_of m o k w
  = (LocalStorage.with_fs
       (fun fs_ => <[tmp_of m := LocalStorage.mkFile
                                    (LocalStorage.file_write (LocalStorage.content f) o k)
                                    (LocalStorage.now w)]> fs_) w,
     Return tt).
Proof.
  intros Hf Ho. unfold LocalStorage.upload_chunk, os_guard, try_except.
  rewrite Hf. destruct (Z.ltb_spec o 0); [lia|reflexivity].
Qed.

(** Chunks sent in ascending order, each where the previous one ended,
    append to the temporary file. *)
Lemma upload_chunks_append m (cs : list bytes) w (f : LocalStorage.file) :
  LocalStorage.fs w !! tmp_of m = Some f ->
  exists mt,
    for_each (chunks_from (Z.of_nat (length (LocalStorage.content f))) cs)
      (fun oc => LocalStorage.upload_chunk path_of m oc.1 oc.2) w
    = (LocalStorage.with_fs
         (fun fs_ => <[tmp_of m := LocalStorage.mkFile
                                      (LocalStorage.content f ++ concat cs) mt]> fs_) w,
       Return tt).
Proof.
  revert w f. induction cs as [|c cs IH]; intros w f Hf.
  - exists (LocalStorage.mtime f). cbn. rewrite app_nil_r. unfold ret. f_equal.
    destruct w as [fs0 ? ? ? ? ?], f as [c0 t0]. unfold LocalStorage.with_fs. cbn in *.
    rewrite insert_id by exact Hf. reflexivity.
  - cbn [chunks_from for_each]. unfold bind at 1. cbn [fst snd].
    rewrite (upload_chunk_spec _ _ _ _ _ Hf) by lia.
    rewrite file_write_at_end.
    match goal with |- context [for_each _ _ ?w1] => set (w1' := w1) end.
    destruct (IH w1' (LocalStorage.mkFile (LocalStorage.content f ++ c) (LocalStorage.now w)))
      as [mt Hrest].
    { unfold w1'. cbn. apply lookup_insert_eq. }
    cbn [LocalStorage.content] in Hrest.
    rewrite length_app, Nat2Z.inj_add in Hrest. rewrite Hrest.
    exists mt. f_equal. unfold w1', LocalStorage.with_fs. cbn.
    rewrite insert_insert_eq, <- app_assoc. reflexivity.
Qed.

(** [end_upload] returns only when the temporary file was there, the
    target path could take it and the status file could be written. *)
Lemma local_end_upload_returns (win : bool) m w w' m' :
  LocalStorage.end_upload path_of win m w = (w', Return m') ->
  (exists f, LocalStorage.fs w !! tmp_of m = Some f)
  /\ LocalStorage.can_hold (LocalStorage.fs w) (upath m) = true
  /\ LocalStorage.status_writable w = true.
Proof.
  intros Hrun. unfold_local Hrun.
  repeat (destruct_test Hrun; cbn in Hrun; try discriminate).
  all: repeat match goal with
         | E : delete _ _ !! _ = Some _ |- _ =>
             apply lookup_delete_Some in E as [_ E]
         | E : LocalStorage.can_hold (delete _ _) _ = true |- _ =>
             rewrite can_hold_delete_self in E
         end.
  all: split; [eauto|split; first [assumption|reflexivity]].
Qed.

Lemma local_end_upload_spec (win : bool) m w (f : LocalStorage.file) :
  LocalStorage.fs w !! tmp_of m = Some f ->
  LocalStorage.can_hold (LocalStorage.fs w) (upath m) = true ->
  exists w',
    LocalStorage.end_upload path_of win m w
    = (w', if LocalStorage.status_writable w
           then Return (set_extra m (<["revision" := VNum (LocalStorage.mtime f)]> (extra m)))
           else Raise ServiceError)
    /\ LocalStorage.fs w' !! upath m = Some f
    /\ LocalStorage.fs w' !! tmp_of m = None
    /\ (forall p, p <> upath m -> p <> tmp_of m ->
          LocalStorage.fs w' !! p = LocalStorage.fs w !! p)
    /\ LocalStorage.store w'
       = <[filename m := set_extra m (<["revision" := VNum (LocalStorage.mtime f)]> (extra m))]>
           (LocalStorage.store w)
    /\ LocalStorage.plug_calls w' = LocalStorage.plug_calls w
    /\ LocalStorage.status_writable w' = LocalStorage.status_writable w
    /\ (LocalStorage.status_writable w = true ->
          LocalStorage.status_data w' = <[upath m := "synced"]> (LocalStorage.status_data w))
    /\ (LocalStorage.status_writable w = false ->
          LocalStorage.status_file w' = LocalStorage.status_file w).
Proof.
  intros Hf Hc. pose proof (to_tmp_neq (upath m)) as Hne.
  unfold LocalStorage.end_upload, LocalStorage.write, LocalStorage.os_unlink,
    LocalStorage.os_rename, LocalStorage.os_getmtime, os_guard, try_except,
    bind, ret, raise, modify.
  destruct win; cbn.
  - destruct (LocalStorage.fs w !! upath m) as [g|] eqn:Hg; cbn.
    + rewrite lookup_delete_ne by congruence. rewrite Hf. cbn.
      rewrite can_hold_delete_self, Hc. cbn.
      rewrite lookup_insert_eq. cbn. rewrite set_status_spec. cbn.
      destruct (LocalStorage.status_writable w) eqn:Hw; eexists; (split; [reflexivity|]); cbn;
        (split; [apply lookup_insert_eq|]);
        (split; [rewrite lookup_insert_ne by congruence; apply lookup_delete_eq|]);
        (split; [intros p Hp1 Hp2;
                 rewrite lookup_insert_ne, !lookup_delete_ne by congruence; reflexivity|]);
        repeat split; intros; first [reflexivity|discriminate|congruence].
    + rewrite Hf. cbn. rewrite Hc. cbn.
      rewrite lookup_insert_eq. cbn. rewrite set_status_spec. cbn.
      destruct (LocalStorage.status_writable w) eqn:Hw; eexists; (split; [reflexivity|]); cbn;
        (split; [apply lookup_insert_eq|]);
        (split; [rewrite lookup_insert_ne by congruence; apply lookup_delete_eq|]);
        (split; [intros p Hp1 Hp2;
                 rewrite lookup_insert_ne, !lookup_delete_ne by congruence; reflexivity|]);
        repeat split; intros; first [reflexivity|discriminate|congruence].
  - rewrite Hf. cbn. rewrite Hc. cbn.
    rewrite lookup_insert_eq. cbn. rewrite set_status_spec. cbn.
    destruct (LocalStorage.status_writable w) eqn:Hw; eexists; (split; [reflexivity|]); cbn;
      (split; [apply lookup_insert_eq|]);
      (split; [rewrite lookup_insert_ne by congruence; apply lookup_delete_eq|]);
      (split; [intros p Hp1 Hp2;
               rewrite lookup_insert_ne, !lookup_delete_ne by congruence; reflexivity|]);
      repeat split; intros; first [reflexivity|discriminate|congruence].
Qed.

(** X3. A file uploaded to the local storage arrives whole: when
    [start_upload], the chunks sent in ascending order and [end_upload]
    have returned, [get_chunk] reads back the concatenation of the chunks
    from the target path (for a file small enough to be read at once), the
    temporary file is gone, every other file is as it was, the status of
    the target is ["synced"], and the stored record carries the mtime of
    the new file as its [revision]. *)
Theorem local_upload_round_trip (win : bool) (read_limit : Z) m (cs : list bytes) w w' m' :
  (LocalStorage.start_upload path_of m ;;;
   for_each (chunks_from 0 cs)
     (fun oc => LocalStorage.upload_chunk path_of m oc.1 oc.2) ;;;
   LocalStorage.end_upload path_of win m) w = (w', Return m') ->
  Z.of_nat (length (concat cs)) <= read_limit ->
  read_limit < 2 ^ 63 - 33 ->
  exists f' : LocalStorage.file,
    LocalStorage.get_chunk path_of read_limit m 0 (Z.of_nat (length (concat cs))) w'
    = (w', Return (concat cs))
    /\ LocalStorage.fs w' !! upath m = Some f'
    /\ LocalStorage.content f' = concat cs
    /\ LocalStorage.fs w' !! tmp_of m = None
    /\ (forall p, p <> upath m -> p <> tmp_of m ->
          LocalStorage.fs w' !! p = LocalStorage.fs w !! p)
    /\ LocalStorage.status_data w' !! upath m = Some "synced"
    /\ LocalStorage.store w' !! filename m = Some m'
    /\ m' = set_extra m (<["revision" := VNum (LocalStorage.mtime f')]> (extra m)).
Proof.
  intros Hrun Hlen Hlim. unfold bind at 1 in Hrun.
  destruct (LocalStorage.start_upload path_of m w) as [w1 [e|[]]] eqn:Hstart;
    [discriminate|].
  apply start_upload_returns in Hstart as (_ & Hw & ->).
  set (w1 := LocalStorage.with_status _ _) in Hrun.
  destruct (upload_chunks_append m cs w1 (LocalStorage.mkFile [] (LocalStorage.now w)))
    as [mt Hchunks]; [apply lookup_insert_eq|].
  cbn [LocalStorage.content length app] in Hchunks.
  change (Z.of_nat 0) with 0 in Hchunks.
  unfold bind at 1 in Hrun. rewrite Hchunks in Hrun.
  set (w2 := LocalStorage.with_fs _ w1) in Hrun.
  set (f' := LocalStorage.mkFile (concat cs) mt).
  destruct (local_end_upload_returns _ _ _ _ _ Hrun) as (_ & Hc & _).
  destruct (local_end_upload_spec win m w2 f') as (w0 & Hend & Hnew & Htmp & Hother & Hstore
                                                  & _ & _ & Hstatus & _);
    [apply lookup_insert_eq|exact Hc|].
  change (LocalStorage.status_writable w2) with (LocalStorage.status_writable w) in *.
  rewrite Hw in Hend. rewrite Hend in Hrun. injection Hrun as <- <-.
  exists f'. split.
  { unfold LocalStorage.get_chunk, os_guard, try_except. rewrite Hnew. unfold f'. cbn.
    destruct (file_read_length read_limit (concat cs) 0 (Z.of_nat (length (concat cs))))
      as (chunk & -> & -> & _); [lia|lia|exact Hlim|].
    change (Z.to_nat 0) with 0%nat.
    rewrite drop_0, Nat2Z.id, take_ge by lia. reflexivity. }
  split; [exact Hnew|]. split; [reflexivity|]. split; [exact Htmp|]. split.
  { intros p Hp1 Hp2. rewrite (Hother p Hp1 Hp2). unfold w2, w1. cbn.
    rewrite !lookup_insert_ne by congruence. reflexivity. }
  split; [rewrite (Hstatus Hw); apply lookup_insert_eq|].
  split; [rewrite Hstore; apply lookup_insert_eq|reflexivity].
Qed.

(** X4. Sending a chunk of an upload once more, at the same offset, leaves
    the bytes of the temporary file, every other file, the status map and the
    store as the first write left them. *)
Theorem local_upload_chunk_replay m (o : Z) (k : bytes) w w1 :
  LocalStorage.upload_chunk path_of m o k w = (w1, Return tt) ->
  exists w2,
    LocalStorage.upload_chunk path_of m o k w1 = (w2, Return tt)
    /\ LocalStorage.content <$> LocalStorage.fs w2 !! tmp_of m
       = LocalStorage.content <$> LocalStorage.fs w1 !! tmp_of m
    /\ (forall p, p <> tmp_of m -> LocalStorage.fs w2 !! p = LocalStorage.fs w1 !! p)
    /\ LocalStorage.status_file w2 = LocalStorage.status_file w1
    /\ LocalStorage.store w2 = LocalStorage.store w1
    /\ LocalStorage.plug_calls w2 = LocalStorage.plug_calls w1.
Proof.
  intros Hrun. unfold LocalStorage.upload_chunk, os_guard, try_except in Hrun.
  destruct (LocalStorage.fs w !! tmp_of m) as [f|] eqn:Hf; [|discriminate].
  destruct (Z.ltb_spec o 0) as [|Ho]; [discriminate|]. injection Hrun as <-.
  eexists. split.
  { apply upload_chunk_spec; [apply lookup_insert_eq|exact Ho]. }
  cbn. rewrite !lookup_insert_eq. cbn. rewrite file_write_twice.
  repeat split. intros p Hp. rewrite !lookup_insert_ne by congruence. reflexivity.
Qed.

(** X5. [abort_upload] after a [start_upload] that returned discards the
    upload: the files are those from before the upload and the target has
    no status; a second [abort_upload] finds no temporary file and raises
    [ServiceError], changing nothing. *)
Theorem local_abort_upload_discards_the_upload m w w1 :
  LocalStorage.start_upload path_of m w = (w1, Return tt) ->
  LocalStorage.fs w !! tmp_of m = None ->
  exists w2,
    LocalStorage.abort_upload path_of m w1 = (w2, Return tt)
    /\ LocalStorage.fs w2 = LocalStorage.fs w
    /\ LocalStorage.status_data w2 = delete (upath m) (LocalStorage.status_data w)
    /\ LocalStorage.store w2 = LocalStorage.store w
    /\ LocalStorage.abort_upload path_of m w2 = (w2, Raise ServiceError).
Proof.
  intros Hstart Hnone. apply start_upload_returns in Hstart as (_ & Hw & ->).
  eexists.
  unfold LocalStorage.abort_upload, LocalStorage.os_unlink, os_guard, try_except, bind.
  cbn. rewrite lookup_insert_eq. cbn. rewrite set_status_spec. cbn. rewrite Hw.
  split; [reflexivity|]. cbn. rewrite delete_insert_id by exact Hnone.
  rewrite delete_insert_eq. repeat split. rewrite Hnone. reflexivity.
Qed.

Lemma upload_chunk_keeps_tmp m (o : Z) (k : bytes) w w1 :
  LocalStorage.upload_chunk path_of m o k w = (w1, Return tt) ->
  is_Some (LocalStorage.fs w1 !! tmp_of m)
  /\ LocalStorage.store w1 = LocalStorage.store w
  /\ LocalStorage.plug_calls w1 = LocalStorage.plug_calls w.
Proof.
  intros Hrun. unfold LocalStorage.upload_chunk, os_guard, try_except in Hrun.
  destruct (LocalStorage.fs w !! tmp_of m) as [f|] eqn:Hf; [|discriminate].
  destruct (o <? 0); [discriminate|]. injection Hrun as <-. cbn.
  rewrite lookup_insert_eq. eauto.
Qed.

(** X6. While an upload is in progress (after [start_upload] and any chunks
    written so far, at whatever offsets), [update] on the target path
    reports nothing to the plug and changes nothing: the watcher's events
    about a file being received are dropped. *)
Theorem update_is_silent_during_upload m m0 (chunks : list (Z * bytes)) (mt : option Z) w w1 :
  (LocalStorage.start_upload path_of m ;;;
   for_each chunks (fun oc => LocalStorage.upload_chunk path_of m oc.1 oc.2)) w
  = (w1, Return tt) ->
  upath m0 = upath m ->
  LocalStorage.update path_of m0 mt w1 = (w1, Return tt)
  /\ LocalStorage.plug_calls w1 = LocalStorage.plug_calls w
  /\ LocalStorage.store w1 = LocalStorage.store w.
Proof.
  intros Hrun Hpath. unfold bind at 1 in Hrun.
  destruct (LocalStorage.start_upload path_of m w) as [w0 [e|[]]] eqn:Hstart; [discriminate|].
  assert (Hinv : is_Some (LocalStorage.fs w0 !! tmp_of m)
                 /\ LocalStorage.store w0 = LocalStorage.store w
                 /\ LocalStorage.plug_calls w0 = LocalStorage.plug_calls w).
  { apply start_upload_returns in Hstart as (_ & _ & ->). cbn.
    rewrite lookup_insert_eq. eauto. }
  clear Hstart. revert w0 Hinv Hrun.
  induction chunks as [|[o k] chunks IH]; intros w0 (Htmp & Hst & Hcalls) Hrun.
  - injection Hrun as <-. split; [|split; assumption].
    unfold LocalStorage.update, bind, get. rewrite Hpath.
    rewrite bool_decide_eq_true_2 by exact Htmp. reflexivity.
  - cbn [for_each] in Hrun. unfold bind at 1 in Hrun. cbn [fst snd] in Hrun.
    destruct (LocalStorage.upload_chunk path_of m o k w0) as [w0' [e|[]]] eqn:Hchunk;
      [discriminate|].
    destruct (upload_chunk_keeps_tmp _ _ _ _ _ Hchunk) as (Htmp' & Hst' & Hcalls').
    apply (IH w0'); [|exact Hrun]. repeat split; [exact Htmp'|congruence|congruence].
Qed.


(** X8. The local [move_file] on a regular file: when it returns, the
    status file could be written, the destination holds the file that was
    at the source, the source is gone (when it is another path) and every
    other file is as it was; when the destination lies below a regular
    file or is a directory, it raises [ServiceError] and changes
    nothing. *)
Theorem local_move_file_moves_the_file old new w (f : LocalStorage.file) :
  LocalStorage.fs w !! upath old = Some f ->
  (forall w', LocalStorage.move_file path_of old new w = (w', Return tt) ->
     LocalStorage.status_writable w = true
     /\ LocalStorage.fs w' !! upath new = Some f
     /\ (upath new <> upath old -> LocalStorage.fs w' !! upath old = None)
     /\ (forall p, p <> upath old -> p <> upath new ->
           LocalStorage.fs w' !! p = LocalStorage.fs w !! p))
  /\ (LocalStorage.can_hold (LocalStorage.fs w) (upath new) = false ->
      LocalStorage.move_file path_of old new w = (w, Raise ServiceError)).
Proof.
  intros Hf. split.
  - intros w' Hrun.
    destruct (local_move_file_spec _ _ _ _ _ Hrun) as (f0 & Hf0 & Hfs & _).
    rewrite Hf in Hf0. injection Hf0 as <-.
    split.
    { unfold_local Hrun. rewrite Hf in Hrun. cbn in Hrun.
      destruct (LocalStorage.can_hold _ _); cbn in Hrun; [|discriminate].
      destruct (LocalStorage.status_writable w); [reflexivity|discriminate]. }
    rewrite Hfs. split; [apply lookup_insert_eq|]. split.
    + intros Hne. rewrite lookup_insert_ne by exact Hne. apply lookup_delete_eq.
    + intros p Hp1 Hp2. rewrite lookup_insert_ne, lookup_delete_ne by congruence. reflexivity.
  - intros Hc.
    unfold LocalStorage.move_file, LocalStorage.os_rename, os_guard, try_except, bind.
    rewrite Hf, Hc. reflexivity.
Qed.

End LocalUploads.

(** ** The startup scan of the local storage, file by file *)

Section LocalScan.

Variable path_of : string -> string.
Variable plug_name : string.

Implicit Types (w : LocalStorage.world) (m : Metadata).

(** One turn of the first loop of [check_changes]. *)
Lemma scan_files_cons (root p : string) (rest : list string) (expected : gset string) w :
  LocalStorage.scan_files path_of root (p :: rest) expected w
  = if String.eqb (snd (OsPath.splitext p)) LocalStorage.TMP_EXT
    then LocalStorage.scan_files path_of root rest expected w
    else
      let f := LocalStorage.relpath root p in
      let m := record_of (LocalStorage.store w) f in
      match stored_revision (LocalStorage.store w) f with
      | None => (w, Raise TypeError)
      | Some revision =>
          match LocalStorage.fs w !! p with
          | None => (w, Raise ServiceError)
          | Some file =>
              match (if LocalStorage.mtime file >? revision
                     then LocalStorage.update path_of m (Some (LocalStorage.mtime file))
                     else LocalStorage.set_status (LocalStorage.path path_of m)
                            (Some "synced")) w with
              | (w1, Raise e) => (w1, Raise e)
              | (w1, Return _) =>
                  LocalStorage.scan_files path_of root rest (expected ∖ {[f]}) w1
              end
          end
      end.
Proof.
  cbn [LocalStorage.scan_files].
  destruct (String.eqb _ LocalStorage.TMP_EXT); [reflexivity|].
  unfold bind at 1. rewrite plug_get_metadata_spec. cbv zeta.
  unfold stored_revision.
  destruct (extra (record_of (LocalStorage.store w) (LocalStorage.relpath root p))
              !! "revision") as [[s|r]|]; [reflexivity| |];
    unfold bind at 1; unfold ret at 1;
    unfold bind at 1; unfold os_guard, try_except, LocalStorage.os_getmtime;
    (destruct (LocalStorage.fs w !! p) as [file|]; [|reflexivity]);
    unfold bind; reflexivity.
Qed.

(** The names left in [expected_files] by the first loop were expected
    before it, and none of them belongs to a file the loop has seen. *)
Lemma scan_files_discards (root : string) (paths : list string)
    (expected expected' : gset string) w w' :
  LocalStorage.scan_files path_of root paths expected w = (w', Return expected') ->
  expected' ⊆ expected
  /\ forall p, p ∈ paths -> snd (OsPath.splitext p) <> LocalStorage.TMP_EXT ->
       LocalStorage.relpath root p ∉ expected'.
Proof.
  revert expected w. induction paths as [|p paths IH]; intros expected w Hrun.
  - injection Hrun as <- <-. split; [reflexivity|]. intros p Hp. inversion Hp.
  - rewrite scan_files_cons in Hrun.
    destruct (String.eqb _ LocalStorage.TMP_EXT) eqn:Hext.
    + destruct (IH _ _ Hrun) as [Hsub Hseen]. split; [exact Hsub|].
      intros q Hq Hq'. apply elem_of_cons in Hq as [->|Hq]; [|exact (Hseen q Hq Hq')].
      apply String.eqb_eq in Hext. contradiction.
    + cbv zeta in Hrun.
      destruct (stored_revision _ _) as [revision|]; [|discriminate].
      destruct (LocalStorage.fs w !! p) as [file|]; [|discriminate].
      match type of Hrun with
      | context [let (_, _) := ?c in _] => destruct c as [w1 [e|[]]]
      end; [discriminate|].
      destruct (IH _ _ Hrun) as [Hsub Hseen]. split.
      { intros x Hx. apply Hsub, elem_of_difference in Hx as [Hx _]. exact Hx. }
      intros q Hq Hq'. apply elem_of_cons in Hq as [->|Hq]; [|exact (Hseen q Hq Hq')].
      intros Hx. apply Hsub, elem_of_difference in Hx as [_ Hx].
      apply Hx, elem_of_singleton. reflexivity.
Qed.

Lemma walkfiles_elem (root p : string) w :
  p ∈ LocalStorage.walkfiles root w
  <-> String.prefix (LocalStorage.below root) p = true /\ is_Some (LocalStorage.fs w !! p).
Proof.
  unfold LocalStorage.walkfiles. rewrite list_elem_of_filter, Is_true_true.
  split; intros [Hprefix Hin]; (split; [exact Hprefix|]).
  - apply list_elem_of_In, in_map_iff in Hin as ([k v] & <- & Hkv).
    apply list_elem_of_In, elem_of_map_to_list in Hkv. cbn. eauto.
  - destruct Hin as [v Hv]. apply list_elem_of_In, in_map_iff. exists (p, v).
    split; [reflexivity|]. apply list_elem_of_In, elem_of_map_to_list. exact Hv.
Qed.

(** X9. The startup scan never reports the deletion of a file that is on
    disk below the folder (and is not a temporary file of the driver),
    whatever the store records about it. *)
Theorem check_changes_keeps_files_on_disk (root : string) w w' (f : string)
    (new : list plug_call) m' :
  store_wf (LocalStorage.store w) ->
  LocalStorage.check_changes path_of plug_name root w = (w', Return tt) ->
  is_Some (LocalStorage.fs w !! (LocalStorage.below root +:+ f)) ->
  snd (OsPath.splitext (LocalStorage.below root +:+ f)) <> LocalStorage.TMP_EXT ->
  LocalStorage.plug_calls w' = LocalStorage.plug_calls w ++ new ->
  PlugDeleteFile m' ∈ new ->
  filename m' <> f.
Proof.
  intros Hwf Hrun Hdisk Hext Hnew Hin Hname.
  unfold LocalStorage.check_changes in Hrun. unfold bind at 1 in Hrun. unfold get in Hrun.
  unfold bind at 1 in Hrun.
  destruct (LocalStorage.scan_files _ _ _ _ w) as [w1 [e|expected]] eqn:Hscan;
    [discriminate|].
  rewrite report_missing_loop in Hrun. injection Hrun as <-. cbn in Hnew.
  destruct (scan_files_spec _ _ _ _ _ _ _ Hwf Hscan) as (Hwf1 & _ & _ & us & Hcalls & Hus).
  destruct (scan_files_discards _ _ _ _ _ _ Hscan) as [_ Hseen].
  rewrite Hcalls, <- app_assoc in Hnew. apply app_inv_head in Hnew. subst new.
  apply elem_of_app in Hin as [Hin|Hin].
  - rewrite Forall_forall in Hus. exact (Hus _ Hin).
  - apply list_elem_of_omap in Hin as (g & Hg & Hsome). unfold deletion_of in Hsome.
    case_bool_decide; [|discriminate]. injection Hsome as <-.
    rewrite record_of_filename in Hname by exact Hwf1. subst g.
    apply elem_of_elements in Hg.
    apply (Hseen (LocalStorage.below root +:+ f)).
    + apply walkfiles_elem. split; [apply prefix_append|exact Hdisk].
    + exact Hext.
    + unfold LocalStorage.relpath. rewrite string_drop_append. exact Hg.
Qed.

(** A scan over files none of which is newer than its record only marks
    them synced. *)
Lemma scan_files_in_sync (root : string) (paths : list string) (expected : gset string) w :
  store_wf (LocalStorage.store w) ->
  LocalStorage.status_writable w = true ->
  (forall p, p ∈ paths -> snd (OsPath.splitext p) <> LocalStorage.TMP_EXT ->
     exists (file : LocalStorage.file) (r : Z),
       LocalStorage.fs w !! p = Some file
       /\ stored_revision (LocalStorage.store w) (LocalStorage.relpath root p) = Some r
       /\ LocalStorage.mtime file <= r) ->
  exists w' expected',
    LocalStorage.scan_files path_of root paths expected w = (w', Return expected')
    /\ LocalStorage.fs w' = LocalStorage.fs w
    /\ LocalStorage.store w' = LocalStorage.store w
    /\ LocalStorage.plug_calls w' = LocalStorage.plug_calls w
    /\ (forall q, LocalStorage.status_data w !! q = Some "synced" ->
          LocalStorage.status_data w' !! q = Some "synced")
    /\ (forall p, p ∈ paths -> snd (OsPath.splitext p) <> LocalStorage.TMP_EXT ->
          LocalStorage.status_data w' !! path_of (LocalStorage.relpath root p)
          = Some "synced").
Proof.
  revert expected w. induction paths as [|p paths IH]; intros expected w Hwf Hw Hsync.
  - exists w, expected. repeat split; auto. intros p Hp. inversion Hp.
  - rewrite scan_files_cons.
    assert (Hrest : forall q, q ∈ paths ->
              snd (OsPath.splitext q) <> LocalStorage.TMP_EXT ->
              exists (file : LocalStorage.file) (r : Z),
                LocalStorage.fs w !! q = Some file
                /\ stored_revision (LocalStorage.store w) (LocalStorage.relpath root q) = Some r
                /\ LocalStorage.mtime file <= r)
      by (intros q Hq; apply Hsync; right; exact Hq).
    destruct (String.eqb _ LocalStorage.TMP_EXT) eqn:Hext.
    + destruct (IH expected w Hwf Hw Hrest) as (w' & e' & Hrun & Hfs & Hst & Hcalls & Hmono & Hall).
      exists w', e'. repeat split; auto.
      intros q Hq Hq'. apply elem_of_cons in Hq as [->|Hq]; [|exact (Hall q Hq Hq')].
      apply String.eqb_eq in Hext. contradiction.
    + assert (Hp : snd (OsPath.splitext p) <> LocalStorage.TMP_EXT)
        by (intros E; rewrite E, String.eqb_refl in Hext; discriminate).
      destruct (Hsync p ltac:(left) Hp) as (file & r & Hfile & Hrev & Hle).
      cbv zeta. rewrite Hrev, Hfile.
      destruct (Z.gtb_spec (LocalStorage.mtime file) r) as [|_]; [lia|].
      rewrite set_status_spec, Hw.
      set (w1 := LocalStorage.with_status _ w).
      destruct (IH (expected ∖ {[LocalStorage.relpath root p]}) w1 Hwf Hw Hrest)
        as (w' & e' & Hrun & Hfs & Hst & Hcalls & Hmono & Hall).
      exists w', e'. split; [exact Hrun|]. repeat split; auto.
      * intros q Hq. apply Hmono. unfold w1. cbn.
        destruct (decide (LocalStorage.path path_of
                            (record_of (LocalStorage.store w) (LocalStorage.relpath root p)) = q))
          as [->|Hne]; [apply lookup_insert_eq|].
        rewrite lookup_insert_ne by exact Hne. exact Hq.
      * intros q Hq Hq'. apply elem_of_cons in Hq as [->|Hq]; [|exact (Hall q Hq Hq')].
        apply Hmono. unfold w1, LocalStorage.path. cbn.
        rewrite record_of_filename by exact Hwf. apply lookup_insert_eq.
Qed.

(** X10. On a folder where no file is newer than the revision recorded for
    it, the startup scan runs to its end, reports no update to the plug
    (only deletions of recorded files that are missing), leaves the files
    and the store as they are, and marks every file it has seen
    ["synced"]. *)
Theorem check_changes_quiet_when_in_sync (root : string) w :
  store_wf (LocalStorage.store w) ->
  LocalStorage.status_writable w = true ->
  (forall p (file : LocalStorage.file),
     LocalStorage.fs w !! p = Some file ->
     String.prefix (LocalStorage.below root) p = true ->
     snd (OsPath.splitext p) <> LocalStorage.TMP_EXT ->
     exists r, stored_revision (LocalStorage.store w) (LocalStorage.relpath root p) = Some r
               /\ LocalStorage.mtime file <= r) ->
  exists w' new,
    LocalStorage.check_changes path_of plug_name root w = (w', Return tt)
    /\ LocalStorage.fs w' = LocalStorage.fs w
    /\ LocalStorage.store w' = LocalStorage.store w
    /\ LocalStorage.plug_calls w' = LocalStorage.plug_calls w ++ new
    /\ Forall is_deletion new
    /\ (forall p, is_Some (LocalStorage.fs w !! p) ->
          String.prefix (LocalStorage.below root) p = true ->
          snd (OsPath.splitext p) <> LocalStorage.TMP_EXT ->
          LocalStorage.status_data w' !! path_of (LocalStorage.relpath root p)
          = Some "synced").
Proof.
  intros Hwf Hw Hsync.
  destruct (scan_files_in_sync root (LocalStorage.walkfiles root w)
              (LocalStorage.plug_list w) w Hwf Hw)
    as (w1 & e1 & Hscan & Hfs & Hst & Hcalls & _ & Hall).
  { intros p Hp Hext. apply walkfiles_elem in Hp as [Hprefix [file Hfile]].
    destruct (Hsync p file Hfile Hprefix Hext) as (r & Hr & Hle). eauto. }
  unfold LocalStorage.check_changes. unfold bind at 1. unfold get.
  unfold bind at 1. rewrite Hscan, report_missing_loop.
  eexists. exists (omap (deletion_of plug_name (LocalStorage.store w1)) (elements e1)).
  split; [reflexivity|]. cbn. split; [exact Hfs|]. split; [exact Hst|].
  split; [rewrite Hcalls; reflexivity|]. split.
  - apply Forall_forall. intros c Hc.
    apply list_elem_of_omap in Hc as (g & _ & Hsome). unfold deletion_of in Hsome.
    case_bool_decide; [|discriminate]. injection Hsome as <-. exact I.
  - intros p Hp Hprefix Hext.
    change (LocalStorage.status_data w1 !! path_of (LocalStorage.relpath root p) = Some "synced").
    apply Hall; [|exact Hext]. apply walkfiles_elem. split; assumption.
Qed.






Lemma update_calls m (mt : option Z) w w' :
  LocalStorage.update path_of m mt w = (w', Return tt) ->
  LocalStorage.plug_calls w' = LocalStorage.plug_calls w
  \/ exists m', LocalStorage.plug_calls w' = LocalStorage.plug_calls w ++ [PlugUpdateFile m']
                 /\ filename m' = filename m.
Proof.
  intros Hrun. unfold LocalStorage.update in Hrun. unfold bind at 1 in Hrun.
  unfold get in Hrun. case_bool_decide; [injection Hrun as <-; left; reflexivity|].
  unfold bind at 1 in Hrun.
  destruct (os_guard _ w) as [w1 [e|m']] eqn:Hguard; [discriminate|].
  assert (w1 = w /\ filename m' = filename m) as [-> Hfn].
  { unfold os_guard, try_except, bind, ret, raise, LocalStorage.os_getsize,
      LocalStorage.os_getmtime in Hguard.
    repeat (destruct_test Hguard; cbn in Hguard; try discriminate);
      injection Hguard as <- <-; split; reflexivity. }
  unfold LocalStorage.plug_update_file, LocalStorage.write, bind, modify in Hrun.
  cbn in Hrun. rewrite set_status_spec in Hrun. cbn in Hrun.
  destruct (LocalStorage.status_writable w); [|discriminate].
  injection Hrun as <-. right. exists m'. split; [reflexivity|exact Hfn].
Qed.

Lemma scan_files_updates_seen (root : string) (paths : list string)
    (expected expected' : gset string) w w' :
  store_wf (LocalStorage.store w) ->
  LocalStorage.scan_files path_of root paths expected w = (w', Return expected') ->
  exists us,
    LocalStorage.plug_calls w' = LocalStorage.plug_calls w ++ us
    /\ Forall (fun c => exists m' p,
                 c = PlugUpdateFile m' /\ p ∈ paths
                 /\ snd (OsPath.splitext p) <> LocalStorage.TMP_EXT
                 /\ filename m' = LocalStorage.relpath root p) us.
Proof.
  revert expected w. induction paths as [|p paths IH]; intros expected w Hwf Hrun.
  - injection Hrun as <- _. exists []. rewrite app_nil_r. split; [reflexivity|constructor].
  - assert (Hweaken : forall us,
              Forall (fun c => exists m' q,
                        c = PlugUpdateFile m' /\ q ∈ paths
                        /\ snd (OsPath.splitext q) <> LocalStorage.TMP_EXT
                        /\ filename m' = LocalStorage.relpath root q) us ->
              Forall (fun c => exists m' q,
                        c = PlugUpdateFile m' /\ q ∈ p :: paths
                        /\ snd (OsPath.splitext q) <> LocalStorage.TMP_EXT
                        /\ filename m' = LocalStorage.relpath root q) us).
    { intros us Hus. eapply Forall_impl; [exact Hus|].
      intros c (m' & q & Hc & Hq & Hext & Hfn). exists m', q.
      split; [exact Hc|]. split; [right; exact Hq|]. auto. }
    rewrite scan_files_cons in Hrun.
    destruct (String.eqb _ LocalStorage.TMP_EXT) eqn:Hext.
    { destruct (IH _ _ Hwf Hrun) as (us & Hcalls & Hus). exists us. auto. }
    assert (Hp : snd (OsPath.splitext p) <> LocalStorage.TMP_EXT)
      by (intros E; rewrite E, String.eqb_refl in Hext; discriminate).
    cbv zeta in Hrun.
    destruct (stored_revision _ _) as [revision|]; [|discriminate].
    destruct (LocalStorage.fs w !! p) as [file|]; [|discriminate].
    match type of Hrun with
    | context [let (_, _) := ?c in _] => destruct c as [w1 [e|[]]] eqn:Hstep
    end; [discriminate|].
    set (m := record_of (LocalStorage.store w) (LocalStorage.relpath root p)) in *.
    assert (Hfn : filename m = LocalStorage.relpath root p)
      by (apply record_of_filename, Hwf).
    assert (Hone : scan_step w w1 (filename m)).
    { destruct (LocalStorage.mtime file >? revision);
        [exact (update_step _ _ _ _ _ Hstep)|exact (local_set_status_step _ _ _ _ _ Hstep)]. }
    destruct Hone as (_ & Hwf1 & _).
    destruct (IH _ _ (Hwf1 Hwf) Hrun) as (us & Hcalls & Hus).
    assert (Hmine : LocalStorage.plug_calls w1 = LocalStorage.plug_calls w
                    \/ exists m', LocalStorage.plug_calls w1
                                   = LocalStorage.plug_calls w ++ [PlugUpdateFile m']
                                   /\ filename m' = filename m).
    { destruct (LocalStorage.mtime file >? revision); [exact (update_calls _ _ _ _ Hstep)|].
      left. rewrite set_status_spec in Hstep.
      destruct (LocalStorage.status_writable w); [|discriminate].
      injection Hstep as <-. reflexivity. }
    destruct Hmine as [Hsame|(m' & Hmore & Hfn')].
    + exists us. rewrite Hcalls, Hsame. auto.
    + exists (PlugUpdateFile m' :: us). rewrite Hcalls, Hmore, <- app_assoc.
      split; [reflexivity|]. constructor; [|auto].
      exists m', p. split; [reflexivity|]. split; [left|]. split; [exact Hp|congruence].
Qed.

(** X12. The startup scan reports updates only for files it has found on
    disk below the folder, and never for a temporary file of the driver:
    every [plug.update_file] of a scan that completes is for the relative
    name of a file on disk whose extension is not [.onitu-tmp]. *)
Theorem check_changes_updates_only_files_on_disk (root : string) w w'
    (new : list plug_call) m' :
  store_wf (LocalStorage.store w) ->
  LocalStorage.check_changes path_of plug_name root w = (w', Return tt) ->
  LocalStorage.plug_calls w' = LocalStorage.plug_calls w ++ new ->
  PlugUpdateFile m' ∈ new ->
  let p := LocalStorage.below root +:+ filename m' in
  is_Some (LocalStorage.fs w !! p)
  /\ snd (OsPath.splitext p) <> LocalStorage.TMP_EXT.
Proof.
  intros Hwf Hrun Hnew Hin p.
  unfold LocalStorage.check_changes in Hrun. unfold bind at 1 in Hrun. unfold get in Hrun.
  unfold bind at 1 in Hrun.
  destruct (LocalStorage.scan_files _ _ _ _ w) as [w1 [e|expected]] eqn:Hscan;
    [discriminate|].
  rewrite report_missing_loop in Hrun. injection Hrun as <-. cbn in Hnew.
  destruct (scan_files_updates_seen _ _ _ _ _ _ Hwf Hscan) as (us & Hcalls & Hus).
  rewrite Hcalls, <- app_assoc in Hnew. apply app_inv_head in Hnew. subst new.
  apply elem_of_app in Hin as [Hin|Hin].
  - rewrite Forall_forall in Hus.
    destruct (Hus _ Hin) as (m0 & q & E & Hq & Hext & Hfn). injection E as <-.
    destruct (walked_paths_are_below _ _ _ Hq) as [Hqeq Hsome].
    unfold p. rewrite Hfn, <- Hqeq. auto.
  - apply list_elem_of_omap in Hin as (g & _ & Hsome). unfold deletion_of in Hsome.
    case_bool_decide; discriminate.
Qed.

End LocalScan.

(** * Further properties of the Dropbox driver *)

Section DropboxFurther.

Context {B : Type} `{Dropbox.Client B}.
Variables (root session_root : string) (format_path : string -> string).

Implicit Types (w : Dropbox.world (B:=B)) (m : Metadata).

Lemma string_append_nonempty (a b : string) : a <> "" -> a +:+ b <> "".
Proof. destruct a; [congruence|]. rewrite append_cons. discriminate. Qed.

Lemma root_prefixed_filename_nonempty (f : string) :
  Dropbox.root_prefixed_filename root f <> "".
Proof.
  unfold Dropbox.root_prefixed_filename. apply string_append_nonempty.
  destruct (OsPath.endswith_sep root) eqn:E; cbn.
  - destruct root; discriminate.
  - intros E'. apply (f_equal String.length) in E'.
    rewrite string_length_append in E'. cbn in E'. lia.
Qed.

(** The name a file is resolved to is never empty. *)
Lemma backend_name_truthy (db : gmap string string) m :
  str_truthy (backend_name root db m) = true.
Proof.
  unfold backend_name. destruct (db !! _) as [d|]; [destruct (str_truthy d) eqn:E|];
    try exact E; apply str_truthy_true, root_prefixed_filename_nonempty.
Qed.

Lemma remove_upload_id_fields m :
  filename (Dropbox.remove_upload_id m) = filename m
  /\ size (Dropbox.remove_upload_id m) = size m
  /\ extra (Dropbox.remove_upload_id m) = delete "upload_id" (extra m).
Proof.
  unfold Dropbox.remove_upload_id. destruct (extra m !! "upload_id") eqn:E; cbn.
  - repeat split.
  - repeat split. symmetry. apply delete_id, E.
Qed.

(** X13. The upload id Dropbox gives for a chunk is kept in the metadata
    and sent with the next chunk: after [upload_chunk] returns, the extras
    hold the id Dropbox answered, the record has been written exactly when
    that id was not yet the stored one, and the request of the following
    [upload_chunk] carries it. *)
Theorem dropbox_upload_chunk_carries_the_upload_id m (o o' : Z) (chunk chunk' : bytes)
    w w1 w2 m1 out :
  Dropbox.upload_chunk root m o chunk w = (w1, Return m1) ->
  Dropbox.upload_chunk root m1 o' chunk' w1 = (w2, out) ->
  exists (n : Z) (id : string),
    Dropbox.api_upload_chunk chunk o (extra m !! "upload_id") (Dropbox.client w)
    = (Dropbox.client w1, Return (n, id))
    /\ extra m1 = <["upload_id" := VStr id]> (extra m)
    /\ Dropbox.store w1
       = (if bool_decide (extra m !! "upload_id" = Some (VStr id))
          then Dropbox.store w
          else <[filename m := m1]> (Dropbox.store w))
    /\ Dropbox.requests w2
       = Dropbox.requests w
         ++ [Dropbox.ReqUploadChunk chunk o (extra m !! "upload_id");
             Dropbox.ReqUploadChunk chunk' o' (Some (VStr id))].
Proof.
  intros H1 H2.
  pose proof (upload_chunk_requests _ _ _ _ _ _ _ H1) as R1.
  pose proof (upload_chunk_requests _ _ _ _ _ _ _ H2) as R2.
  destruct (resolved_fields root w m) as (Rcl & Rrq & Rdb & Rst & _).
  unfold Dropbox.upload_chunk in H1. unfold bind at 1 in H1.
  rewrite get_dropbox_filename_spec in H1.
  unfold Dropbox.rest_guard, try_except, Dropbox.call, Dropbox.write, bind, ret,
    raise, modify in H1.
  rewrite Rcl in H1.
  destruct (Dropbox.api_upload_chunk chunk o (extra m !! "upload_id") (Dropbox.client w))
    as [b' [e|[n id]]] eqn:Hapi.
  { destruct (Dropbox.is_rest_error e); discriminate H1. }
  cbn [snd] in H1. exists n, id.
  destruct (bool_decide (extra m !! "upload_id" = Some (VStr id))) eqn:Hsame.
  - apply bool_decide_eq_true in Hsame. injection H1 as <- <-. cbn.
    split; [reflexivity|]. split; [symmetry; apply insert_id, Hsame|].
    split; [exact Rst|]. rewrite R2, R1, Hsame, <- app_assoc. reflexivity.
  - injection H1 as <- <-. cbn. split; [reflexivity|]. split; [reflexivity|].
    split; [rewrite Rst; reflexivity|].
    rewrite R2, R1, <- app_assoc. cbn. rewrite lookup_insert_eq. reflexivity.
Qed.

(** X14. [abort_upload] only forgets the upload id: it writes the record
    without it and sends nothing to Dropbox; the upload of a non-empty file
    cannot be ended afterwards, [end_upload] raising [DriverError] before
    any request. *)
Theorem dropbox_abort_upload_forgets_the_upload m w :
  size m <> 0 ->
  exists w' w'',
    Dropbox.abort_upload m w = (w', Return (Dropbox.remove_upload_id m))
    /\ extra (Dropbox.remove_upload_id m) = delete "upload_id" (extra m)
    /\ Dropbox.store w' = <[filename m := Dropbox.remove_upload_id m]> (Dropbox.store w)
    /\ Dropbox.requests w' = Dropbox.requests w
    /\ Dropbox.end_upload root session_root format_path (Dropbox.remove_upload_id m) w'
       = (w'', Raise DriverError)
    /\ Dropbox.requests w'' = Dropbox.requests w.
Proof.
  intros Hsize. destruct (remove_upload_id_fields m) as (Hfn & Hsz & Hex).
  eexists. eexists. split; [reflexivity|]. split; [exact Hex|].
  cbn. rewrite Hfn. split; [reflexivity|]. split; [reflexivity|].
  rewrite end_upload_unfold. cbv zeta. rewrite remove_upload_id_lookup, Hsz.
  destruct (Z.eqb_spec (size m) 0) as [E|_]; [contradiction|].
  split; [reflexivity|].
  match goal with |- Dropbox.requests (resolved root ?w1 ?m1) = _ =>
    destruct (resolved_fields root w1 m1) as (_ & -> & _) end.
  reflexivity.
Qed.

(** An [ErrorResponse] to the move ends [move_file] at once, whatever its
    status: the identity tests [err.status is 503] and [err.status is 403]
    fail for a status parsed from a response, so neither the retry nor the
    conflict branch is taken. *)
Lemma move_file_refused old new w (b' : B) (k : rest_kind) :
  let o := backend_name root (Dropbox.entry_db w) old in
  let n := backend_name root (Dropbox.entry_db w) new in
  Dropbox.api_file_move o n (Dropbox.client w) = (b', Raise (ErrorResponse k)) ->
  exists w',
    Dropbox.move_file root old new w = (w', Raise ServiceError)
    /\ Dropbox.requests w' = Dropbox.requests w ++ [Dropbox.ReqFileMove o n]
    /\ Dropbox.client w' = b'
    /\ Dropbox.entry_db w' = Dropbox.entry_db w
    /\ Dropbox.store w' = Dropbox.store w
    /\ Dropbox.log w' = Dropbox.log (resolved root (resolved root w old) new).
Proof.
  intros o n Hapi.
  destruct (resolved_fields root w old) as (Rcl & Rrq & Rdb & Rst & _).
  destruct (resolved_fields root (resolved root w old) new) as (Rcl' & Rrq' & Rdb' & Rst' & _).
  unfold Dropbox.move_file.
  unfold bind at 1. rewrite get_dropbox_filename_spec.
  unfold bind at 1. rewrite get_dropbox_filename_spec. rewrite Rdb. fold o n.
  unfold bind at 1. cbn [Dropbox.range10 Dropbox.move_attempts].
  unfold try_except, Dropbox.call. rewrite Rcl', Rcl, Hapi.
  destruct k; cbn; (eexists; split; [reflexivity|]); cbn;
    rewrite Rrq', Rrq, Rdb', Rdb, Rst', Rst; repeat split.
Qed.

(** X15. When Dropbox refuses a move because the new name is taken (403,
    "A file with that name already exists"), [move_file] raises
    [ServiceError] after that one request and records nothing: the branch
    that would write [conflict:{new} -> old] and log a warning is guarded
    by [err.status is 403], which is false for the status of a response.
    The conflict map, the log and the store are as they were, and the new
    Onitu name is resolved as before. *)
Theorem move_file_onto_a_taken_name old new w (b' : B) :
  let o := backend_name root (Dropbox.entry_db w) old in
  let n := backend_name root (Dropbox.entry_db w) new in
  Dropbox.api_file_move o n (Dropbox.client w) = (b', Raise (ErrorResponse Exists403)) ->
  exists w',
    Dropbox.move_file root old new w = (w', Raise ServiceError)
    /\ Dropbox.requests w' = Dropbox.requests w ++ [Dropbox.ReqFileMove o n]
    /\ Dropbox.entry_db w' = Dropbox.entry_db w
    /\ Dropbox.store w' = Dropbox.store w
    /\ Dropbox.log w' = Dropbox.log (resolved root (resolved root w old) new)
    /\ backend_name root (Dropbox.entry_db w') new = n.
Proof.
  intros o n Hapi.
  destruct (move_file_refused old new w b' Exists403 Hapi)
    as (w' & Hrun & Hrq & _ & Hdb & Hst & Hlog).
  exists w'. rewrite Hdb. repeat split; assumption.
Qed.

(** X16. [move_file] never sends the move a second time: whatever
    [ErrorResponse] Dropbox answers, a 503 "please re-issue request"
    included, it raises [ServiceError] after one request, without the
    retry message; the retry branch is guarded by [err.status is 503],
    which is false for the status of a response. *)
Theorem move_file_never_retries old new w (b' : B) (k : rest_kind) :
  let o := backend_name root (Dropbox.entry_db w) old in
  let n := backend_name root (Dropbox.entry_db w) new in
  Dropbox.api_file_move o n (Dropbox.client w) = (b', Raise (ErrorResponse k)) ->
  exists w',
    Dropbox.move_file root old new w = (w', Raise ServiceError)
    /\ Dropbox.requests w' = Dropbox.requests w ++ [Dropbox.ReqFileMove o n]
    /\ Dropbox.client w' = b'
    /\ Dropbox.log w' = Dropbox.log (resolved root (resolved root w old) new)
    /\ Dropbox.entry_db w' = Dropbox.entry_db w
    /\ Dropbox.store w' = Dropbox.store w.
Proof.
  intros o n Hapi.
  destruct (move_file_refused old new w b' k Hapi)
    as (w' & Hrun & Hrq & Hcl & Hdb & Hst & Hlog).
  exists w'. repeat split; assumption.
Qed.

(** X17. When Dropbox accepts the move at the first request, [move_file]
    writes the new record with the size, revision and timestamp Dropbox
    answered, and drops the conflict entry stored under the resolved old
    name, if it has a non-empty value; no other entry of the conflict map
    changes, so that an entry which mapped the old Onitu name to another
    Dropbox name is still there after the move. *)
Theorem move_file_records_the_answer old new w (b' : B) (d : Dropbox.db_metadata) :
  let o := backend_name root (Dropbox.entry_db w) old in
  let n := backend_name root (Dropbox.entry_db w) new in
  Dropbox.api_file_move o n (Dropbox.client w) = (b', Return d) ->
  exists w',
    Dropbox.move_file root old new w = (w', Return (refreshed new d))
    /\ Dropbox.requests w' = Dropbox.requests w ++ [Dropbox.ReqFileMove o n]
    /\ Dropbox.store w' = <[filename new := refreshed new d]> (Dropbox.store w)
    /\ (forall k, k <> "conflict:" +:+ o ->
          Dropbox.entry_db w' !! k = Dropbox.entry_db w !! k)
    /\ (forall c, Dropbox.entry_db w !! ("conflict:" +:+ o) = Some c ->
          Dropbox.entry_db w' !! ("conflict:" +:+ o) = if str_truthy c then None else Some c).
Proof.
  intros o n Hapi.
  destruct (resolved_fields root w old) as (Rcl & Rrq & Rdb & Rst & _).
  destruct (resolved_fields root (resolved root w old) new) as (Rcl' & Rrq' & Rdb' & Rst' & _).
  unfold Dropbox.move_file.
  unfold bind at 1. rewrite get_dropbox_filename_spec.
  unfold bind at 1. rewrite get_dropbox_filename_spec. rewrite Rdb. fold o n.
  unfold bind at 1. cbn [Dropbox.range10 Dropbox.move_attempts].
  unfold try_except, Dropbox.call. rewrite Rcl', Rcl, Hapi.
  unfold bind at 1. unfold Dropbox.remove_conflict. unfold bind at 1. unfold get.
  cbn [Dropbox.entry_db]. rewrite Rdb', Rdb.
  unfold Dropbox.update_metadata_info, Dropbox.write, bind, modify, ret, refreshed.
  destruct (Dropbox.entry_db w !! ("conflict:" +:+ o)) as [c|] eqn:Hc;
    [destruct (str_truthy c) eqn:Hct|];
    cbn; (eexists; split; [reflexivity|]); cbn; rewrite ?Rrq', ?Rrq, ?Rdb', ?Rdb, ?Rst', ?Rst;
    (split; [reflexivity|]); (split; [reflexivity|]); split;
    try (intros k Hk; rewrite ?lookup_delete_ne by congruence; reflexivity);
    intros c' Hc'; try discriminate; injection Hc' as <-; rewrite Hct;
    [apply lookup_delete_eq|exact Hc].
Qed.

(** X18. [delete_file] never removes the conflict entry of the Onitu name
    it is called for, unless that entry maps the name to itself: the entry
    it removes is the one stored under the resolved name.  The entry that
    redirected the deleted file is therefore still followed afterwards. *)
Theorem delete_file_keeps_the_resolving_entry m w w' (out : outcome unit) :
  let f := Dropbox.root_prefixed_filename root (filename m) in
  Dropbox.entry_db w !! ("conflict:" +:+ f) <> Some f ->
  Dropbox.delete_file root m w = (w', out) ->
  Dropbox.entry_db w' !! ("conflict:" +:+ f) = Dropbox.entry_db w !! ("conflict:" +:+ f)
  /\ backend_name root (Dropbox.entry_db w') m = backend_name root (Dropbox.entry_db w) m.
Proof.
  intros f Hself Hrun.
  assert (Hkeep : Dropbox.entry_db w' !! ("conflict:" +:+ f)
                  = Dropbox.entry_db w !! ("conflict:" +:+ f)).
  { destruct (resolved_fields root w m) as (Rcl & Rrq & Rdb & Rst & _).
    unfold Dropbox.delete_file in Hrun. unfold bind at 1 in Hrun.
    rewrite get_dropbox_filename_spec in Hrun.
    unfold bind at 1 in Hrun. unfold try_except, Dropbox.call in Hrun.
    destruct (Dropbox.api_file_delete _ _) as [b1 [e|[]]].
    { cbn in Hrun. unfold raise in Hrun.
      destruct (Dropbox.is_ErrorResponse e); cbn in Hrun;
        apply pair_equal_spec in Hrun as [<- _]; cbn; rewrite Rdb;
        reflexivity. }
    unfold Dropbox.remove_conflict, bind, get, modify, ret in Hrun. cbn in Hrun.
    rewrite Rdb in Hrun.
    set (n := backend_name root (Dropbox.entry_db w) m) in *.
    destruct (Dropbox.entry_db w !! ("conflict:" +:+ n)) as [c|] eqn:Hc;
      [destruct (str_truthy c) eqn:Hct|]; cbn in Hrun;
      apply pair_equal_spec in Hrun as [<- _]; cbn; rewrite ?Rdb; try reflexivity.
    apply lookup_delete_ne. intros E. apply String.app_inj in E.
    unfold n, backend_name in E, Hc. fold f in E, Hc.
    destruct (Dropbox.entry_db w !! ("conflict:" +:+ f)) as [d|] eqn:Hd.
    - destruct (str_truthy d) eqn:Hdt; [subst d; congruence|].
      assert (c = d) by congruence. congruence.
    - congruence. }
  split; [exact Hkeep|]. unfold backend_name. fold f. rewrite Hkeep. reflexivity.
Qed.

Lemma after_commit_filename m (resp : Dropbox.db_metadata) :
  filename (after_commit m resp) = filename m.
Proof. unfold after_commit. cbn. apply remove_upload_id_fields. Qed.

(** X19. After [end_upload] of a file without a conflict entry, the name
    Dropbox committed the file under is the name every later operation on
    the file uses. *)
Theorem committed_name_is_used_afterwards m w w' m' :
  let f := Dropbox.root_prefixed_filename root (filename m) in
  Dropbox.entry_db w !! ("conflict:" +:+ f) = None ->
  Dropbox.end_upload root session_root format_path m w = (w', Return m') ->
  exists (u : value) (b : B) (resp : Dropbox.db_metadata),
    Dropbox.api_commit (Dropbox.commit_path session_root format_path f)
      (Dropbox.mkCommitParams false u (parent_rev_of m)) b
    = (Dropbox.client w', Return resp)
    /\ (Dropbox.db_path resp <> "" ->
        backend_name root (Dropbox.entry_db w') m' = Dropbox.db_path resp).
Proof.
  intros f Hnone Hrun.
  destruct (end_upload_success _ _ _ _ _ _ _ Hrun) as (u & b & resp & Hapi & Hm & _ & Hne & Heq).
  assert (Hn : backend_name root (Dropbox.entry_db w) m = f)
    by (unfold backend_name; fold f; rewrite Hnone; reflexivity).
  rewrite Hn in Hapi, Hne, Heq.
  exists u, b, resp. split; [exact Hapi|]. intros Hp.
  unfold backend_name. rewrite Hm, after_commit_filename. fold f.
  destruct (decide (Dropbox.db_path resp = f)) as [E|E].
  - rewrite (Heq E), Hnone. symmetry. exact E.
  - destruct (Hne E) as [-> _]. rewrite lookup_insert_eq.
    rewrite (str_truthy_true _ Hp). reflexivity.
Qed.

(** X20. A second renaming is not followed: when the file already has a
    conflict entry [f -> n] and Dropbox commits an upload of it under yet
    another name, the new name is recorded under [conflict:n], and the
    Onitu name is still resolved to [n]. *)
Theorem renamed_commit_under_conflict_is_not_followed m w w' m' (n : string) :
  let f := Dropbox.root_prefixed_filename root (filename m) in
  Dropbox.entry_db w !! ("conflict:" +:+ f) = Some n ->
  n <> "" -> n <> f ->
  Dropbox.end_upload root session_root format_path m w = (w', Return m') ->
  backend_name root (Dropbox.entry_db w') m' = n
  /\ exists (u : value) (b : B) (resp : Dropbox.db_metadata),
       Dropbox.api_commit (Dropbox.commit_path session_root format_path n)
         (Dropbox.mkCommitParams false u (parent_rev_of m)) b
       = (Dropbox.client w', Return resp)
       /\ (Dropbox.db_path resp <> n ->
           Dropbox.entry_db w' !! ("conflict:" +:+ n) = Some (Dropbox.db_path resp)).
Proof.
  intros f Hentry Hn Hnf Hrun.
  destruct (end_upload_success _ _ _ _ _ _ _ Hrun) as (u & b & resp & Hapi & Hm & _ & Hne & Heq).
  assert (Hbn : backend_name root (Dropbox.entry_db w) m = n).
  { unfold backend_name. fold f. rewrite Hentry, (str_truthy_true _ Hn). reflexivity. }
  rewrite Hbn in Hapi, Hne, Heq. split.
  - unfold backend_name. rewrite Hm, after_commit_filename. fold f.
    destruct (decide (Dropbox.db_path resp = n)) as [E|E].
    + rewrite (Heq E), Hentry, (str_truthy_true _ Hn). reflexivity.
    + destruct (Hne E) as [-> _].
      rewrite lookup_insert_ne by (intros E'; apply String.app_inj in E'; congruence).
      rewrite Hentry, (str_truthy_true _ Hn). reflexivity.
  - exists u, b, resp. split; [exact Hapi|]. intros E.
    destruct (Hne E) as [-> _]. apply lookup_insert_eq.
Qed.

(** X21. A connection failure ([RESTSocketError]) is turned into
    [ServiceError] by the transfer handlers only: [get_chunk] and
    [upload_chunk] raise [ServiceError], while [delete_file] and
    [move_file], which catch [ErrorResponse] alone, let the
    [RESTSocketError] through. *)
Theorem socket_error_is_wrapped_by_transfers_only m new (o size_ : Z) (chunk : bytes) w :
  let name := backend_name root (Dropbox.entry_db w) m in
  (Dropbox.api_get_file name o (o + (size_ - 1)) (Dropbox.client w)).2 = Raise RESTSocketError ->
  (Dropbox.api_upload_chunk chunk o (extra m !! "upload_id") (Dropbox.client w)).2
  = Raise RESTSocketError ->
  (Dropbox.api_file_delete name (Dropbox.client w)).2 = Raise RESTSocketError ->
  (Dropbox.api_file_move name (backend_name root (Dropbox.entry_db w) new) (Dropbox.client w)).2
  = Raise RESTSocketError ->
  (Dropbox.get_chunk root m o size_ w).2 = Raise ServiceError
  /\ (Dropbox.upload_chunk root m o chunk w).2 = Raise ServiceError
  /\ (Dropbox.delete_file root m w).2 = Raise RESTSocketError
  /\ (Dropbox.move_file root m new w).2 = Raise RESTSocketError.
Proof.
  intros name Hget Hup Hdel Hmove.
  destruct (resolved_fields root w m) as (Rcl & Rrq & Rdb & Rst & _).
  destruct (resolved_fields root (resolved root w m) new) as (Rcl' & _).
  repeat split.
  - unfold Dropbox.get_chunk. unfold bind at 1. rewrite get_dropbox_filename_spec.
    unfold Dropbox.rest_guard, try_except, Dropbox.call. rewrite Rcl. fold name.
    destruct (Dropbox.api_get_file _ _ _ _) as [b' out]. cbn in Hget. subst out. reflexivity.
  - unfold Dropbox.upload_chunk. unfold bind at 1. rewrite get_dropbox_filename_spec.
    unfold bind at 1. unfold Dropbox.rest_guard, try_except, Dropbox.call. rewrite Rcl.
    destruct (Dropbox.api_upload_chunk _ _ _ _) as [b' out]. cbn in Hup. subst out. reflexivity.
  - unfold Dropbox.delete_file. unfold bind at 1. rewrite get_dropbox_filename_spec.
    unfold bind at 1. unfold try_except, Dropbox.call. rewrite Rcl. fold name.
    destruct (Dropbox.api_file_delete _ _) as [b' out]. cbn in Hdel. subst out. reflexivity.
  - unfold Dropbox.move_file.
    unfold bind at 1. rewrite get_dropbox_filename_spec.
    unfold bind at 1. rewrite get_dropbox_filename_spec. rewrite Rdb.
    unfold bind at 1. cbn [Dropbox.range10 Dropbox.move_attempts].
    unfold try_except, Dropbox.call. rewrite Rcl', Rcl. fold name.
    destruct (Dropbox.api_file_move _ _ _) as [b' out]. cbn in Hmove. subst out. reflexivity.
Qed.

(** X22. The chunk [end_upload] uploads for an empty file that has no
    upload id is sent outside the handler's [try]: when Dropbox refuses it,
    the error is raised as it is, not as [ServiceError], after that one
    request and with no commit attempted. *)
Theorem empty_file_upload_error_is_not_wrapped m w (e : exn) :
  extra m !! "upload_id" = None ->
  size m = 0 ->
  (Dropbox.api_upload_chunk [] 0 None (Dropbox.client w)).2 = Raise e ->
  exists w',
    Dropbox.end_upload root session_root format_path m w = (w', Raise e)
    /\ Dropbox.requests w' = Dropbox.requests w ++ [Dropbox.ReqUploadChunk [] 0 None]
    /\ Dropbox.store w' = Dropbox.store w
    /\ Dropbox.entry_db w' = Dropbox.entry_db w.
Proof.
  intros Hu Hsize Hrefused.
  destruct (resolved_fields root w m) as (Rcl & Rrq & Rdb & Rst & _).
  rewrite end_upload_unfold. cbv zeta. rewrite Hu, Hsize. cbn [Z.eqb].
  unfold bind at 1. unfold Dropbox.call.
  rewrite Rcl.
  destruct (Dropbox.api_upload_chunk [] 0 None _) as [b' out]. cbn in Hrefused. subst out.
  eexists. split; [reflexivity|]. cbn. rewrite Rrq, Rst, Rdb. auto.
Qed.

End DropboxFurther.

(** ** The change intake, one delta after the other *)

Section DropboxIntake.

Context {B : Type} `{Dropbox.Client B}.
Variable strptime : string -> option (list Z).

Implicit Types (w : Dropbox.world (B:=B)) (d : Dropbox.db_metadata).

Lemma searched_frame w d :
  Dropbox.client (searched w d) = Dropbox.client w
  /\ Dropbox.requests (searched w d) = Dropbox.requests w
  /\ Dropbox.entry_db (searched w d) = Dropbox.entry_db w
  /\ Dropbox.cursor (searched w d) = Dropbox.cursor w.
Proof. unfold searched. destruct (reverse_conflict _ _); repeat split. Qed.

(** What an entry whose metadata is known leaves untouched. *)
Lemma process_known_entry_frame (prefix name : string) d w w' (out : outcome unit) :
  Dropbox.process_entry strptime prefix (name, Some d) w = (w', out) ->
  Dropbox.client w' = Dropbox.client w
  /\ Dropbox.requests w' = Dropbox.requests w
  /\ Dropbox.entry_db w' = Dropbox.entry_db w
  /\ Dropbox.cursor w' = Dropbox.cursor w.
Proof.
  intros Hrun. destruct (searched_frame w d) as (Scl & Srq & Sdb & Scu).
  unfold Dropbox.process_entry in Hrun. cbn [fst snd] in Hrun.
  unfold bind at 1 in Hrun. unfold ret at 1 in Hrun. unfold bind at 1 in Hrun.
  rewrite conflicting_filename_reverse in Hrun. fold (searched w d) in Hrun.
  assert (Hbody : forall (name0 : string),
            (if String.eqb (string_drop (String.length prefix) name0) "" || Dropbox.db_is_dir d
             then ret tt
             else
               m <~ Dropbox.plug_get_metadata (string_drop (String.length prefix) name0) ;;
               if Dropbox.db_is_deleted d then Dropbox.plug_delete_file m
               else
                 onitu_ts <~ (match extra m !! "modified" with
                              | Some v =>
                                  if truthy v
                                  then match v with
                                       | VStr ts => t <~ Dropbox.parse_time strptime ts ;;
                                                    ret (Some t)
                                       | VNum _ => raise TypeError
                                       end
                                  else ret None
                              | None => ret None
                              end) ;;
                 dropbox_ts <~ Dropbox.parse_time strptime (Dropbox.db_modified d) ;;
                 if match onitu_ts with
                    | None => true
                    | Some t => Dropbox.tuple_gtb dropbox_ts t
                    end
                 then m' <~ Dropbox.update_metadata_info m d false ;;
                      Dropbox.plug_update_file m'
                 else ret tt) (searched w d) = (w', out) ->
            Dropbox.client w' = Dropbox.client w
            /\ Dropbox.requests w' = Dropbox.requests w
            /\ Dropbox.entry_db w' = Dropbox.entry_db w
            /\ Dropbox.cursor w' = Dropbox.cursor w).
  { intros name0 Hb. rewrite <- Scl, <- Srq, <- Sdb, <- Scu.
    unfold Dropbox.plug_get_metadata, Dropbox.plug_delete_file, Dropbox.parse_time,
      Dropbox.update_metadata_info, Dropbox.plug_update_file, Dropbox.write,
      bind, ret, raise, modify in Hb.
    repeat (destruct_test Hb; cbn in Hb);
      apply pair_equal_spec in Hb as [<- _]; repeat split. }
  clear Scl Srq Sdb Scu. unfold searched in Hrun, Hbody.
  destruct (reverse_conflict (Dropbox.entry_db w) (Dropbox.db_path d)) as [c|];
    [destruct (str_truthy c)|]; cbv beta iota in Hrun; eapply Hbody; exact Hrun.
Qed.

(** An entry without metadata costs one [metadata] request and is then
    handled as an entry with the metadata Dropbox answered. *)
Lemma process_entry_fetches (prefix name : string) w :
  Dropbox.process_entry strptime prefix (name, None) w
  = match Dropbox.call (Dropbox.ReqMetadata name) (Dropbox.api_metadata name) w with
    | (w1, Raise e) => (w1, Raise e)
    | (w1, Return d) => Dropbox.process_entry strptime prefix (name, Some d) w1
    end.
Proof.
  unfold Dropbox.process_entry. cbn [fst snd]. unfold bind at 1.
  destruct (Dropbox.call _ _ w) as [w1 [e|d]]; reflexivity.
Qed.

Lemma process_entry_frame (prefix : string) (entry : string * option Dropbox.db_metadata)
    w w' (out : outcome unit) :
  Dropbox.process_entry strptime prefix entry w = (w', out) ->
  Dropbox.entry_db w' = Dropbox.entry_db w
  /\ Dropbox.cursor w' = Dropbox.cursor w
  /\ Dropbox.requests w' = Dropbox.requests w ++ metadata_request entry.
Proof.
  destruct entry as [name [d|]]; intros Hrun; unfold metadata_request; cbn [fst snd].
  - destruct (process_known_entry_frame _ _ _ _ _ _ Hrun) as (_ & Hrq & Hdb & Hcu).
    rewrite app_nil_r. auto.
  - rewrite process_entry_fetches in Hrun. unfold Dropbox.call in Hrun.
    destruct (Dropbox.api_metadata name (Dropbox.client w)) as [b' [e|d]].
    + apply pair_equal_spec in Hrun as [<- _]. repeat split.
    + destruct (process_known_entry_frame _ _ _ _ _ _ Hrun) as (_ & Hrq & Hdb & Hcu).
      cbn in Hrq, Hdb, Hcu. auto.
Qed.

Lemma process_entries_frame (prefix : string)
    (l : list (string * option Dropbox.db_metadata)) w w' (out : outcome unit) :
  for_each l (Dropbox.process_entry strptime prefix) w = (w', out) ->
  Dropbox.entry_db w' = Dropbox.entry_db w
  /\ Dropbox.cursor w' = Dropbox.cursor w
  /\ exists new, Dropbox.requests w' = Dropbox.requests w ++ new
                 /\ Forall (fun rq => ~ is_delta rq) new.
Proof.
  revert w. induction l as [|entry l IH]; intros w Hrun.
  - apply pair_equal_spec in Hrun as [<- _]. repeat split.
    exists []. rewrite app_nil_r. split; [reflexivity|constructor].
  - cbn [for_each] in Hrun. unfold bind at 1 in Hrun.
    destruct (Dropbox.process_entry strptime prefix entry w) as [w1 [e|[]]] eqn:Hone.
    + apply pair_equal_spec in Hrun as [<- _].
      destruct (process_entry_frame _ _ _ _ _ Hone) as (Hdb & Hcu & Hrq).
      split; [exact Hdb|]. split; [exact Hcu|]. eexists. split; [exact Hrq|].
      destruct entry as [name [d|]]; repeat constructor. intros [].
    + destruct (process_entry_frame _ _ _ _ _ Hone) as (Hdb & Hcu & Hrq).
      destruct (IH _ Hrun) as (Hdb' & Hcu' & new & Hrq' & Hnew).
      split; [congruence|]. split; [congruence|].
      exists (metadata_request entry ++ new). rewrite Hrq', Hrq, app_assoc.
      split; [reflexivity|]. apply Forall_app. split; [|exact Hnew].
      destruct entry as [name [d|]]; repeat constructor. intros [].
Qed.

(** The deltas of one check are all asked with the cursor the check
    started with, and the loop touches neither the cursor nor the entry
    database. *)
Lemma poll_frame (fuel : nat) (prefix : string) w w' (out : outcome (option Dropbox.delta)) :
  Dropbox.poll strptime fuel prefix w = (w', out) ->
  Dropbox.entry_db w' = Dropbox.entry_db w
  /\ Dropbox.cursor w' = Dropbox.cursor w
  /\ exists new, Dropbox.requests w' = Dropbox.requests w ++ new
                 /\ (forall c p, Dropbox.ReqDelta c p ∈ new -> c = Dropbox.cursor w)
                 /\ (forall changes, out = Return (Some changes) ->
                       exists c p, Dropbox.ReqDelta c p ∈ new).
Proof.
  revert prefix w. induction fuel as [|fuel IH]; intros prefix w Hrun.
  - apply pair_equal_spec in Hrun as [<- <-]. repeat split.
    exists []. rewrite app_nil_r. split; [reflexivity|].
    split; [intros c p Hin; inversion Hin|discriminate].
  - cbn [Dropbox.poll] in Hrun. cbv zeta in Hrun.
    set (prefix' := if OsPath.endswith_sep prefix then string_init prefix else prefix) in *.
    unfold bind at 1 in Hrun. unfold get in Hrun.
    unfold bind at 1 in Hrun. unfold Dropbox.call at 1 in Hrun.
    destruct (Dropbox.api_delta (Dropbox.cursor w) prefix' (Dropbox.client w))
      as [b' [e|changes]].
    { apply pair_equal_spec in Hrun as [<- <-]. repeat split.
      eexists. split; [reflexivity|]. split; [|discriminate].
      intros c p Hin. apply list_elem_of_singleton in Hin. congruence. }
    unfold bind at 1 in Hrun.
    destruct (for_each _ _ _) as [w1 [e|[]]] eqn:Hentries.
    { apply pair_equal_spec in Hrun as [<- <-].
      destruct (process_entries_frame _ _ _ _ _ Hentries) as (Hdb & Hcu & new & Hrq & Hnew).
      cbn in Hdb, Hcu, Hrq. split; [exact Hdb|]. split; [exact Hcu|].
      eexists. split; [rewrite Hrq, <- app_assoc; reflexivity|]. split; [|discriminate].
      intros c p Hin. cbn in Hin. apply elem_of_cons in Hin as [Hin|Hin]; [congruence|].
      rewrite Forall_forall in Hnew. destruct (Hnew _ Hin I). }
    destruct (process_entries_frame _ _ _ _ _ Hentries) as (Hdb & Hcu & new & Hrq & Hnew).
    cbn in Hdb, Hcu, Hrq.
    assert (Hmine : forall c p, Dropbox.ReqDelta c p ∈ Dropbox.ReqDelta (Dropbox.cursor w) prefix' :: new ->
              c = Dropbox.cursor w).
    { intros c p Hin. apply elem_of_cons in Hin as [Hin|Hin]; [congruence|].
      rewrite Forall_forall in Hnew. destruct (Hnew _ Hin I). }
    destruct (Dropbox.has_more changes).
    + destruct (IH _ _ Hrun) as (Hdb' & Hcu' & new' & Hrq' & Hnew' & Hsome).
      split; [congruence|]. split; [congruence|].
      exists ((Dropbox.ReqDelta (Dropbox.cursor w) prefix' :: new) ++ new').
      rewrite Hrq', Hrq, <- !app_assoc. split; [reflexivity|]. split.
      * intros c p Hin. apply elem_of_app in Hin as [Hin|Hin]; [exact (Hmine c p Hin)|].
        rewrite (Hnew' c p Hin). exact Hcu.
      * intros _ _. exists (Dropbox.cursor w), prefix'. apply elem_of_app. left. left.
    + apply pair_equal_spec in Hrun as [<- <-].
      split; [exact Hdb|]. split; [exact Hcu|].
      exists (Dropbox.ReqDelta (Dropbox.cursor w) prefix' :: new).
      rewrite Hrq, <- app_assoc. split; [reflexivity|]. split; [exact Hmine|].
      intros _ _. exists (Dropbox.cursor w), prefix'. left.
Qed.

(** X23. [check_dropbox] keeps the cursor of the thread and the cursor
    saved in the entry database in step: if they agree before a check they
    agree after it, however the check ends.  Every delta the check asks for
    carries the cursor it started with, no other key of the entry database
    changes, and a check that completes has asked for at least one delta
    and leaves a cursor. *)
Theorem check_dropbox_keeps_the_cursor_in_step (root : string) (fuel : nat) w w'
    (out : outcome (option unit)) :
  Dropbox.cursor w = Dropbox.entry_db w !! "dropbox_cursor" ->
  Dropbox.check_dropbox root strptime fuel w = (w', out) ->
  Dropbox.cursor w' = Dropbox.entry_db w' !! "dropbox_cursor"
  /\ (forall k, k <> "dropbox_cursor" -> Dropbox.entry_db w' !! k = Dropbox.entry_db w !! k)
  /\ (exists new, Dropbox.requests w' = Dropbox.requests w ++ new
                  /\ (forall c p, Dropbox.ReqDelta c p ∈ new -> c = Dropbox.cursor w)
                  /\ (out = Return (Some tt) -> exists c p, Dropbox.ReqDelta c p ∈ new))
  /\ (out = Return (Some tt) -> is_Some (Dropbox.cursor w')).
Proof.
  intros Hstep Hrun. unfold Dropbox.check_dropbox in Hrun. cbv zeta in Hrun.
  unfold bind at 1 in Hrun.
  destruct (Dropbox.poll strptime fuel _ w) as [w1 [e|[changes|]]] eqn:Hpoll;
    destruct (poll_frame _ _ _ _ _ Hpoll) as (Hdb & Hcu & new & Hrq & Hnew & Hsome).
  - apply pair_equal_spec in Hrun as [<- <-]. split; [congruence|].
    split; [intros; rewrite Hdb; reflexivity|]. split; [|discriminate].
    exists new. repeat split; [exact Hrq|exact Hnew|discriminate].
  - unfold bind, get, modify, ret in Hrun.
    case_bool_decide as Hchanged; cbn in Hrun; apply pair_equal_spec in Hrun as [<- <-]; cbn.
    + split; [rewrite lookup_insert_eq; reflexivity|].
      split; [intros k Hk; rewrite lookup_insert_ne by congruence; rewrite Hdb; reflexivity|].
      split; [|eauto]. exists new. repeat split; [exact Hrq|exact Hnew|].
      intros _. exact (Hsome changes eq_refl).
    + split; [congruence|]. split; [intros; rewrite Hdb; reflexivity|].
      split.
      * exists new. repeat split; [exact Hrq|exact Hnew|].
        intros _. exact (Hsome changes eq_refl).
      * intros _. rewrite <- Hchanged. eauto.
  - apply pair_equal_spec in Hrun as [<- <-]. split; [congruence|].
    split; [intros; rewrite Hdb; reflexivity|]. split; [|discriminate].
    exists new. repeat split; [exact Hrq|exact Hnew|discriminate].
Qed.

(** X24. A delta entry that reports a deleted file below the root is
    passed to [plug.delete_file] with the stored record of the file (found
    through the conflict map when the Dropbox name has an entry there), no
    timestamp being read; the store is left as it is, and the only request
    is the one that fetches the metadata the entry came without. *)
Theorem deleted_entry_is_reported (prefix : string)
    (entry : string * option Dropbox.db_metadata) d w :
  snd entry = Some d
  \/ (snd entry = None
      /\ (Dropbox.api_metadata (fst entry) (Dropbox.client w)).2 = Return d) ->
  Dropbox.db_is_deleted d = true ->
  Dropbox.db_is_dir d = false ->
  rootless prefix (Dropbox.entry_db w) d <> "" ->
  exists w',
    Dropbox.process_entry strptime prefix entry w = (w', Return tt)
    /\ Dropbox.plug_calls w'
       = Dropbox.plug_calls w
         ++ [PlugDeleteFile (record_of (Dropbox.store w) (rootless prefix (Dropbox.entry_db w) d))]
    /\ Dropbox.store w' = Dropbox.store w
    /\ Dropbox.requests w' = Dropbox.requests w ++ metadata_request entry.
Proof.
  intros Hentry Hdel Hdir Hname.
  assert (Hknown : forall (name : string) (w0 : Dropbox.world (B:=B)),
            Dropbox.entry_db w0 = Dropbox.entry_db w ->
            Dropbox.store w0 = Dropbox.store w ->
            exists w',
              Dropbox.process_entry strptime prefix (name, Some d) w0 = (w', Return tt)
              /\ Dropbox.plug_calls w'
                 = Dropbox.plug_calls w0
                   ++ [PlugDeleteFile (record_of (Dropbox.store w)
                                         (rootless prefix (Dropbox.entry_db w) d))]
              /\ Dropbox.store w' = Dropbox.store w
              /\ Dropbox.requests w' = Dropbox.requests w0).
  { intros name w0 Hdb Hst.
    unfold Dropbox.process_entry. cbn [fst snd].
    unfold bind at 1. unfold ret at 1. unfold bind at 1.
    rewrite conflicting_filename_reverse.
    unfold rootless in Hname |- *. rewrite <- Hdb in Hname |- *. unfold record_of.
    rewrite <- Hst.
    destruct (reverse_conflict (Dropbox.entry_db w0) (Dropbox.db_path d)) as [c|];
      cbv beta iota;
      match goal with
      | |- context [String.eqb ?s ""] =>
          destruct (String.eqb_spec s "") as [E|_]; [contradiction|]
      end;
      rewrite Hdir, Hdel; cbn [orb];
      unfold bind, Dropbox.plug_get_metadata, Dropbox.plug_delete_file, modify; cbn;
      match goal with
      | |- context [Dropbox.store w0 !! ?k] => destruct (Dropbox.store w0 !! k)
      end; eexists; repeat split. }
  destruct entry as [name [d0|]]; cbn [fst snd] in Hentry; unfold metadata_request;
    cbn [fst snd].
  - destruct Hentry as [E|[E _]]; [|discriminate]. injection E as ->.
    destruct (Hknown name w eq_refl eq_refl) as (w' & Hrun & Hcalls & Hst & Hrq).
    exists w'. rewrite app_nil_r. auto.
  - destruct Hentry as [E|[_ Hapi]]; [discriminate|].
    rewrite process_entry_fetches. unfold Dropbox.call.
    destruct (Dropbox.api_metadata name (Dropbox.client w)) as [b' out0]. cbn in Hapi.
    subst out0.
    match goal with |- context [Dropbox.process_entry _ _ _ ?w0] =>
      destruct (Hknown name w0 eq_refl eq_refl) as (w' & Hrun & Hcalls & Hst & Hrq) end.
    exists w'. auto.
Qed.

End DropboxIntake.

(** * The chunk router, request after request *)

Section RouterServing.

Variable W : Type.
Variable int : string -> option Z.
Variable read_chunk : string -> Z -> Z -> exec W bytes.

Abbreviation respond := (Router._respond_to W int read_chunk).
Abbreviation serve := (RouterThread.run W int read_chunk).

Lemma respond_to_raises (identity filename_ offset size_ : string)
    (r r' : Router.router W) (e : exn) :
  respond identity filename_ offset size_ r = (r', Raise e) ->
  Router.sent r' = Router.sent r.
Proof.
  intros Hrun. unfold Router._respond_to, Router.py_int, Router.call_read_chunk,
    Router.send_multipart, bind, ret, raise, modify in Hrun.
  destruct (int offset) as [o|]; [|injection Hrun as <- _; reflexivity].
  destruct (int size_) as [n|]; [|injection Hrun as <- _; reflexivity].
  destruct (read_chunk filename_ o n (Router.world_of r)) as [w' [e0|chunk]];
    [injection Hrun as <- _; reflexivity|discriminate Hrun].
Qed.

Lemma respond_to_returns (identity filename_ offset size_ : string)
    (r r' : Router.router W) :
  respond identity filename_ offset size_ r = (r', Return tt) ->
  exists chunk, Router.sent r' = Router.sent r ++ [(identity, chunk)].
Proof.
  intros Hrun. unfold Router._respond_to, Router.py_int, Router.call_read_chunk,
    Router.send_multipart, bind, ret, raise, modify in Hrun.
  destruct (int offset) as [o|]; [|discriminate Hrun].
  destruct (int size_) as [n|]; [|discriminate Hrun].
  destruct (read_chunk filename_ o n (Router.world_of r)) as [w' [e0|chunk]];
    [discriminate Hrun|injection Hrun as <-; eauto].
Qed.

(** X25. [_respond_to] sends a message exactly when it returns: then it has
    sent one message, to the requesting peer, holding the chunk
    [read_chunk] returned for the parsed offset and size.  When it raises,
    nothing has been sent; and when the offset or the size is not an
    integer it raises [ValueError] without having called [read_chunk]. *)
Theorem respond_to_sends_iff_it_returns (identity filename_ offset size_ : string)
    (r r' : Router.router W) (out : outcome unit) :
  respond identity filename_ offset size_ r = (r', out) ->
  match out with
  | Return _ =>
      exists (o n : Z) (chunk : bytes),
        int offset = Some o /\ int size_ = Some n
        /\ read_chunk filename_ o n (Router.world_of r) = (Router.world_of r', Return chunk)
        /\ Router.sent r' = Router.sent r ++ [(identity, chunk)]
  | Raise e =>
      Router.sent r' = Router.sent r
      /\ (int offset = None \/ int size_ = None -> e = ValueError /\ r' = r)
  end.
Proof.
  intros Hrun. unfold Router._respond_to, Router.py_int, Router.call_read_chunk,
    Router.send_multipart, bind, ret, raise, modify in Hrun.
  destruct (int offset) as [o|]; [|injection Hrun as <- <-; auto].
  destruct (int size_) as [n|]; [|injection Hrun as <- <-; auto].
  destruct (read_chunk filename_ o n (Router.world_of r)) as [w' [e|chunk]] eqn:Hread;
    injection Hrun as <- <-; cbn.
  - split; [reflexivity|]. intros [E|E]; discriminate E.
  - exists o, n, chunk. auto.
Qed.

(** X26. The router thread does not survive a malformed request: once a
    request whose offset or size is not an integer has been received, the
    serving loop has ended with an exception, and no request received
    after it (from whatever peer) is answered. *)
Theorem router_stops_at_a_malformed_request
    (before after : list (string * string * string * string))
    (identity filename_ offset size_ : string) (r r' : Router.router W) (out : outcome unit) :
  int offset = None \/ int size_ = None ->
  serve (before ++ (identity, filename_, offset, size_) :: after) r = (r', out) ->
  (exists e, out = Raise e)
  /\ exists answered,
       Router.sent r' = Router.sent r ++ answered
       /\ (length answered <= length before)%nat.
Proof.
  intros Hbad. unfold RouterThread.run. revert r.
  induction before as [|[[[i f] o] s] before IH]; intros r Hrun; cbn [app for_each] in Hrun.
  - unfold bind at 1 in Hrun.
    destruct (respond identity filename_ offset size_ r) as [r1 [e|[]]] eqn:Hone.
    + pose proof (respond_to_raises _ _ _ _ _ _ _ Hone) as Hsent.
      injection Hrun as <- <-. split; [eauto|]. exists []. rewrite app_nil_r. auto.
    + exfalso. unfold Router._respond_to, Router.py_int, bind, raise in Hone.
      destruct Hbad as [E|E]; rewrite E in Hone;
        [|destruct (int offset)]; discriminate Hone.
  - unfold bind at 1 in Hrun.
    destruct (respond i f o s r) as [r1 [e|[]]] eqn:Hone.
    + pose proof (respond_to_raises _ _ _ _ _ _ _ Hone) as Hsent.
      injection Hrun as <- <-. split; [eauto|]. exists []. rewrite app_nil_r.
      split; [exact Hsent|cbn; lia].
    + destruct (IH _ Hrun) as [Hout (answered & Hsent & Hlen)].
      split; [exact Hout|].
      pose proof (respond_to_returns _ _ _ _ _ _ Hone) as [chunk Hone_sent].
      exists ((i, chunk) :: answered). rewrite Hsent, Hone_sent, <- app_assoc.
      split; [reflexivity|cbn; lia].
Qed.

End RouterServing.

(** * Metadata objects and the database *)

Lemma no_colon_key_inj (f f' r r' : string) :
  no_colon f = true -> no_colon f' = true ->
  f +:+ String ":" r = f' +:+ String ":" r' -> f = f' /\ r = r'.
Proof.
  revert f'. induction f as [|c f IH]; intros [|c' f'] Hf Hf' E.
  - rewrite !append_nil in E. injection E as <-. auto.
  - rewrite append_nil, append_cons in E. injection E as <- _.
    cbn in Hf'. discriminate Hf'.
  - rewrite append_nil, append_cons in E. injection E as -> _.
    cbn in Hf. discriminate Hf.
  - rewrite !append_cons in E. injection E as -> E.
    cbn in Hf, Hf'. apply andb_true_iff in Hf as [_ Hf]. apply andb_true_iff in Hf' as [_ Hf'].
    destruct (IH f' Hf Hf' E) as [-> ->]. auto.
Qed.

Section MetadataRoundTrip.

Variable get_fid : list string -> option string.

Abbreviation get_by_id := (MetadataDb.get_by_id get_fid).
Abbreviation get_by_filename := (MetadataDb.get_by_filename get_fid).

Lemma file_key_inj (f f' : string) : MetadataDb.file_key f = MetadataDb.file_key f' -> f = f'.
Proof. unfold MetadataDb.file_key. apply String.app_inj. Qed.

Lemma metadata_init_with_fid (name f : string) (sz : Z) (os us : list string) :
  f <> "" ->
  Metadata_init get_fid name sz f os us = Return (mkMetadata name sz os us (Some f) ∅).
Proof.
  intros Hf. unfold Metadata_init. rewrite (str_truthy_true _ Hf). reflexivity.
Qed.

(** X27. What [write] stores, [get_by_id] reads back: for a metadata
    object with a non-empty fid, the object read under that fid by the same
    plug has the same properties, the same fid and the same extras. *)
Theorem write_then_get_by_id (plug_name : string) (m : Metadata) (f : string)
    (db db' : MetadataDb.escalator) :
  fid m = Some f -> f <> "" ->
  MetadataDb.write plug_name m db = Some db' ->
  get_by_id plug_name f db' = Return (Some m).
Proof.
  intros Hfid Hf Hwrite. unfold MetadataDb.write in Hwrite. rewrite Hfid in Hwrite.
  injection Hwrite as <-. unfold MetadataDb.get_by_id. cbn.
  rewrite !lookup_insert_eq. cbn. rewrite (metadata_init_with_fid _ _ _ _ _ Hf).
  destruct m; cbn in *. subst. reflexivity.
Qed.

(** X28. The extras are kept per plug: after a plug has written a
    metadata object, another plug reads the properties just written and
    its own extras, as they were before; the writer's extras are not
    visible to it. *)
Theorem extras_are_not_shared (writer reader : string) (m : Metadata) (f : string)
    (db db' : MetadataDb.escalator) :
  writer <> reader ->
  fid m = Some f -> f <> "" ->
  MetadataDb.write writer m db = Some db' ->
  get_by_id reader f db'
  = Return (Some (set_extra m
                    (default ∅ (MetadataDb.extras_of db !! MetadataDb.entry_key reader f)))).
Proof.
  intros Hne Hfid Hf Hwrite. unfold MetadataDb.write in Hwrite. rewrite Hfid in Hwrite.
  injection Hwrite as <-. unfold MetadataDb.get_by_id. cbn.
  rewrite lookup_insert_eq. cbn. rewrite (metadata_init_with_fid _ _ _ _ _ Hf).
  rewrite lookup_insert_ne.
  - destruct m; cbn in *. subst. reflexivity.
  - unfold MetadataDb.entry_key. intros E.
    do 3 apply String.app_inj in E. contradiction.
Qed.

(** X29. Writing one file does not change what is read for another: for
    fids without a colon (as hashes are), after [write] of a metadata
    object under fid [f], [get_by_id] of any other fid returns, for every
    plug, what it returned before. *)
Theorem write_leaves_other_files (writer reader : string) (m : Metadata) (f f' : string)
    (db db' : MetadataDb.escalator) :
  no_colon f = true -> no_colon f' = true -> f' <> f ->
  fid m = Some f ->
  MetadataDb.write writer m db = Some db' ->
  get_by_id reader f' db' = get_by_id reader f' db.
Proof.
  intros Hcf Hcf' Hne Hfid Hwrite. unfold MetadataDb.write in Hwrite. rewrite Hfid in Hwrite.
  injection Hwrite as <-. unfold MetadataDb.get_by_id. cbn.
  rewrite lookup_insert_ne by (intros E; apply file_key_inj in E; congruence).
  rewrite lookup_insert_ne; [reflexivity|].
  unfold MetadataDb.entry_key. intros E. apply String.app_inj in E.
  change (":entry:" +:+ writer) with (String ":" ("entry:" +:+ writer)) in E.
  change (":entry:" +:+ reader) with (String ":" ("entry:" +:+ reader)) in E.
  destruct (no_colon_key_inj _ _ _ _ Hcf Hcf' E) as [E' _]. congruence.
Qed.

(** X30. A metadata object instantiated for a file name and written is the
    one [get_by_filename] finds for that name: both go through
    [get_fid(filename)]. *)
Theorem get_by_filename_finds_the_written_object (plug_name name : string) (sz : Z)
    (os us : list string) (e : gmap string value) (m : Metadata)
    (db db' : MetadataDb.escalator) :
  name <> "" ->
  Metadata_init get_fid name sz "" os us = Return m ->
  MetadataDb.write plug_name (set_extra m e) db = Some db' ->
  get_by_filename plug_name name db' = Return (Some (set_extra m e)).
Proof.
  intros Hname Hinit Hwrite. unfold Metadata_init in Hinit.
  rewrite (str_truthy_true _ Hname) in Hinit. cbn in Hinit.
  unfold MetadataDb.get_by_filename.
  destruct (call_get_fid get_fid [name]) as [err|f] eqn:Hfid; [discriminate|].
  injection Hinit as <-. unfold MetadataDb.write in Hwrite. cbn in Hwrite.
  injection Hwrite as <-. unfold MetadataDb.get_by_id. cbn.
  rewrite !lookup_insert_eq. cbn. unfold Metadata_init.
  rewrite (str_truthy_true _ Hname).
  destruct (str_truthy f) eqn:Hf; cbn; [reflexivity|].
  rewrite Hfid. reflexivity.
Qed.

End MetadataRoundTrip.

(** * Instances of the further properties *)

Lemma local_upload_round_trip_witness :
  let m := Examples.file_a ∅ in
  let cs := [[Byte.x01; Byte.x02]; [Byte.x03]] in
  let run := (LocalStorage.start_upload Examples.under_r m ;;;
              for_each (chunks_from 0 cs)
                (fun oc => LocalStorage.upload_chunk Examples.under_r m oc.1 oc.2) ;;;
              LocalStorage.end_upload Examples.under_r false m)
               (Examples.local_world ∅ None ∅) in
  exists (m' : Metadata) (f' : LocalStorage.file),
    run.2 = Return m'
    /\ LocalStorage.get_chunk Examples.under_r 1024 m 0 3 run.1
       = (run.1, Return [Byte.x01; Byte.x02; Byte.x03])
    /\ LocalStorage.fs run.1 !! "/r/a" = Some f'
    /\ LocalStorage.content f' = [Byte.x01; Byte.x02; Byte.x03].
Proof.
  intros m cs run.
  destruct run as [w' [e|m']] eqn:Hrun; [vm_compute in Hrun; discriminate Hrun|].
  destruct (local_upload_round_trip Examples.under_r false 1024 m cs
              (Examples.local_world ∅ None ∅) w' m' Hrun)
    as (f' & Hget & Hf & Hc & _); [vm_compute; discriminate|reflexivity|].
  exists m', f'. split; [reflexivity|]. split; [exact Hget|]. split; [exact Hf|exact Hc].
Defined.

Lemma local_upload_chunk_replay_witness :
  let m := Examples.file_a ∅ in
  let w := Examples.local_world {["/r/.a.onitu-tmp" := LocalStorage.mkFile [] 5]} None ∅ in
  let w1 := (LocalStorage.upload_chunk Examples.under_r m 0 [Byte.x01] w).1 in
  exists w2,
    LocalStorage.upload_chunk Examples.under_r m 0 [Byte.x01] w1 = (w2, Return tt)
    /\ LocalStorage.content <$> LocalStorage.fs w2 !! "/r/.a.onitu-tmp" = Some [Byte.x01].
Proof.
  intros m w w1.
  destruct (local_upload_chunk_replay Examples.under_r m 0 [Byte.x01] w w1)
    as (w2 & Hrun & Hcontent & _).
  - vm_compute. reflexivity.
  - exists w2. split; [exact Hrun|].
    exact (eq_trans Hcontent ltac:(vm_compute; reflexivity)).
Defined.

Lemma local_abort_upload_discards_the_upload_witness :
  let m := Examples.file_a ∅ in
  let w := Examples.local_world {["/r/b" := LocalStorage.mkFile [] 5]} None ∅ in
  let w1 := (LocalStorage.start_upload Examples.under_r m w).1 in
  exists w2,
    LocalStorage.start_upload Examples.under_r m w = (w1, Return tt)
    /\ LocalStorage.abort_upload Examples.under_r m w1 = (w2, Return tt)
    /\ LocalStorage.fs w2 = LocalStorage.fs w
    /\ LocalStorage.abort_upload Examples.under_r m w2 = (w2, Raise ServiceError).
Proof.
  intros m w w1.
  assert (Hstart : LocalStorage.start_upload Examples.under_r m w = (w1, Return tt))
    by (vm_compute; reflexivity).
  destruct (local_abort_upload_discards_the_upload Examples.under_r m w w1 Hstart)
    as (w2 & H2 & Hfs & _ & _ & H3).
  - vm_compute. reflexivity.
  - exists w2. auto.
Defined.

Lemma update_is_silent_during_upload_witness :
  let m := Examples.file_a ∅ in
  let w := Examples.local_world {["/r/a" := LocalStorage.mkFile [] 5]} None ∅ in
  let w1 := ((LocalStorage.start_upload Examples.under_r m ;;;
              for_each [(0, [Byte.x01])]
                (fun oc => LocalStorage.upload_chunk Examples.under_r m oc.1 oc.2)) w).1 in
  LocalStorage.update Examples.under_r m None w1 = (w1, Return tt)
  /\ LocalStorage.plug_calls w1 = [].
Proof.
  intros m w w1.
  destruct (update_is_silent_during_upload Examples.under_r m m [(0, [Byte.x01])] None w w1)
    as (Hupdate & Hcalls & _).
  - vm_compute. reflexivity.
  - reflexivity.
  - split; [exact Hupdate|exact Hcalls].
Defined.


Lemma local_move_file_moves_the_file_witness :
  let old := Examples.file_a ∅ in
  let new := mkMetadata "b" 0 [] [] None ∅ in
  let below := mkMetadata "c/d" 0 [] [] None ∅ in
  let f := LocalStorage.mkFile [Byte.x01] 7 in
  let w := Examples.local_world {["/r/a" := f; "/r/c" := LocalStorage.mkFile [] 3]} None ∅ in
  let w' := (LocalStorage.move_file Examples.under_r old new w).1 in
  LocalStorage.fs w' !! "/r/b" = Some f
  /\ LocalStorage.fs w' !! "/r/a" = None
  /\ LocalStorage.move_file Examples.under_r old below w = (w, Raise ServiceError).
Proof.
  intros old new below f w w'.
  destruct (local_move_file_moves_the_file Examples.under_r old new w f) as [Hmoved _];
    [vm_compute; reflexivity|].
  destruct (local_move_file_moves_the_file Examples.under_r old below w f) as [_ Hblocked];
    [vm_compute; reflexivity|].
  destruct (Hmoved w') as (_ & Hnew & Hold & _); [vm_compute; reflexivity|].
  split; [exact Hnew|]. split; [apply Hold; vm_compute; discriminate|].
  apply Hblocked. vm_compute. reflexivity.
Defined.

Lemma check_changes_keeps_files_on_disk_witness :
  let gone := mkMetadata "gone" 3 ["rep1"] ["rep1"] None ∅ in
  let w := Examples.local_world {["/r/a" := LocalStorage.mkFile [] 7]} None
             {["a" := Examples.file_a {["revision" := VNum 7]}; "gone" := gone]} in
  let w' := (LocalStorage.check_changes Examples.under_r "rep1" "/r" w).1 in
  PlugDeleteFile gone ∈ LocalStorage.plug_calls w' /\ filename gone <> "a".
Proof.
  intros gone w w'.
  assert (Hwf : store_wf (LocalStorage.store w)).
  { intros k m Hk. unfold w, Examples.local_world in Hk. cbn [LocalStorage.store] in Hk.
    apply lookup_insert_Some in Hk as [[<- <-]|[_ Hk]]; [reflexivity|].
    apply lookup_singleton_Some in Hk as [<- <-]. reflexivity. }
  assert (Hrun : LocalStorage.check_changes Examples.under_r "rep1" "/r" w = (w', Return tt))
    by (vm_compute; reflexivity).
  assert (Hcalls : LocalStorage.plug_calls w' = [PlugDeleteFile gone])
    by (vm_compute; reflexivity).
  assert (Hin : PlugDeleteFile gone ∈ LocalStorage.plug_calls w')
    by (rewrite Hcalls; left).
  split; [exact Hin|].
  apply (check_changes_keeps_files_on_disk Examples.under_r "rep1" "/r" w w' "a"
           (LocalStorage.plug_calls w') gone Hwf Hrun).
  - vm_compute. eauto.
  - vm_compute. discriminate.
  - reflexivity.
  - exact Hin.
Defined.

Lemma check_changes_quiet_when_in_sync_witness :
  let w := Examples.local_world {["/r/a" := LocalStorage.mkFile [] 7]} None
             {["a" := Examples.file_a {["revision" := VNum 7]}]} in
  exists w',
    LocalStorage.check_changes Examples.under_r "rep1" "/r" w = (w', Return tt)
    /\ LocalStorage.plug_calls w' = []
    /\ LocalStorage.status_data w' !! "/r/a" = Some "synced".
Proof.
  intros w.
  destruct (check_changes_quiet_when_in_sync Examples.under_r "rep1" "/r" w)
    as (w' & new & Hrun & _ & _ & Hcalls & _ & Hsynced).
  - intros k m Hk. unfold w, Examples.local_world in Hk. cbn [LocalStorage.store] in Hk.
    apply lookup_singleton_Some in Hk as [<- <-]. reflexivity.
  - reflexivity.
  - intros p file Hp _ _. unfold w, Examples.local_world in Hp. cbn [LocalStorage.fs] in Hp.
    apply lookup_singleton_Some in Hp as [<- <-]. exists 7. split; [reflexivity|].
    cbn. lia.
  - exists w'. split; [exact Hrun|]. split.
    + vm_compute in Hrun. injection Hrun as <-. reflexivity.
    + apply (Hsynced "/r/a"); [vm_compute; eauto|reflexivity|vm_compute; discriminate].
Defined.


Lemma check_changes_updates_only_files_on_disk_witness :
  let stored := Examples.file_a {["revision" := VNum 7]} in
  let w := Examples.local_world {["/r/a" := LocalStorage.mkFile [Byte.x01] 9]} None
             {["a" := stored]} in
  let w' := (LocalStorage.check_changes Examples.under_r "rep1" "/r" w).1 in
  length (LocalStorage.plug_calls w') = 1%nat
  /\ is_Some (LocalStorage.fs w !! "/r/a").
Proof.
  intros stored w w'.
  pose (m' := set_extra (set_size stored 1) (<["revision" := VNum 9]> (extra stored))).
  assert (Hcalls : LocalStorage.plug_calls w' = [PlugUpdateFile m'])
    by (vm_compute; reflexivity).
  split; [rewrite Hcalls; reflexivity|].
  apply (check_changes_updates_only_files_on_disk Examples.under_r "rep1" "/r" w w'
           (LocalStorage.plug_calls w') m').
  - intros k m Hk. unfold w, Examples.local_world in Hk. cbn [LocalStorage.store] in Hk.
    apply lookup_singleton_Some in Hk as [<- <-]. reflexivity.
  - vm_compute. reflexivity.
  - reflexivity.
  - rewrite Hcalls. left.
Defined.

Lemma dropbox_upload_chunk_carries_the_upload_id_witness :
  let m := Examples.file_a ∅ in
  let w := Scripted.world (Scripted.accepting Examples.answer_a []) ∅ ∅ in
  let r1 := Dropbox.upload_chunk "/r" m 0 [Byte.x01] w in
  let m1 := set_extra m {["upload_id" := VStr "upload-1"]} in
  let r2 := Dropbox.upload_chunk "/r" m1 1 [Byte.x02] r1.1 in
  exists id : string,
    extra m1 !! "upload_id" = Some (VStr id)
    /\ Dropbox.requests r2.1
       = [Dropbox.ReqUploadChunk [Byte.x01] 0 None;
          Dropbox.ReqUploadChunk [Byte.x02] 1 (Some (VStr id))].
Proof.
  intros m w r1 m1 r2.
  destruct (dropbox_upload_chunk_carries_the_upload_id "/r" m 0 1 [Byte.x01] [Byte.x02]
              w r1.1 r2.1 m1 r2.2) as (n & id & _ & Hextra & _ & Hrq).
  - vm_compute. reflexivity.
  - apply surjective_pairing.
  - exists id. split; [rewrite Hextra; apply lookup_insert_eq|exact Hrq].
Defined.

Lemma dropbox_abort_upload_forgets_the_upload_witness :
  let m := set_size (Examples.file_a {["upload_id" := VStr "u1"]}) 5 in
  let w := Scripted.world (Scripted.accepting Examples.answer_a []) ∅ ∅ in
  exists w' w'',
    Dropbox.abort_upload m w = (w', Return (Dropbox.remove_upload_id m))
    /\ Dropbox.end_upload "/r" "dropbox" (fun p => p) (Dropbox.remove_upload_id m) w'
       = (w'', Raise DriverError)
    /\ Dropbox.requests w'' = [].
Proof.
  intros m w.
  destruct (dropbox_abort_upload_forgets_the_upload "/r" "dropbox" (fun p => p) m w)
    as (w' & w'' & Habort & _ & _ & _ & Hend & Hrq).
  - discriminate.
  - exists w', w''. auto.
Defined.

Lemma move_file_onto_a_taken_name_witness :
  let old := Examples.file_a ∅ in
  let new := mkMetadata "b" 0 [] [] None ∅ in
  let taken := Scripted.mkDropbox (Return []) (Return (0, "upload-1"))
                 (Return Examples.answer_a) (Raise (ErrorResponse Exists403))
                 (Return tt) (Return Examples.answer_a) [] in
  let w := Scripted.world taken ∅ ∅ in
  exists w',
    Dropbox.move_file "/r" old new w = (w', Raise ServiceError)
    /\ Dropbox.entry_db w' = ∅
    /\ Dropbox.log w' = []
    /\ backend_name "/r" (Dropbox.entry_db w') new = "/r/b".
Proof.
  intros old new taken w.
  destruct (move_file_onto_a_taken_name "/r" old new w taken)
    as (w' & Hrun & _ & Hdb & _ & Hlog & Hnext).
  - reflexivity.
  - exists w'. split; [exact Hrun|]. split; [exact Hdb|].
    split; [exact Hlog|exact Hnext].
Defined.

Lemma move_file_never_retries_witness :
  let old := Examples.file_a ∅ in
  let new := mkMetadata "b" 0 [] [] None ∅ in
  let w := Dropbox.mkWorld Scripted.Busy [] ∅ ∅ [] [] None in
  exists w',
    Dropbox.move_file "/r" old new w = (w', Raise ServiceError)
    /\ Dropbox.requests w' = [Dropbox.ReqFileMove "/r/a" "/r/b"]
    /\ Dropbox.log w' = [].
Proof.
  intros old new w.
  destruct (move_file_never_retries "/r" old new w Scripted.Busy Reissue503)
    as (w' & Hrun & Hrq & _ & Hlog & _).
  - reflexivity.
  - exists w'. split; [exact Hrun|]. split; [exact Hrq|exact Hlog].
Defined.

Lemma move_file_records_the_answer_witness :
  let old := Examples.file_a ∅ in
  let new := mkMetadata "b" 0 [] [] None ∅ in
  let b := Scripted.accepting Examples.answer_a [] in
  let w := Scripted.world b {["conflict:/r/a" := "/r/A"]} ∅ in
  exists w',
    Dropbox.move_file "/r" old new w = (w', Return (refreshed new Examples.answer_a))
    /\ Dropbox.requests w' = [Dropbox.ReqFileMove "/r/A" "/r/b"]
    /\ Dropbox.entry_db w' !! "conflict:/r/a" = Some "/r/A".
Proof.
  intros old new b w.
  destruct (move_file_records_the_answer "/r" old new w b Examples.answer_a)
    as (w' & Hrun & Hrq & _ & Hother & _).
  - reflexivity.
  - exists w'. split; [exact Hrun|]. split; [exact Hrq|].
    rewrite Hother; [reflexivity|]. vm_compute. discriminate.
Defined.

Lemma delete_file_keeps_the_resolving_entry_witness :
  let m := Examples.file_a ∅ in
  let w := Scripted.world (Scripted.accepting Examples.answer_a [])
             {["conflict:/r/a" := "/r/A"]} ∅ in
  let r := Dropbox.delete_file "/r" m w in
  r.2 = Return tt
  /\ Dropbox.entry_db r.1 !! "conflict:/r/a" = Some "/r/A"
  /\ backend_name "/r" (Dropbox.entry_db r.1) m = "/r/A".
Proof.
  intros m w r.
  destruct (delete_file_keeps_the_resolving_entry "/r" m w r.1 r.2) as [Hentry Hname].
  - vm_compute. discriminate.
  - apply surjective_pairing.
  - split; [reflexivity|]. split.
    + exact (eq_trans Hentry eq_refl).
    + exact (eq_trans Hname eq_refl).
Defined.

Lemma committed_name_is_used_afterwards_witness :
  let m := Examples.file_a {["upload_id" := VStr "u1"]} in
  let renamed := Dropbox.mkDbMetadata 0 "rev-2" Examples.later_stamp "/r/A" false false in
  let w := Scripted.world (Scripted.accepting renamed []) ∅ ∅ in
  let w' := (Dropbox.end_upload "/r" "dropbox" (fun p => p) m w).1 in
  backend_name "/r" (Dropbox.entry_db w') (after_commit m renamed) = "/r/A"
  /\ Dropbox.client w' = Scripted.accepting renamed [].
Proof.
  intros m renamed w w'.
  destruct (committed_name_is_used_afterwards "/r" "dropbox" (fun p => p) m w w'
              (after_commit m renamed)) as (u & b & resp & Hapi & Hname).
  - reflexivity.
  - vm_compute. reflexivity.
  - assert (Hclient : Dropbox.client w' = Scripted.accepting renamed [])
      by (vm_compute; reflexivity).
    split; [|exact Hclient].
    cbn in Hapi. injection Hapi as Hb Hresp. subst b. rewrite Hclient in Hresp.
    injection Hresp as <-. apply Hname. discriminate.
Defined.

Lemma renamed_commit_under_conflict_is_not_followed_witness :
  let m := Examples.file_a {["upload_id" := VStr "u1"]} in
  let renamed := Dropbox.mkDbMetadata 0 "rev-2" Examples.later_stamp "/r/A (1)" false false in
  let w := Scripted.world (Scripted.accepting renamed []) {["conflict:/r/a" := "/r/A"]} ∅ in
  let w' := (Dropbox.end_upload "/r" "dropbox" (fun p => p) m w).1 in
  backend_name "/r" (Dropbox.entry_db w') (after_commit m renamed) = "/r/A"
  /\ Dropbox.entry_db w' !! "conflict:/r/A" = Some "/r/A (1)".
Proof.
  intros m renamed w w'.
  destruct (renamed_commit_under_conflict_is_not_followed "/r" "dropbox" (fun p => p) m w w'
              (after_commit m renamed) "/r/A") as [Hname _].
  - reflexivity.
  - discriminate.
  - vm_compute. discriminate.
  - vm_compute. reflexivity.
  - split; [exact Hname|]. vm_compute. reflexivity.
Defined.

Lemma socket_error_is_wrapped_by_transfers_only_witness :
  let m := Examples.file_a ∅ in
  let new := mkMetadata "b" 0 [] [] None ∅ in
  let w := Scripted.world (Scripted.failing RESTSocketError) ∅ ∅ in
  (Dropbox.get_chunk "/r" m 0 4 w).2 = Raise ServiceError
  /\ (Dropbox.delete_file "/r" m w).2 = Raise RESTSocketError
  /\ (Dropbox.move_file "/r" m new w).2 = Raise RESTSocketError.
Proof.
  intros m new w.
  destruct (socket_error_is_wrapped_by_transfers_only "/r" m new 0 4 [] w)
    as (Hget & _ & Hdelete & Hmove); try reflexivity.
  auto.
Defined.

Lemma empty_file_upload_error_is_not_wrapped_witness :
  let m := Examples.file_a ∅ in
  let w := Scripted.world (Scripted.failing (ErrorResponse OtherResponse)) ∅ ∅ in
  exists w',
    Dropbox.end_upload "/r" "dropbox" (fun p => p) m w
    = (w', Raise (ErrorResponse OtherResponse))
    /\ Dropbox.requests w' = [Dropbox.ReqUploadChunk [] 0 None].
Proof.
  intros m w.
  destruct (empty_file_upload_error_is_not_wrapped "/r" "dropbox" (fun p => p) m w
              (ErrorResponse OtherResponse)) as (w' & Hrun & Hrq & _); try reflexivity.
  exists w'. auto.
Defined.

Lemma check_dropbox_keeps_the_cursor_in_step_witness :
  let deltas := [Dropbox.mkDelta [] true "cursor-1"; Dropbox.mkDelta [] false "cursor-2"] in
  let w := Scripted.world (Scripted.accepting Examples.answer_a deltas)
             {["dropbox_cursor" := "cursor-0"]} ∅ in
  let r := Dropbox.check_dropbox "/r" Examples.two_stamps 2 w in
  r.2 = Return (Some tt)
  /\ Dropbox.cursor r.1 = Dropbox.entry_db r.1 !! "dropbox_cursor"
  /\ Dropbox.requests r.1
     = [Dropbox.ReqDelta (Some "cursor-0") "/r"; Dropbox.ReqDelta (Some "cursor-0") "/r"].
Proof.
  intros deltas w r.
  destruct (check_dropbox_keeps_the_cursor_in_step Examples.two_stamps "/r" 2 w r.1 r.2)
    as (Hstep & _).
  - reflexivity.
  - apply surjective_pairing.
  - split; [vm_compute; reflexivity|]. split; [exact Hstep|vm_compute; reflexivity].
Defined.

Lemma deleted_entry_is_reported_witness :
  let d := Dropbox.mkDbMetadata 0 "rev-1" Examples.stamp "/r/a" false true in
  let stored := Examples.file_a {["modified" := VStr Examples.later_stamp]} in
  let w := Scripted.world (Scripted.accepting d []) ∅ {["a" := stored]} in
  exists w',
    Dropbox.process_entry Examples.two_stamps "/r/" ("/r/a", None) w = (w', Return tt)
    /\ Dropbox.plug_calls w' = [PlugDeleteFile stored]
    /\ Dropbox.requests w' = [Dropbox.ReqMetadata "/r/a"].
Proof.
  intros d stored w.
  destruct (deleted_entry_is_reported Examples.two_stamps "/r/" ("/r/a", None) d w)
    as (w' & Hrun & Hcalls & _ & Hrq).
  - right. split; reflexivity.
  - reflexivity.
  - reflexivity.
  - vm_compute. discriminate.
  - exists w'. split; [exact Hrun|]. split; [|exact Hrq].
    exact (eq_trans Hcalls ltac:(vm_compute; reflexivity)).
Defined.

Lemma respond_to_sends_iff_it_returns_witness :
  let read := fun (_ : string) (_ _ : Z) (w : unit) => (w, Return [Byte.x01]) in
  let r := Router.mkRouter tt [] in
  let r' := (Router._respond_to unit Examples.one_digit read "peer" "a" "0" "4" r).1 in
  exists (o n : Z) (chunk : bytes),
    Examples.one_digit "0" = Some o /\ Examples.one_digit "4" = Some n
    /\ read "a" o n (Router.world_of r) = (Router.world_of r', Return chunk)
    /\ Router.sent r' = Router.sent r ++ [("peer", chunk)].
Proof.
  intros read r r'.
  exact (respond_to_sends_iff_it_returns unit Examples.one_digit read "peer" "a" "0" "4"
           r r' (Return tt) eq_refl).
Defined.

Lemma router_stops_at_a_malformed_request_witness :
  let read := fun (_ : string) (_ _ : Z) (w : unit) => (w, Return [Byte.x01]) in
  let r := Router.mkRouter tt [] in
  let run := RouterThread.run unit Examples.one_digit read
               [("p", "a", "0", "4"); ("q", "a", "x", "4"); ("p", "a", "4", "4")] r in
  (exists e, run.2 = Raise e)
  /\ exists answered,
       Router.sent run.1 = Router.sent r ++ answered /\ (length answered <= 1)%nat.
Proof.
  intros read r run.
  apply (router_stops_at_a_malformed_request unit Examples.one_digit read
           [("p", "a", "0", "4")] [("p", "a", "4", "4")] "q" "a" "x" "4" r run.1 run.2).
  - left. reflexivity.
  - apply surjective_pairing.
Defined.

Lemma write_then_get_by_id_witness :
  let get_fid := fun _ : list string => Some "f1" in
  let m := mkMetadata "a" 3 ["rep1"] ["rep1"] (Some "f1") {["revision" := VNum 7]} in
  let db := MetadataDb.mkEscalator ∅ ∅ in
  exists db',
    MetadataDb.write "rep1" m db = Some db'
    /\ MetadataDb.get_by_id get_fid "rep1" "f1" db' = Return (Some m).
Proof.
  intros get_fid m db.
  destruct (MetadataDb.write "rep1" m db) as [db'|] eqn:Hwrite; [|discriminate Hwrite].
  exists db'. split; [reflexivity|].
  apply (write_then_get_by_id get_fid "rep1" m "f1" db db');
    [reflexivity|discriminate|exact Hwrite].
Defined.

Lemma extras_are_not_shared_witness :
  let get_fid := fun _ : list string => Some "f1" in
  let m := mkMetadata "a" 3 ["rep1"; "rep2"] ["rep1"] (Some "f1") {["revision" := VNum 7]} in
  let db := MetadataDb.mkEscalator ∅ {["file:f1:entry:rep2" := {["rev" := VStr "r9"]}]} in
  exists db',
    MetadataDb.write "rep1" m db = Some db'
    /\ MetadataDb.get_by_id get_fid "rep2" "f1" db'
       = Return (Some (set_extra m {["rev" := VStr "r9"]})).
Proof.
  intros get_fid m db.
  destruct (MetadataDb.write "rep1" m db) as [db'|] eqn:Hwrite; [|discriminate Hwrite].
  exists db'. split; [reflexivity|].
  exact (eq_trans
           (extras_are_not_shared get_fid "rep1" "rep2" m "f1" db db'
              ltac:(discriminate) eq_refl ltac:(discriminate) Hwrite)
           eq_refl).
Defined.

Lemma write_leaves_other_files_witness :
  let get_fid := fun _ : list string => Some "f1" in
  let m := mkMetadata "a" 3 ["rep1"] ["rep1"] (Some "f1") ∅ in
  let other := MetadataDb.mkProperties "b" 5 ["rep1"] [] in
  let db := MetadataDb.mkEscalator {["file:f2" := other]} ∅ in
  exists db',
    MetadataDb.write "rep1" m db = Some db'
    /\ MetadataDb.get_by_id get_fid "rep1" "f2" db'
       = Return (Some (mkMetadata "b" 5 ["rep1"] [] (Some "f2") ∅)).
Proof.
  intros get_fid m other db.
  destruct (MetadataDb.write "rep1" m db) as [db'|] eqn:Hwrite; [|discriminate Hwrite].
  exists db'. split; [reflexivity|].
  exact (eq_trans
           (write_leaves_other_files get_fid "rep1" "rep1" m "f1" "f2" db db'
              eq_refl eq_refl ltac:(discriminate) eq_refl Hwrite)
           eq_refl).
Defined.

Lemma get_by_filename_finds_the_written_object_witness :
  let get_fid := fun args : list string =>
                   match args with [name] => Some ("fid-" +:+ name) | _ => None end in
  let db := MetadataDb.mkEscalator ∅ ∅ in
  exists m db',
    Metadata_init get_fid "a" 3 "" ["rep1"] [] = Return m
    /\ MetadataDb.write "rep1" (set_extra m {["revision" := VNum 7]}) db = Some db'
    /\ MetadataDb.get_by_filename get_fid "rep1" "a" db'
       = Return (Some (set_extra m {["revision" := VNum 7]})).
Proof.
  intros get_fid db.
  destruct (Metadata_init get_fid "a" 3 "" ["rep1"] []) as [e|m] eqn:Hinit;
    [discriminate Hinit|].
  destruct (MetadataDb.write "rep1" (set_extra m {["revision" := VNum 7]}) db)
    as [db'|] eqn:Hwrite.
  - exists m, db'. split; [reflexivity|]. split; [exact Hwrite|].
    apply (get_by_filename_finds_the_written_object get_fid "rep1" "a" 3 ["rep1"] []
             {["revision" := VNum 7]} m db db'); [discriminate|exact Hinit|exact Hwrite].
  - exfalso. vm_compute in Hinit. injection Hinit as <-. discriminate Hwrite.
Defined.
